(** * bzl: target discovery, disk cache, output parser and fuzzy selector

    A shallow embedding of the core of the [bzl] Python package
    ([bzl/bazel.py], [bzl/ssh.py], [bzl/widgets/fuzzy_list.py]) and the
    properties of it that the design document states.

    Conventions of the embedding.
    - A Python [str] is a Rocq [string]; its characters are the code points
      U+0000..U+00FF, for which the tables of [str.isspace], [str.splitlines]
      and [str.lower] are written out below.
    - A Python [int] is a [Z]; a [float] holding a time is an exact rational.
    - A Python [dict] keeps insertion order: it is an association list whose
      keys are pairwise distinct.
    - A function that may raise returns an [outcome]; a function that touches
      the disk is a state transformer over the file tree. *)

From Stdlib Require Import ZArith NArith QArith Ascii Lia Permutation Sorted.
From Stdlib Require Import DecimalString Lqa Qround.
From Stdlib Require String.
From stdpp Require Import base option list gmap strings sorting.

Set Default Proof Using "Type".
Set Warnings "-register-all".

(** ** Exceptions and fallible computations *)

Inductive exn : Type :=
  | ValueError | IndexError | KeyError | TypeError | AttributeError
  | JSONDecodeError
  | RuntimeError (msg : string)
  | FileNotFoundError | FileExistsError | NotADirectoryError | IsADirectoryError.

Inductive outcome (A : Type) : Type :=
  | Returns (a : A)
  | Raises (e : exn).
Arguments Returns {A} a.
Arguments Raises {A} e.

Definition bind_outcome {A B} (m : outcome A) (k : A -> outcome B) : outcome B :=
  match m with
  | Returns a => k a
  | Raises e => Raises e
  end.

Declare Scope outcome_scope.
Delimit Scope outcome_scope with out.
Notation "'let!' x ':=' m 'in' k" := (bind_outcome m (fun x => k))
  (at level 10, x pattern, m at level 100, k at level 200) : outcome_scope.

(** [for x in xs: s = body(s, x)], stopping at the first exception. *)
Fixpoint for_each {A S} (body : S -> A -> outcome S) (xs : list A) (s : S)
  : outcome S :=
  match xs with
  | [] => Returns s
  | x :: xs' =>
      match body s x with
      | Returns s' => for_each body xs' s'
      | Raises e => Raises e
      end
  end.

(** ** The Python built-ins the package calls *)

Module Py.

Definition ord (c : ascii) : N := N_of_ascii c.

(** The one-character strings that a literal cannot spell. *)
Definition DQUOTE : string := String "034"%char EmptyString.
Definition LF : string := String "010"%char EmptyString.

Definition between (lo hi n : N) : bool := ((lo <=? n) && (n <=? hi))%N.

(** [str.isspace] on one character: TAB..CR, FS..US, SPACE, NEL, NBSP. *)
Definition isspace (c : ascii) : bool :=
  between 9 13 (ord c) || between 28 32 (ord c)
  || (ord c =? 133)%N || (ord c =? 160)%N.

(** The line boundaries of [str.splitlines]: LF, VT, FF, CR, FS, GS, RS, NEL. *)
Definition islinebreak (c : ascii) : bool :=
  between 10 13 (ord c) || between 28 30 (ord c) || (ord c =? 133)%N.

(** [str.lower] on one character: A..Z and the accented capitals
    U+00C0..U+00DE (all but the multiplication sign U+00D7) move up by 32. *)
Definition lower_char (c : ascii) : ascii :=
  if between 65 90 (ord c)
     || (between 192 222 (ord c) && negb (ord c =? 215)%N)
  then ascii_of_N (ord c + 32)
  else c.

Fixpoint lower (s : string) : string :=
  match s with
  | EmptyString => EmptyString
  | String c r => String (lower_char c) (lower r)
  end.

Fixpoint lstrip (s : string) : string :=
  match s with
  | EmptyString => EmptyString
  | String c r => if isspace c then lstrip r else s
  end.

Fixpoint rstrip (s : string) : string :=
  match s with
  | EmptyString => EmptyString
  | String c r =>
      match rstrip r with
      | EmptyString => if isspace c then EmptyString else String c EmptyString
      | r' => String c r'
      end
  end.

(** [s.strip()] *)
Definition strip (s : string) : string := rstrip (lstrip s).

(** The pieces of [s] between line boundaries; CR LF is one boundary. *)
Fixpoint line_segments (s : string) : list string :=
  match s with
  | EmptyString => [EmptyString]
  | String c r =>
      if islinebreak c then
        EmptyString ::
          match r with
          | String c' r' =>
              if (ord c =? 13)%N && (ord c' =? 10)%N
              then line_segments r' else line_segments r
          | EmptyString => [EmptyString]
          end
      else
        match line_segments r with
        | l :: ls => String c l :: ls
        | [] => [String c EmptyString]
        end
  end.

(** [s.splitlines()]: no empty line is reported after the last boundary. *)
Definition splitlines (s : string) : list string :=
  let segs := line_segments s in
  match last segs with
  | Some EmptyString => removelast segs
  | _ => segs
  end.

(** [s.split()]: the maximal runs of characters that are not whitespace. *)
Fixpoint split (s : string) : list string :=
  match s with
  | EmptyString => []
  | String c r =>
      if isspace c then split r
      else
        match r with
        | EmptyString => [String c EmptyString]
        | String c' _ =>
            if isspace c' then String c EmptyString :: split r
            else
              match split r with
              | t :: ts => String c t :: ts
              | [] => [String c EmptyString]
              end
        end
  end.

(** [s.startswith(p)] *)
Definition startswith (p s : string) : bool := String.prefix p s.

(** [needle in hay] *)
Fixpoint contains (needle hay : string) : bool :=
  String.prefix needle hay
  || match hay with
     | EmptyString => false
     | String _ r => contains needle r
     end.

(** The cut of [s] at its last [sep], when [sep] occurs. *)
Fixpoint rpartition (sep : ascii) (s : string) : option (string * string) :=
  match s with
  | EmptyString => None
  | String c r =>
      match rpartition sep r with
      | Some (a, b) => Some (String c a, b)
      | None => if Ascii.eqb c sep then Some (EmptyString, r) else None
      end
  end.

(** [s.rsplit(sep, 1)] for a one-character separator. *)
Definition rsplit1 (sep : ascii) (s : string) : list string :=
  match rpartition sep s with
  | Some (a, b) => [a; b]
  | None => [s]
  end.

(** [a, b = xs] *)
Definition unpack2 {A} (xs : list A) : outcome (A * A) :=
  match xs with
  | [a; b] => Returns (a, b)
  | _ => Raises ValueError
  end.

(** [sep.join(xs)] *)
Definition join (sep : string) (xs : list string) : string :=
  String.concat sep xs.

(** [s.replace(old, new)] for a one-character [old]. *)
Fixpoint replace_char (old : ascii) (new : string) (s : string) : string :=
  match s with
  | EmptyString => EmptyString
  | String c r =>
      if Ascii.eqb c old then new +:+ replace_char old new r
      else String c (replace_char old new r)
  end.

(** [xs[i]], negative indices counting from the end. *)
Definition getitem {A} (xs : list A) (i : Z) : outcome A :=
  let n := Z.of_nat (length xs) in
  let j := (if i <? 0 then i + n else i)%Z in
  if ((0 <=? j) && (j <? n))%Z then
    match xs !! Z.to_nat j with
    | Some x => Returns x
    | None => Raises IndexError
    end
  else Raises IndexError.

(** [range(start, stop)] *)
Definition range (start stop : Z) : list Z :=
  map (fun k => (start + Z.of_nat k)%Z) (seq 0 (Z.to_nat (stop - start))).

(** [a < b] on [str]: lexicographic on code points. *)
Definition str_lt (a b : string) : bool := String.ltb a b.

(** [a < b] on [list[str]]. *)
Fixpoint list_lt (a b : list string) : bool :=
  match a, b with
  | [], [] => false
  | [], _ :: _ => true
  | _ :: _, [] => false
  | x :: a', y :: b' =>
      if String.eqb x y then list_lt a' b' else str_lt x y
  end.

(** [a < b] on [tuple[str, list[str]]]. *)
Definition item_lt (a b : string * list string) : bool :=
  if String.eqb a.1 b.1 then list_lt a.2 b.2 else str_lt a.1 b.1.

(** [sorted(xs)]: a stable sort that compares with [<] only. *)
Fixpoint insort {A} (lt : A -> A -> bool) (x : A) (l : list A) : list A :=
  match l with
  | [] => [x]
  | y :: l' => if lt y x then y :: insort lt x l' else x :: l
  end.

Definition sorted {A} (lt : A -> A -> bool) (xs : list A) : list A :=
  foldr (insort lt) [] xs.

(** A [dict] with [str] keys, in insertion order. *)
Definition dict (V : Type) : Type := list (string * V).

Fixpoint dict_get {V} (d : dict V) (k : string) : option V :=
  match d with
  | [] => None
  | (k', v) :: d' => if String.eqb k' k then Some v else dict_get d' k
  end.

(** [d[k] = v] *)
Fixpoint dict_set {V} (d : dict V) (k : string) (v : V) : dict V :=
  match d with
  | [] => [(k, v)]
  | (k', v') :: d' =>
      if String.eqb k' k then (k', v) :: d' else (k', v') :: dict_set d' k v
  end.

(** [d[k].append(v)] on a [defaultdict(list)]. *)
Definition dict_append {V} (d : dict (list V)) (k : string) (v : V)
  : dict (list V) :=
  match dict_get d k with
  | Some vs => dict_set d k (vs ++ [v])
  | None => dict_set d k [v]
  end.

(** [{k: f(v) for k, v in items}] *)
Definition dict_comprehension {V W} (f : V -> W) (items : list (string * V))
  : dict W :=
  fold_left (fun d kv => dict_set d kv.1 (f kv.2)) items [].

(** [s.split(sep)] for a one-character separator: the fields between the
    separators, empty fields included. *)
Fixpoint split_on (sep : ascii) (s : string) : list string :=
  match s with
  | EmptyString => [EmptyString]
  | String c r =>
      if Ascii.eqb c sep then EmptyString :: split_on sep r
      else
        match split_on sep r with
        | f :: fs => String c f :: fs
        | [] => [String c EmptyString]
        end
  end.

(** [xs.index(x)] *)
Fixpoint index (x : string) (xs : list string) : outcome Z :=
  match xs with
  | [] => Raises ValueError
  | y :: ys =>
      if String.eqb y x then Returns 0%Z
      else
        match index x ys with
        | Returns i => Returns (1 + i)%Z
        | Raises e => Raises e
        end
  end.

(** [s[:-1]] *)
Fixpoint drop_last (s : string) : string :=
  match s with
  | EmptyString => EmptyString
  | String c r =>
      match r with
      | EmptyString => EmptyString
      | _ => String c (drop_last r)
      end
  end.

(** [str.isprintable] on one character: all but the controls, the
    no-break space and the soft hyphen. *)
Definition isprintable_char (c : ascii) : bool :=
  negb (between 0 31 (ord c) || between 127 160 (ord c) || (ord c =? 173)%N).

(** [s.isprintable()] *)
Fixpoint isprintable (s : string) : bool :=
  match s with
  | EmptyString => true
  | String c r => isprintable_char c && isprintable r
  end.

(** [str(n)] for an [int]. *)
Definition str_of_int (n : Z) : string := NilZero.string_of_int (Z.to_int n).

(** [int(x)] for a [float]: the fraction is dropped, towards zero. *)
Definition int_of_float (x : Q) : Z := Z.quot (Qnum x) (Zpos (Qden x)).

End Py.

(** ** [hashlib.sha1] and [str.encode] *)

Module Hashlib.
Local Open Scope N_scope.

(** [s.encode()]: UTF-8; a code point from U+0080 on takes two bytes. *)
Fixpoint encode (s : string) : list N :=
  match s with
  | EmptyString => []
  | String c r =>
      let n := Py.ord c in
      if n <? 128 then n :: encode r
      else (192 + n / 64) :: (128 + n mod 64) :: encode r
  end.

Definition mask32 (x : N) : N := N.land x 0xFFFFFFFF.
Definition add32 (a b : N) : N := mask32 (a + b).
Definition rotl (k x : N) : N :=
  mask32 (N.lor (N.shiftl x k) (N.shiftr x (32 - k))).

(** The [n] low bytes of [x], most significant first. *)
Fixpoint be_bytes (n : nat) (x : N) : list N :=
  match n with
  | O => []
  | S n' => N.land (N.shiftr x (8 * N.of_nat n')) 0xFF :: be_bytes n' x
  end.

Definition pad (msg : list N) : list N :=
  let len := N.of_nat (length msg) in
  let zeros := (64 + 55 - len mod 64) mod 64 in
  msg ++ [0x80] ++ repeat 0 (N.to_nat zeros) ++ be_bytes 8 (8 * len).

Fixpoint be_word (bs : list N) (acc : N) : N :=
  match bs with
  | [] => acc
  | b :: bs' => be_word bs' (256 * acc + b)
  end.

(** The big-endian 32-bit words of a byte string. *)
Fixpoint words (n : nat) (bs : list N) : list N :=
  match n with
  | O => []
  | S n' => be_word (take 4 bs) 0 :: words n' (drop 4 bs)
  end.

(** The message schedule, latest word first. *)
Fixpoint schedule (n : nat) (rev_w : list N) : list N :=
  match n with
  | O => rev_w
  | S n' =>
      let w k := nth k rev_w 0 in
      schedule n'
        (rotl 1 (N.lxor (N.lxor (w 2%nat) (w 7%nat))
                        (N.lxor (w 13%nat) (w 15%nat))) :: rev_w)
  end.

Definition state : Type := N * N * N * N * N.

Definition round (st : state) (iw : nat * N) : state :=
  let '(a, b, c, d, e) := st in
  let '(i, w) := iw in
  let '(f, k) :=
    if (i <? 20)%nat then
      (N.lor (N.land b c) (N.land (N.lxor b 0xFFFFFFFF) d), 0x5A827999)
    else if (i <? 40)%nat then (N.lxor (N.lxor b c) d, 0x6ED9EBA1)
    else if (i <? 60)%nat then
      (N.lor (N.lor (N.land b c) (N.land b d)) (N.land c d), 0x8F1BBCDC)
    else (N.lxor (N.lxor b c) d, 0xCA62C1D6) in
  let temp := add32 (add32 (add32 (add32 (rotl 5 a) f) e) k) w in
  (temp, a, rotl 30 b, c, d).

Definition compress (h : state) (chunk : list N) : state :=
  let w := rev (schedule 64 (rev (words 16 chunk))) in
  let '(a, b, c, d, e) := fold_left round (combine (seq 0 80) w) h in
  let '(h0, h1, h2, h3, h4) := h in
  (add32 h0 a, add32 h1 b, add32 h2 c, add32 h3 d, add32 h4 e).

Fixpoint chunks (n : nat) (bs : list N) (h : state) : state :=
  match n with
  | O => h
  | S n' => chunks n' (drop 64 bs) (compress h (take 64 bs))
  end.

Definition sha1 (msg : list N) : list N :=
  let bs := pad msg in
  let '(h0, h1, h2, h3, h4) :=
    chunks (length bs / 64) bs
      (0x67452301, 0xEFCDAB89, 0x98BADCFE, 0x10325476, 0xC3D2E1F0) in
  be_bytes 4 h0 ++ be_bytes 4 h1 ++ be_bytes 4 h2 ++ be_bytes 4 h3
  ++ be_bytes 4 h4.

Definition hex_digit (n : N) : ascii :=
  if n <? 10 then ascii_of_N (48 + n) else ascii_of_N (87 + n).

Fixpoint hex (bs : list N) : string :=
  match bs with
  | [] => EmptyString
  | b :: bs' => String (hex_digit (b / 16)) (String (hex_digit (b mod 16)) (hex bs'))
  end.

(** [hashlib.sha1(data).hexdigest()] *)
Definition sha1_hexdigest (data : list N) : string := hex (sha1 data).

End Hashlib.

(** ** [shlex.quote] *)

Module Shlex.

(** The characters outside the class [[^\w@%+=:,./-]] under [re.ASCII]. *)
Definition safe_char (c : ascii) : bool :=
  let n := Py.ord c in
  Py.between 48 57 n || Py.between 65 90 n || Py.between 97 122 n
  || (n =? 95)%N                                   (* _ *)
  || (n =? 64)%N || (n =? 37)%N || (n =? 43)%N     (* @ % + *)
  || (n =? 61)%N || (n =? 58)%N || (n =? 44)%N     (* = : , *)
  || (n =? 46)%N || (n =? 47)%N || (n =? 45)%N.    (* . / - *)

Fixpoint all_safe (s : string) : bool :=
  match s with
  | EmptyString => true
  | String c r => safe_char c && all_safe r
  end.

(** The five characters [' " ' " '] that stand for one single quote. *)
Definition escaped_quote : string :=
  "'" +:+ Py.DQUOTE +:+ "'" +:+ Py.DQUOTE +:+ "'".

Definition quote (s : string) : string :=
  if String.eqb s EmptyString then "''"
  else if all_safe s then s
  else "'" +:+ Py.replace_char "'" escaped_quote s +:+ "'".

End Shlex.

(** ** [json] and [pathlib]: values, file contents and the file tree *)

Module Json.

(** The Python values that JSON text decodes to. A number is an exact
    rational: the values [NaN] and [Infinity] are left out. *)
Inductive value : Type :=
  | PNone
  | PBool (b : bool)
  | PNum (q : Q)
  | PStr (s : string)
  | PList (xs : list value)
  | PDict (d : Py.dict value).

(** The text of a file: the JSON encoding of a value, or anything else. *)
Inductive contents : Type :=
  | Encoded (v : value)
  | Garbled.

(** [json.dumps(v, indent=2)] *)
Definition dumps (v : value) : contents := Encoded v.

(** [json.loads(text)] *)
Definition loads (text : contents) : outcome value :=
  match text with
  | Encoded v => Returns v
  | Garbled => Raises JSONDecodeError
  end.

(** [data.get(key)] *)
Definition get (data : value) (key : string) : outcome value :=
  match data with
  | PDict d => Returns (default PNone (Py.dict_get d key))
  | _ => Raises AttributeError
  end.

(** [data[key]] for a [str] key. *)
Definition subscript (data : value) (key : string) : outcome value :=
  match data with
  | PDict d =>
      match Py.dict_get d key with
      | Some v => Returns v
      | None => Raises KeyError
      end
  | _ => Raises TypeError
  end.

(** [v != n] for an [int] [n]; [True] and [False] compare as 1 and 0. *)
Definition ne_int (v : value) (n : Z) : bool :=
  match v with
  | PNum q => negb (Qeq_bool q (inject_Z n))
  | PBool b => negb (Z.eqb (if b then 1 else 0) n)
  | _ => true
  end.

(** [t - v] for a [float] [t], as the exact difference. The code rounds
    the difference to the nearest double; the two agree whenever [t] and
    [v] are on one grid of doubles, and the properties that depend on the
    exact value assume that. *)
Definition rsub (t : Q) (v : value) : outcome Q :=
  match v with
  | PNum q => Returns (t - q)%Q
  | PBool b => Returns (t - (if b then 1 else 0))%Q
  | _ => Raises TypeError
  end.

(** A [dict[str, list[str]]] as a value. *)
Definition of_index (idx : Py.dict (list string)) : value :=
  PDict (map (fun kv => (kv.1, PList (map PStr kv.2))) idx).

End Json.

Module Pathlib.
Import Json.

(** A path below the home directory: its components, innermost first.
    The home directory itself is [[]] and always exists. *)
Definition path : Type := list string.

Inductive node : Type :=
  | Dir
  | File (text : contents).

Abbreviation tree := (gmap path node).

(** An action on the file tree that may raise. *)
Definition io (A : Type) : Type := tree -> tree * outcome A.

Definition ret {A} (a : A) : io A := fun t => (t, Returns a).
Definition raise {A} (e : exn) : io A := fun t => (t, Raises e).
Definition lift {A} (m : outcome A) : io A := fun t => (t, m).
Definition bind {A B} (m : io A) (k : A -> io B) : io B :=
  fun t =>
    match m t with
    | (t', Returns a) => k a t'
    | (t', Raises e) => (t', Raises e)
    end.
(** [try: m  except Exception: handler] *)
Definition try_except {A} (m : io A) (handler : io A) : io A :=
  fun t =>
    match m t with
    | (t', Returns a) => (t', Returns a)
    | (t', Raises _) => handler t'
    end.

Definition stat (t : tree) (p : path) : option node :=
  match p with
  | [] => Some Dir
  | _ => t !! p
  end.

Definition is_dir (t : tree) (p : path) : bool :=
  match stat t p with
  | Some Dir => true
  | _ => false
  end.

(** [os.mkdir(p)] *)
Definition os_mkdir (p : path) : io unit :=
  fun t =>
    match stat t p with
    | Some _ => (t, Raises FileExistsError)
    | None =>
        match stat t (tail p) with
        | Some Dir => (<[p := Dir]> t, Returns tt)
        | Some (File _) => (t, Raises NotADirectoryError)
        | None => (t, Raises FileNotFoundError)
        end
    end.

(** [p.mkdir(parents=False, exist_ok=True)] *)
Definition mkdir_exist_ok (p : path) : io unit :=
  fun t =>
    match os_mkdir p t with
    | (t', Returns _) => (t', Returns tt)
    | (t', Raises FileNotFoundError) => (t', Raises FileNotFoundError)
    | (t', Raises e) =>
        if is_dir t' p then (t', Returns tt) else (t', Raises e)
    end.

(** [p.mkdir(parents=True, exist_ok=True)] *)
Fixpoint mkdir_parents (p : path) : io unit :=
  fun t =>
    match os_mkdir p t with
    | (t', Returns _) => (t', Returns tt)
    | (t', Raises FileNotFoundError) =>
        match p with
        | [] => (t', Raises FileNotFoundError)
        | _ :: parent =>
            match mkdir_parents parent t' with
            | (t1, Returns _) => mkdir_exist_ok p t1
            | (t1, Raises e) => (t1, Raises e)
            end
        end
    | (t', Raises e) =>
        if is_dir t' p then (t', Returns tt) else (t', Raises e)
    end.

(** [p.exists()] *)
Definition exists_ (p : path) : io bool :=
  fun t => (t, Returns (bool_decide (is_Some (stat t p)))).

(** [p.read_text()] *)
Definition read_text (p : path) : io contents :=
  fun t =>
    match stat t p with
    | Some (File text) => (t, Returns text)
    | Some Dir => (t, Raises IsADirectoryError)
    | None => (t, Raises FileNotFoundError)
    end.

(** [p.write_text(text)] *)
Definition write_text (p : path) (text : contents) : io unit :=
  fun t =>
    match stat t p with
    | Some Dir => (t, Raises IsADirectoryError)
    | Some (File _) => (<[p := File text]> t, Returns tt)
    | None =>
        match stat t (tail p) with
        | Some Dir => (<[p := File text]> t, Returns tt)
        | Some (File _) => (t, Raises NotADirectoryError)
        | None => (t, Raises FileNotFoundError)
        end
    end.

(** [p.unlink(missing_ok=True)] *)
Definition unlink_missing_ok (p : path) : io unit :=
  fun t =>
    match stat t p with
    | Some (File _) => (delete p t, Returns tt)
    | Some Dir => (t, Raises IsADirectoryError)
    | None => (t, Returns tt)
    end.

End Pathlib.

Declare Scope io_scope.
Delimit Scope io_scope with io.
Notation "'let*' x ':=' m 'in' k" := (Pathlib.bind m (fun x => k))
  (at level 10, x pattern, m at level 100, k at level 200) : io_scope.

(** ** [bzl/ssh.py] *)

Module Ssh.
Import Py.
Local Open Scope outcome_scope.

Record SSHConfig : Type := {
  host : string;          (* e.g. user@build-host *)
  remote_dir : string;    (* e.g. /home/user/my-repo *)
}.

(** [SSHConfig.from_args]; [cwd] is the value of [os.getcwd()]. *)
Definition from_args (cwd : string) (h : string) (dir : option string)
  : SSHConfig :=
  {| host := h;
     remote_dir :=
       match dir with
       | Some d => if String.eqb d EmptyString then cwd else d
       | None => cwd
       end |}.

Definition build_exec_args (self : SSHConfig) (target : option string)
    (verb : string) : list string :=
  let target_str :=
    match target with
    | Some t => if String.eqb t EmptyString then EmptyString else " " +:+ t
    | None => EmptyString
    end in
  let remote_cmd :=
    "cd " +:+ Shlex.quote (remote_dir self) +:+ " && bazel " +:+ verb
    +:+ target_str in
  ["ssh"; "-t"; host self; remote_cmd].

Definition build_all_kinds_query_cmd (self : SSHConfig) (scope : string)
  : list string :=
  let remote_cmd :=
    "cd " +:+ Shlex.quote (remote_dir self) +:+ " && "
    +:+ "bazel query '" +:+ scope +:+ "' --output label_kind" in
  ["ssh"; host self; remote_cmd].

Definition build_query_cmd (self : SSHConfig) (scope : string)
    (kinds : list string) : outcome (list string) :=
  let! kind_expr :=
    if (1 <? length kinds)%nat then Returns (join "|" kinds)
    else getitem kinds 0 in
  let remote_cmd :=
    "cd " +:+ Shlex.quote (remote_dir self) +:+ " && "
    +:+ "bazel query " +:+ DQUOTE +:+ "kind('" +:+ kind_expr +:+ "', "
    +:+ scope +:+ ")" +:+ DQUOTE in
  Returns ["ssh"; host self; remote_cmd].

End Ssh.

(** ** [bzl/bazel.py] *)

Module Bazel.
Import Py Json Pathlib.
Local Open Scope outcome_scope.
Local Open Scope io_scope.

(** *** Cache config *)

Definition _CACHE_DIR : path := ["bzl"; ".cache"].
Definition _CACHE_VERSION : Z := 1.

(** [host or 'local'] *)
Definition or_local (host : option string) : string :=
  match host with
  | Some h => if String.eqb h EmptyString then "local" else h
  | None => "local"
  end.

Definition _cache_key (host : option string) (scope : string)
    (kinds : list string) : string :=
  let kinds_str := join "," (sorted str_lt kinds) in
  let raw := or_local host +:+ ":" +:+ scope +:+ ":" +:+ kinds_str in
  String.substring 0 16 (Hashlib.sha1_hexdigest (Hashlib.encode raw)).

Definition _cache_path (host : option string) (scope : string)
    (kinds : list string) : io path :=
  let* _ := mkdir_parents _CACHE_DIR in
  ret ((_cache_key host scope kinds +:+ ".json") :: _CACHE_DIR).

(** *** Public cache API *)

Record CacheEntry : Type := {
  targets : value;
  timestamp : value;
}.

(** [now] is the value of the call of [time.time()]. *)
Definition load_cache (now : Q) (host : option string) (scope : string)
    (kinds : list string) (ttl_seconds : Z) : io (option CacheEntry) :=
  if (ttl_seconds <=? 0)%Z then ret None
  else
    let* path := _cache_path host scope kinds in
    let* present := exists_ path in
    if negb present then ret None
    else
      try_except
        (let* text := read_text path in
         let* data := lift (loads text) in
         let* version := lift (get data "version") in
         if ne_int version _CACHE_VERSION then ret None
         else
           let* stamp := lift (subscript data "timestamp") in
           let* age := lift (rsub now stamp) in
           if negb (Qle_bool age (inject_Z ttl_seconds)) then ret None
           else
             let* tgts := lift (subscript data "targets") in
             let* stamp' := lift (subscript data "timestamp") in
             ret (Some {| targets := tgts; timestamp := stamp' |}))
        (ret None).

Definition save_cache (now : Q) (host : option string) (scope : string)
    (kinds : list string) (tgts : value) : io unit :=
  let* path := _cache_path host scope kinds in
  try_except
    (write_text path
       (dumps (PDict [("version", PNum (inject_Z _CACHE_VERSION));
                      ("host", PStr (or_local host));
                      ("scope", PStr scope);
                      ("kinds", PList (map PStr kinds));
                      ("timestamp", PNum now);
                      ("targets", tgts)])))
    (ret tt).   (* cache write failure is non-fatal *)

Definition bust_cache (host : option string) (scope : string)
    (kinds : list string) : io unit :=
  let* path := _cache_path host scope kinds in
  unlink_missing_ok path.

(** *** Query runners *)

(** What [subprocess.run(cmd, capture_output=True, text=True)] returns when
    it returns. The call itself is a function [run] to [outcome completed]:
    it raises when the program cannot be started ([FileNotFoundError]) or
    its output cannot be decoded. *)
Record completed : Type := {
  returncode : Z;
  stdout : string;
  stderr : string;
}.

(** The argument vector that [query_local] runs. *)
Definition query_local_cmd (scope : string) (kinds : list string)
  : outcome (list string) :=
  let! kind_expr :=
    if (1 <? length kinds)%nat then Returns (join "|" kinds)
    else getitem kinds 0 in
  Returns ["bazel"; "query"; "kind('" +:+ kind_expr +:+ "', " +:+ scope +:+ ")"].

(** [a or b] on [str] *)
Definition str_or (a b : string) : string :=
  if String.eqb a EmptyString then b else a.

Definition query_local (run : list string -> outcome completed)
    (scope : string) (kinds : list string) : outcome string :=
  let! cmd := query_local_cmd scope kinds in
  let! result := run cmd in
  if negb (returncode result =? 0)%Z
  then Raises (RuntimeError (str_or (strip (stderr result)) "bazel query failed"))
  else Returns (stdout result).

Definition query_ssh (run : list string -> outcome completed)
    (ssh_config : Ssh.SSHConfig) (scope : string) (kinds : list string)
  : outcome string :=
  let! cmd := Ssh.build_query_cmd ssh_config scope kinds in
  let! result := run cmd in
  if negb (returncode result =? 0)%Z
  then Raises (RuntimeError
                 (str_or (strip (stderr result)) "remote bazel query failed"))
  else Returns (stdout result).

(** *** Parser *)

(** The body of the loop of [parse_query_output]. *)
Definition parse_line (tgts : dict (list string)) (line0 : string)
  : outcome (dict (list string)) :=
  let line := strip line0 in
  if String.eqb line EmptyString || negb (startswith "//" line)
  then Returns tgts
  else if negb (contains ":" line) then Returns tgts
  else
    let! (module, rule) := unpack2 (rsplit1 ":" line) in
    Returns (dict_append tgts module rule).

Definition parse_query_output (output : string)
  : outcome (dict (list string)) :=
  let! tgts := for_each parse_line (splitlines output) [] in
  Returns (dict_comprehension (sorted str_lt) (sorted item_lt tgts)).

(** *** Age of an entry *)

(** [CacheEntry.age_seconds]; [now] is the value of [time.time()]. *)
Definition age_seconds (now : Q) (self : CacheEntry) : outcome Q :=
  rsub now (timestamp self).

(** The text of [CacheEntry.age_str] for [s = int(self.age_seconds)]. *)
Definition age_text (s : Z) : string :=
  if (s <? 60)%Z then str_of_int s +:+ "s ago"
  else if (s <? 3600)%Z then str_of_int (s / 60) +:+ "m ago"
  else if (s <? 86400)%Z then
    str_of_int (s / 3600) +:+ "h " +:+ str_of_int ((s mod 3600) / 60) +:+ "m ago"
  else
    let days := (s / 86400)%Z in
    if (days <? 7)%Z then str_of_int days +:+ "d ago"
    else str_of_int (days / 7) +:+ "w " +:+ str_of_int (days mod 7) +:+ "d ago".

Definition age_str (now : Q) (self : CacheEntry) : outcome string :=
  let! age := age_seconds now self in
  Returns (age_text (int_of_float age)).

(** *** Kind enumeration *)

(** The loop of [query_all_kinds_local] and of [query_all_kinds_ssh]:
    [for line in out.splitlines(): if " " in line: kinds.add(...)]. *)
Definition add_kind (kinds : gset string) (line : string)
  : outcome (gset string) :=
  if contains " " line then
    let! kind := getitem (split_on " " line) 0 in
    Returns ({[kind]} ∪ kinds)
  else Returns kinds.

(** [sorted(list(kinds))] for a [set] of [str]. *)
Definition sorted_set (kinds : gset string) : list string :=
  sorted str_lt (elements kinds).

Definition query_all_kinds_local (run : list string -> outcome completed)
    (scope : string) : outcome (list string) :=
  let cmd := ["bazel"; "query"; scope; "--output"; "label_kind"] in
  let! result := run cmd in
  if negb (returncode result =? 0)%Z then Returns []
  else
    let! kinds := for_each add_kind (splitlines (stdout result)) ∅ in
    Returns (sorted_set kinds).

Definition query_all_kinds_ssh (run : list string -> outcome completed)
    (ssh_config : Ssh.SSHConfig) (scope : string) : outcome (list string) :=
  let cmd := Ssh.build_all_kinds_query_cmd ssh_config scope in
  let! result := run cmd in
  if negb (returncode result =? 0)%Z then Returns []
  else
    let! kinds := for_each add_kind (splitlines (stdout result)) ∅ in
    Returns (sorted_set kinds).

End Bazel.

(** ** [bzl/widgets/fuzzy_list.py] *)

Module FuzzyList.
Import Py.
Local Open Scope outcome_scope.
Local Open Scope Z_scope.

Definition fuzzy_filter (query : string) (items : list string) : list string :=
  if String.eqb (strip query) EmptyString then items
  else
    let tokens := split (lower query) in
    filter (fun item => forallb (fun t => contains t (lower item)) tokens)
           items.

(** The state of the widget. The lists handed to it are never mutated by
    the package, so sharing them is not observable. *)
Record FuzzyList : Type := {
  _all_items : list string;
  _fmt : string -> string;
  _filter : string;
  _cursor : Z;
  _filtered : list string;
}.

Definition __init__ (items : list string) (fmt_item : option (string -> string))
  : FuzzyList :=
  {| _all_items := items;
     _fmt := default (fun item => item) fmt_item;
     _filter := EmptyString;
     _cursor := 0;
     _filtered := items |}.

Definition set_filter (self : FuzzyList) (query : string) : FuzzyList :=
  {| _all_items := _all_items self;
     _fmt := _fmt self;
     _filter := query;
     _cursor := 0;
     _filtered := fuzzy_filter query (_all_items self) |}.

Definition with_cursor (self : FuzzyList) (c : Z) : FuzzyList :=
  {| _all_items := _all_items self;
     _fmt := _fmt self;
     _filter := _filter self;
     _cursor := c;
     _filtered := _filtered self |}.

Definition move_up (self : FuzzyList) : FuzzyList :=
  if 0 <? _cursor self then with_cursor self (_cursor self - 1) else self.

Definition move_down (self : FuzzyList) : FuzzyList :=
  if _cursor self <? Z.of_nat (length (_filtered self)) - 1
  then with_cursor self (_cursor self + 1) else self.

Definition update_items (self : FuzzyList) (items : list string) : FuzzyList :=
  {| _all_items := items;
     _fmt := _fmt self;
     _filter := _filter self;
     _cursor := 0;
     _filtered := fuzzy_filter (_filter self) items |}.

(** [confirm]: the item of the [Selected] message it posts, if any. *)
Definition confirm (self : FuzzyList) : outcome (option string) :=
  match _filtered self with
  | [] => Returns None
  | _ =>
      let! item := getitem (_filtered self) (_cursor self) in
      Returns (Some item)
  end.

Definition selected_item (self : FuzzyList) : outcome (option string) :=
  match _filtered self with
  | [] => Returns None
  | _ =>
      if (0 <=? _cursor self)
         && (_cursor self <? Z.of_nat (length (_filtered self)))
      then
        let! item := getitem (_filtered self) (_cursor self) in
        Returns (Some item)
      else Returns None
  end.

Definition count (self : FuzzyList) : Z := Z.of_nat (length (_filtered self)).
Definition total_count (self : FuzzyList) : Z :=
  Z.of_nat (length (_all_items self)).

(** One [append] to the [Text] that [render] builds. *)
Inductive row : Type :=
  | NoMatches                                   (* the dim "(no matches)" line *)
  | Item (index : Z) (selected : bool) (label : string)
  | Padding.                                    (* an empty line *)

(** The bounds [start, end) of the virtual scroll of [render]. *)
Definition window (height cursor : Z) (n : Z) : Z * Z :=
  let half := height / 2 in
  let start := Z.max 0 (cursor - half) in
  let end_ := Z.min n (start + height) in
  let start := if end_ - start <? height then Z.max 0 (end_ - height) else start in
  (start, end_).

(** [size_height] is the value of [self.size.height]. *)
Definition render (self : FuzzyList) (size_height : Z) : outcome (list row) :=
  let height := Z.max 1 size_height in
  let items := _filtered self in
  match items with
  | [] => Returns [NoMatches]
  | _ =>
      let '(start, end_) := window height (_cursor self) (Z.of_nat (length items)) in
      let! t :=
        for_each
          (fun t i =>
             let! item := getitem items i in
             let label := _fmt self item in
             Returns (t ++ [Item i (i =? _cursor self) label]))
          (range start end_) [] in
      Returns (t ++ map (fun _ => Padding) (range 0 (height - (end_ - start))))
  end.

End FuzzyList.

(** ** [bzl/screens/base_screen.py] *)

Module BaseScreen.
Import Py.
Local Open Scope outcome_scope.

(** A key event: the name of the key and the character it types, if any. *)
Record key_event : Type := {
  key : string;
  character : option string;
}.

(** The screen's filter text and the list widget it drives. *)
Record BaseBzlScreen : Type := {
  _filter : string;
  fuzzy_list : FuzzyList.FuzzyList;
}.

Definition on_key (self : BaseBzlScreen) (event : key_event) : BaseBzlScreen :=
  if String.eqb (key event) "backspace" then
    let text := drop_last (_filter self) in
    {| _filter := text;
       fuzzy_list := FuzzyList.set_filter (fuzzy_list self) text |}
  else
    match character event with
    | Some ch =>
        if negb (String.eqb ch EmptyString) && isprintable ch then
          let text := _filter self +:+ ch in
          {| _filter := text;
             fuzzy_list := FuzzyList.set_filter (fuzzy_list self) text |}
        else self
    | None => self
    end.

Definition action_cursor_up (self : BaseBzlScreen) : BaseBzlScreen :=
  {| _filter := _filter self;
     fuzzy_list := FuzzyList.move_up (fuzzy_list self) |}.

Definition action_cursor_down (self : BaseBzlScreen) : BaseBzlScreen :=
  {| _filter := _filter self;
     fuzzy_list := FuzzyList.move_down (fuzzy_list self) |}.

(** The [on_done] step of [action_refresh_query], with the new items. *)
Definition on_done (self : BaseBzlScreen) (items : list string) : BaseBzlScreen :=
  let fl := FuzzyList.update_items (fuzzy_list self) items in
  {| _filter := EmptyString;
     fuzzy_list := FuzzyList.set_filter fl EmptyString |}.

(** [action_toggle_verb]: the next value of [app.verb]. *)
Definition action_toggle_verb (verb : string) : outcome string :=
  let verbs := ["build"; "run"; "test"] in
  let nxt :=
    match index verb verbs with
    | Returns i => (i + 1)%Z
    | Raises _ => 0%Z          (* except ValueError *)
    end in
  getitem verbs (nxt mod Z.of_nat (length verbs)).

End BaseScreen.

(** ** [bzl/screens/module_screen.py] *)

Module ModuleScreen.
Import Py.
Local Open Scope outcome_scope.

(** The items of the list: [list(self.app.targets.keys())]. *)
Definition items (targets : dict (list string)) : list string := targets.*1.

(** [action_confirm]: the module of the screen that is pushed, if one is. *)
Definition action_confirm (self : BaseScreen.BaseBzlScreen)
  : outcome (option string) :=
  let! item := FuzzyList.selected_item (BaseScreen.fuzzy_list self) in
  match item with
  | Some m => if String.eqb m EmptyString then Returns None else Returns (Some m)
  | None => Returns None
  end.

End ModuleScreen.

(** ** [bzl/screens/genrule_screen.py] *)

Module GenruleScreen.
Import Py.
Local Open Scope outcome_scope.

(** The items of the list: [self.app.targets.get(self._module, [])]. *)
Definition rules (targets : dict (list string)) (module : string)
  : list string :=
  default [] (dict_get targets module).

(** [action_confirm]: the pair that the application exits with, if it
    does; [verb] is [self.app.verb]. *)
Definition action_confirm (module verb : string)
    (self : BaseScreen.BaseBzlScreen) : outcome (option (string * string)) :=
  let! rule := FuzzyList.selected_item (BaseScreen.fuzzy_list self) in
  match rule with
  | Some r =>
      if String.eqb r EmptyString then Returns None
      else Returns (Some (module +:+ ":" +:+ r, verb))
  | None => Returns None
  end.

End GenruleScreen.

(** ** [bzl/app.py] *)

Module App.
Import Py Json Pathlib Bazel.
Local Open Scope io_scope.




End App.

(** ** [bzl/__main__.py] *)

Module Main.
Import Py Json Pathlib Bazel.
Local Open Scope io_scope.

Definition _DEFAULT_TTL_MINUTES : Z := 20160.

(** The parsed arguments that the discovery reads. *)
Record arguments : Type := {
  ssh : option string;
  ssh_dir : option string;
  scope : string;
  cache_ttl : Z;
  no_cache : bool;
}.

(** [[k.strip() for k in rc_kinds if k.strip()]] *)
Definition parse_kinds (rc_kinds : string) : list string :=
  strip <$> filter (fun k => negb (String.eqb (strip k) EmptyString))
                   (split_on "," rc_kinds).

(** The [SSHConfig] of the run, if [--ssh] names a host. *)
Definition ssh_config_of (cwd : string) (args : arguments)
  : option Ssh.SSHConfig :=
  match ssh args with
  | Some h =>
      if String.eqb h EmptyString then None
      else Some (Ssh.from_args cwd h (ssh_dir args))
  | None => None
  end.

Definition ttl_seconds_of (args : arguments) : Z :=
  if no_cache args then 0 else cache_ttl args * 60.

(** How the discovery of [main] ends. *)
Inductive discovery : Type :=
  | FromCache (tgts : value) (age : string)  (* "Using cached results (age)" *)
  | FromQuery (tgts : dict (list string))
  | QueryFailed (e : exn)               (* "Bazel query failed", exit 1 *)
  | NoTargets.                          (* "No targets found.", exit 1 *)

(** [main] from the SSH configuration to the launch of the TUI. [rc_kinds]
    is [rc.get("kinds", "genrule")], [cwd] is [os.getcwd()], [run] is
    [subprocess.run], [now] is the value of [time.time()] at the read of the
    cache and [later] its value at the second call: in [age_str] after a
    hit, in [save_cache] after a query. *)
Definition discover (run : list string -> outcome completed) (now later : Q)
    (cwd : string) (rc_kinds : string) (args : arguments) : io discovery :=
  let cfg := ssh_config_of cwd args in
  let host_key := Ssh.host <$> cfg in
  let ttl_seconds := ttl_seconds_of args in
  let kinds := parse_kinds rc_kinds in
  let* cached := load_cache now host_key (scope args) kinds ttl_seconds in
  match cached with
  | Some entry =>
      let* age := lift (age_str later entry) in
      ret (FromCache (targets entry) age)
  | None =>
      let queried :=
        match cfg with
        | Some c => query_ssh run c (scope args) kinds
        | None => query_local run (scope args) kinds
        end in
      match queried with
      | Raises e => ret (QueryFailed e)
      | Returns output =>
          match parse_query_output output with
          | Raises e => raise e
          | Returns [] => ret NoTargets
          | Returns tgts =>
              let* _ := save_cache later host_key (scope args) kinds
                          (of_index tgts) in
              ret (FromQuery tgts)
          end
      end
  end.

(** The argument vector that [main] hands to [os.execvp]. *)
Definition exec_args (cfg : option Ssh.SSHConfig) (target : option string)
    (verb : string) : list string :=
  let no_target :=
    match target with
    | Some t => String.eqb t EmptyString
    | None => true
    end in
  match cfg with
  | Some c => Ssh.build_exec_args c (if no_target then None else target) verb
  | None =>
      if no_target then "bazel" :: split verb
      else ["bazel"; verb; default EmptyString target]
  end.

End Main.

(** * Vocabulary of the properties *)

(** ** Order on strings *)

Definition lexical_lt (a b : string) : Prop := Py.str_lt a b = true.
Definition lexical_le (a b : string) : Prop := Py.str_lt b a = false.

(** ** Parser *)

(** A line is significant when it is non-empty, begins with [//] and
    contains [:]. *)
Definition significant (line : string) : bool :=
  negb (String.eqb line EmptyString)
  && Py.startswith "//" line && Py.contains ":" line.

(** The significant lines of a text, trimmed, in their order. *)
Definition kept_lines (text : string) : list string :=
  filter (fun l => significant l = true) (Py.strip <$> Py.splitlines text).

(** [line] is [ns], then [:], then [it], and that [:] is the last of [line]. *)
Definition cut_at_last_colon (line ns it : string) : Prop :=
  line = ns +:+ ":" +:+ it ∧ Py.contains ":" it = false.

(** The (namespace, item) pair of a line; the whole line when it has no [:]. *)
Definition cut (line : string) : string * string :=
  default (line, EmptyString) (Py.rpartition ":" line).

(** The items paired with namespace [ns], in their order. *)
Definition items_in (ns : string) (pairs : list (string * string)) : list string :=
  snd <$> filter (fun p => p.1 = ns) pairs.

(** The item list of [ns] in an index; empty when [ns] is not a key. *)
Definition items_of (idx : Py.dict (list string)) (ns : string) : list string :=
  default [] (Py.dict_get idx ns).

(** The dictionary that the loop of the parser builds from the pairs. *)
Definition accumulate (pairs : list (string * string))
    (d : Py.dict (list string)) : Py.dict (list string) :=
  fold_left (fun d p => Py.dict_append d p.1 p.2) pairs d.

(** The data-model invariant as the design document words it. *)
Definition no_empty_strings (idx : Py.dict (list string)) : Prop :=
  Forall (fun kv => kv.2 ≠ [] ∧ kv.1 ≠ EmptyString
                    ∧ Forall (fun it => it ≠ EmptyString) kv.2) idx.

(** Every item list sorted and without repetition. *)
Definition sorted_without_duplicates (idx : Py.dict (list string)) : Prop :=
  Forall (fun kv => Sorted lexical_le kv.2 ∧ NoDup kv.2) idx.

(** The output of the scenario of the design document. *)
Definition sample_output : string :=
  "//a/b:x" +:+ Py.LF +:+ "//a/b:y" +:+ Py.LF +:+ "# comment" +:+ Py.LF
  +:+ "//c:z" +:+ Py.LF.

(** An output that names one target twice. *)
Definition repeated_output : string :=
  "//a:x" +:+ Py.LF +:+ "//a:x" +:+ Py.LF.

(** An output whose line ends at its separator. *)
Definition bare_output : string := "//a:" +:+ Py.LF.

(** ** Selector *)

(** [item] contains token [t] when case is ignored. *)
Definition ci_contains (item t : string) : bool :=
  Py.contains (Py.lower t) (Py.lower item).

(** A text that is empty or all whitespace. *)
Fixpoint blank (s : string) : bool :=
  match s with
  | EmptyString => true
  | String c r => Py.isspace c && blank r
  end.

(** The bound that the cursor keeps: it is 0 on an empty view. *)
Definition cursor_in_view (self : FuzzyList.FuzzyList) : Prop :=
  (0 ≤ FuzzyList._cursor self)%Z
  ∧ ((FuzzyList._cursor self < Z.of_nat (length (FuzzyList._filtered self)))%Z
     ∨ FuzzyList._cursor self = 0%Z).

(** The row that [render] draws for index [i] of the filtered view. *)
Definition row_at (self : FuzzyList.FuzzyList) (i : Z) : FuzzyList.row :=
  FuzzyList.Item i (i =? FuzzyList._cursor self)%Z
    (FuzzyList._fmt self
       (default EmptyString (FuzzyList._filtered self !! Z.to_nat i))).

Inductive selector_op : Type :=
  | SetFilter (text : string)
  | MoveUp
  | MoveDown
  | SetSource (items : list string).

Definition apply_op (self : FuzzyList.FuzzyList) (op : selector_op)
  : FuzzyList.FuzzyList :=
  match op with
  | SetFilter text => FuzzyList.set_filter self text
  | MoveUp => FuzzyList.move_up self
  | MoveDown => FuzzyList.move_down self
  | SetSource items => FuzzyList.update_items self items
  end.

Definition apply_ops (self : FuzzyList.FuzzyList) (ops : list selector_op)
  : FuzzyList.FuzzyList :=
  fold_left apply_op ops self.

(** ** Cache *)

(** The file that holds the record of (host, scope, kinds). *)
Definition cache_file (host : option string) (scope : string)
    (kinds : list string) : Pathlib.path :=
  (Bazel._cache_key host scope kinds +:+ ".json") :: Bazel._CACHE_DIR.

(** The number that a value counts as in arithmetic, if any. *)
Definition as_number (v : Json.value) : option Q :=
  match v with
  | Json.PNum q => Some q
  | Json.PBool b => Some (if b then 1 else 0)%Q
  | _ => None
  end.

(** A cache record that can be read back: its format version, the time it
    was captured at (as stored, and as a number), and its payload. *)
Record cache_record : Type := {
  format_version : Json.value;
  stamp : Json.value;
  captured_at : Q;
  payload : Json.value;
}.

(** The record that a node of the file tree deserializes to, if any: the
    node is a file, its text is the JSON encoding of an object, and the
    object has a numeric [timestamp] and a [targets] member. *)
Definition deserialize (n : Pathlib.node) : option cache_record :=
  match n with
  | Pathlib.File (Json.Encoded (Json.PDict d)) =>
      match Py.dict_get d "timestamp", Py.dict_get d "targets" with
      | Some ts, Some tg =>
          match as_number ts with
          | Some q =>
              Some {| format_version := default Json.PNone (Py.dict_get d "version");
                      stamp := ts;
                      captured_at := q;
                      payload := tg |}
          | None => None
          end
      | _, _ => None
      end
  | _ => None
  end.



(** The entry that a read at [now] under [ttl] makes of a node. *)
Definition fresh_entry (now : Q) (ttl : Z) (n : option Pathlib.node)
  : option Bazel.CacheEntry :=
  match n with
  | Some n =>
      match deserialize n with
      | Some r =>
          if Json.ne_int (format_version r) Bazel._CACHE_VERSION then None
          else if negb (Qle_bool (now - captured_at r) (inject_Z ttl)) then None
          else Some {| Bazel.targets := payload r; Bazel.timestamp := stamp r |}
      | None => None
      end
  | None => None
  end.

(** The text that a write at [now] stores. *)
Definition cache_text (now : Q) (host : option string) (scope : string)
    (kinds : list string) (tgts : Json.value) : Json.contents :=
  Json.dumps
    (Json.PDict [("version", Json.PNum (inject_Z Bazel._CACHE_VERSION));
                 ("host", Json.PStr (Bazel.or_local host));
                 ("scope", Json.PStr scope);
                 ("kinds", Json.PList (map Json.PStr kinds));
                 ("timestamp", Json.PNum now);
                 ("targets", tgts)]).

(** The cache root exists, or can be created with its parents. *)
Definition root_usable (t : Pathlib.tree) : Prop :=
  (Pathlib.mkdir_parents Bazel._CACHE_DIR t).2 = Returns tt.

(** The file tree once the cache root is in place. *)
Definition with_root (t : Pathlib.tree) : Pathlib.tree :=
  (Pathlib.mkdir_parents Bazel._CACHE_DIR t).1.

(** Reads and invalidations leave a missing cache root missing. *)
Definition root_created_by_writes_only : Prop :=
  ∀ now host scope kinds ttl (t : Pathlib.tree),
    Pathlib.stat t Bazel._CACHE_DIR = None →
    Pathlib.stat (Bazel.load_cache now host scope kinds ttl t).1 Bazel._CACHE_DIR = None
    ∧ Pathlib.stat (Bazel.bust_cache host scope kinds t).1 Bazel._CACHE_DIR = None.

(** ** Times that double arithmetic subtracts exactly *)

(** [q] is [m * 2^-k] for a whole [m] with [0 <= m < 2^53], and [2^-k] is
    in the exponent range of a double: [q] is a finite double. Two such
    times on one grid [k] differ by a whole multiple of [2^-k] of magnitude
    below [2^53 * 2^-k], which is a double again: the subtraction of the
    code, which rounds to the nearest double, is then the exact one, and an
    [int] on the grid converts to [float] unchanged. The values of the
    clock within one binade (as from 2004 to 2038) are on one grid. *)
Definition on_grid (k : Z) (q : Q) : bool :=
  let m := Qred (q * Qpower 2 k) in
  (Zpos (Qden m) =? 1)%Z && (0 <=? Qnum m)%Z && (Qnum m <? 2 ^ 53)%Z
  && (-971 <=? k)%Z && (k <=? 1074)%Z.



(** ** Vocabulary of the further properties *)

(** The text of the last [set_filter] of a sequence of operations, and the
    items of its last [update_items]. *)
Definition last_filter (text : string) (ops : list selector_op) : string :=
  fold_left (fun acc op => match op with SetFilter t => t | _ => acc end)
            ops text.

Definition last_source (items : list string) (ops : list selector_op)
  : list string :=
  fold_left (fun acc op => match op with SetSource i => i | _ => acc end)
            ops items.

(** [item] passes the filter [query]. *)
Definition passes (query item : string) : bool :=
  forallb (ci_contains item) (Py.split query).

(** What happens to a screen: a key, a cursor action, or the end of a
    refresh with new items. *)
Inductive screen_event : Type :=
  | Key (e : BaseScreen.key_event)
  | CursorUp
  | CursorDown
  | Refreshed (items : list string).

Definition screen_step (self : BaseScreen.BaseBzlScreen) (ev : screen_event)
  : BaseScreen.BaseBzlScreen :=
  match ev with
  | Key e => BaseScreen.on_key self e
  | CursorUp => BaseScreen.action_cursor_up self
  | CursorDown => BaseScreen.action_cursor_down self
  | Refreshed items => BaseScreen.on_done self items
  end.

(** A screen as it is mounted, and after a sequence of events. *)
Definition new_screen (items : list string) (fmt : option (string → string))
  : BaseScreen.BaseBzlScreen :=
  {| BaseScreen._filter := EmptyString;
     BaseScreen.fuzzy_list := FuzzyList.__init__ items fmt |}.

Definition screen_after (items : list string) (fmt : option (string → string))
    (evs : list screen_event) : BaseScreen.BaseBzlScreen :=
  fold_left screen_step evs (new_screen items fmt).

(** The filtered view of a screen. *)
Definition view (self : BaseScreen.BaseBzlScreen) : list string :=
  FuzzyList._filtered (BaseScreen.fuzzy_list self).

(** The widget shows the filter of its source by the screen's text. *)
Definition in_sync (self : BaseScreen.BaseBzlScreen) : Prop :=
  FuzzyList._filter (BaseScreen.fuzzy_list self) = BaseScreen._filter self
  ∧ view self
    = FuzzyList.fuzzy_filter (BaseScreen._filter self)
        (FuzzyList._all_items (BaseScreen.fuzzy_list self)).

(** [k] is the text of [line] before its first space. *)
Definition first_field (line k : string) : Prop :=
  Py.contains " " k = false ∧ ∃ rest, line = k +:+ " " +:+ rest.

(** The first field of a line, as [line.split(" ")[0]] computes it. *)
Definition kind_of (line : string) : string :=
  default EmptyString (head (Py.split_on " " line)).

(** What a completed process makes of a query: its output, or the error
    with the trimmed [stderr], or with [fallback] when that is empty. *)
Definition query_result (result : Bazel.completed) (fallback : string)
  : outcome string :=
  if decide (Bazel.returncode result = 0%Z) then Returns (Bazel.stdout result)
  else Raises (RuntimeError
                 (if blank (Bazel.stderr result) then fallback
                  else Py.strip (Bazel.stderr result))).

(** Every character of [s] satisfies [p]. *)
Fixpoint every (p : ascii → bool) (s : string) : bool :=
  match s with
  | EmptyString => true
  | String c r => p c && every p r
  end.

(** The digits [0-9a-f]. *)
Definition is_hex_digit (c : ascii) : bool :=
  Py.between 48 57 (Py.ord c) || Py.between 97 102 (Py.ord c).

(** From [t] to [t'] no node changed; the only new nodes are directories
    at [p] or above it. *)
Definition only_adds_dirs (p : Pathlib.path) (t t' : Pathlib.tree) : Prop :=
  ∀ q : Pathlib.path,
    t' !! q = t !! q
    ∨ (t !! q = None ∧ t' !! q = Some Pathlib.Dir
       ∧ q `suffix_of` p ∧ q ≠ []).

(** A kind as the configuration holds it: not empty, without blanks around
    it and without a comma. *)
Definition kind_name (k : string) : Prop :=
  k ≠ EmptyString ∧ Py.strip k = k ∧ Py.contains "," k = false.

(** The host part of the cache key of a run: the host of [--ssh], if any. *)
Definition host_key (cwd : string) (args : Main.arguments) : option string :=
  Ssh.host <$> Main.ssh_config_of cwd args.

(** The query of a run: over SSH when a configuration is given. *)
Definition run_query (run : list string → outcome Bazel.completed)
    (cfg : option Ssh.SSHConfig) (scope : string) (kinds : list string)
  : outcome string :=
  match cfg with
  | Some c => Bazel.query_ssh run c scope kinds
  | None => Bazel.query_local run scope kinds
  end.

(** The file that holds the record of a run of [main]. *)
Definition record_of (cwd rc_kinds : string) (args : Main.arguments)
  : Pathlib.path :=
  cache_file (host_key cwd args) (Main.scope args) (Main.parse_kinds rc_kinds).


(** * Properties *)

(** ** The embedding on known values *)

Example sha1_abc :
  Hashlib.sha1_hexdigest (Hashlib.encode "abc")
  = "a9993e364706816aba3e25717850c26c9cd0d89d".
Proof. by vm_compute. Qed.

Example sha1_empty :
  Hashlib.sha1_hexdigest (Hashlib.encode EmptyString)
  = "da39a3ee5e6b4b0d3255bfef95601890afd80709".
Proof. by vm_compute. Qed.

Example sha1_two_blocks :
  Hashlib.sha1_hexdigest
    (Hashlib.encode "abcdbcdecdefdefgefghfghighijhijkijkljklmklmnlmnomnopnopq")
  = "84983e441c3bd26ebaae4aa1f95129e5e54670f1".
Proof. by vm_compute. Qed.

Example cache_key_local :
  Bazel._cache_key None "//..." ["genrule"] = "22cc1f85a8676c75".
Proof. by vm_compute. Qed.

Example cache_key_sorts_kinds :
  Bazel._cache_key (Some "user@host") "//..." ["sh_binary"; "genrule"]
  = Bazel._cache_key (Some "user@host") "//..." ["genrule"; "sh_binary"].
Proof. by vm_compute. Qed.

Example splitlines_crlf :
  Py.splitlines ("a" +:+ String "013" Py.LF +:+ Py.LF +:+ "b" +:+ Py.LF)
  = ["a"; EmptyString; "b"].
Proof. by vm_compute. Qed.

Example split_tokens : Py.split "  alpha  Beta " = ["alpha"; "Beta"].
Proof. by vm_compute. Qed.

Example rsplit1_last : Py.rsplit1 ":" "//a:b:c" = ["//a:b"; "c"].
Proof. by vm_compute. Qed.

Example quote_space : Shlex.quote "/home/user/my repo" = "'/home/user/my repo'".
Proof. by vm_compute. Qed.

Example quote_safe : Shlex.quote "/home/user/my-repo" = "/home/user/my-repo".
Proof. by vm_compute. Qed.

(** The selector scenario of the design document. *)
Example selector_scenario :
  let w := FuzzyList.set_filter
             (FuzzyList.__init__ ["alpha_target"; "beta_target"; "alpha_other"] None)
             "alpha" in
  FuzzyList._filtered w = ["alpha_target"; "alpha_other"]
  ∧ FuzzyList._cursor w = 0%Z
  ∧ FuzzyList._cursor (FuzzyList.move_down w) = 1%Z
  ∧ FuzzyList._cursor (FuzzyList.move_down (FuzzyList.move_down w)) = 1%Z.
Proof. by vm_compute. Qed.

Example render_centres_cursor :
  FuzzyList.render
    (FuzzyList.with_cursor
       (FuzzyList.__init__ ["a"; "b"; "c"; "d"; "e"; "f"; "g"] None) 3) 4
  = Returns [FuzzyList.Item 1 false "b"; FuzzyList.Item 2 false "c";
             FuzzyList.Item 3 true "d"; FuzzyList.Item 4 false "e"].
Proof. by vm_compute. Qed.

(** ** Strings and their order *)

Section strings.
Import Py.

Lemma ascii_compare_lt_trans a b c :
  Ascii.compare a b = Lt → Ascii.compare b c = Lt → Ascii.compare a c = Lt.
Proof.
  unfold Ascii.compare. rewrite !N.compare_lt_iff. lia.
Qed.

Lemma ascii_compare_eq a b : Ascii.compare a b = Eq ↔ a = b.
Proof.
  split; [apply Ascii.compare_eq_iff|].
  intros ->. unfold Ascii.compare. apply N.compare_refl.
Qed.

Lemma string_compare_lt_trans a : ∀ b c,
  String.compare a b = Lt → String.compare b c = Lt → String.compare a c = Lt.
Proof.
  induction a as [|x a IH]; intros [|y b] [|z c]; simpl; try done.
  destruct (Ascii.compare x y) eqn:Hxy; try done.
  - apply ascii_compare_eq in Hxy as ->.
    destruct (Ascii.compare y z); try done. apply IH.
  - destruct (Ascii.compare y z) eqn:Hyz; try done.
    + apply ascii_compare_eq in Hyz as <-. by rewrite Hxy.
    + by rewrite (ascii_compare_lt_trans _ _ _ Hxy Hyz).
Qed.

Lemma str_lt_trans a b c : lexical_lt a b → lexical_lt b c → lexical_lt a c.
Proof.
  unfold lexical_lt, str_lt, String.ltb. intros Hab Hbc.
  destruct (String.compare a b) eqn:E1; try done.
  destruct (String.compare b c) eqn:E2; try done.
  by rewrite (string_compare_lt_trans _ _ _ E1 E2).
Qed.

Lemma str_lt_asym a b : str_lt a b = true → str_lt b a = false.
Proof.
  unfold str_lt, String.ltb. rewrite (String.compare_antisym a b).
  by destruct (String.compare b a).
Qed.

Lemma str_lt_total a b : a ≠ b → str_lt b a = false → str_lt a b = true.
Proof.
  unfold str_lt, String.ltb. intros Hne. rewrite (String.compare_antisym a b).
  destruct (String.compare b a) eqn:E; try done.
  by apply String.compare_eq_iff in E.
Qed.

Lemma list_lt_asym a : ∀ b, list_lt a b = true → list_lt b a = false.
Proof.
  induction a as [|x a IH]; intros [|y b]; simpl; try done.
  rewrite (String.eqb_sym y x). destruct (String.eqb x y); [apply IH|].
  apply str_lt_asym.
Qed.

Lemma item_lt_asym a b : item_lt a b = true → item_lt b a = false.
Proof.
  unfold item_lt. rewrite (String.eqb_sym b.1 a.1).
  destruct (String.eqb a.1 b.1); [apply list_lt_asym | apply str_lt_asym].
Qed.

End strings.

(** ** [sorted] *)

Section sorting.
Import Py.
Context {A : Type} (lt : A → A → bool).
Hypothesis lt_asym : ∀ a b, lt a b = true → lt b a = false.

Lemma insort_perm x l : insort lt x l ≡ₚ x :: l.
Proof.
  induction l as [|y l IH]; simpl; [done|].
  destruct (lt y x); [|done]. by rewrite IH, Permutation_swap.
Qed.

Lemma sorted_perm l : sorted lt l ≡ₚ l.
Proof.
  induction l as [|x l IH]; simpl; [done|].
  by rewrite insort_perm, IH.
Qed.

(** [sorted] puts [a] before [b] only if [not (b < a)]. *)
Lemma insort_hd x y l :
  lt x y = false →
  HdRel (fun a b => lt b a = false) y l →
  HdRel (fun a b => lt b a = false) y (insort lt x l).
Proof.
  intros Hyx Hl. destruct l as [|z l]; simpl; [by constructor|].
  inversion_clear Hl. destruct (lt z x); by constructor.
Qed.

Lemma insort_Sorted x l :
  Sorted (fun a b => lt b a = false) l →
  Sorted (fun a b => lt b a = false) (insort lt x l).
Proof using lt_asym.
  induction 1 as [|y l Hl IH Hy]; simpl; [by repeat constructor|].
  destruct (lt y x) eqn:E.
  - constructor; [done|]. apply insort_hd; [by apply lt_asym | done].
  - constructor; [by constructor | by constructor].
Qed.

Lemma sorted_Sorted l : Sorted (fun a b => lt b a = false) (sorted lt l).
Proof using lt_asym.
  induction l as [|x l IH]; simpl; [constructor | by apply insort_Sorted].
Qed.

End sorting.

(** ** Dictionaries in insertion order *)

Section dicts.
Import Py.
Context {V : Type}.
Implicit Types (d : dict V) (k : string) (v : V).

Lemma dict_get_None d k : dict_get d k = None ↔ k ∉ d.*1.
Proof.
  induction d as [|[k' v'] d IH]; simpl.
  - split; [intros _; apply not_elem_of_nil | done].
  - rewrite not_elem_of_cons. destruct (String.eqb_spec k' k) as [->|Hne].
    + split; [done | by intros [? _]].
    + rewrite IH. split; [by intros ?; split | by intros [_ ?]].
Qed.

Lemma dict_get_Some d k v : NoDup d.*1 → dict_get d k = Some v ↔ (k, v) ∈ d.
Proof.
  induction d as [|[k' v'] d IH]; simpl; intros Hnd.
  - split; [done | by intros ?%elem_of_nil].
  - apply NoDup_cons in Hnd as [Hk' Hnd]. rewrite elem_of_cons.
    destruct (String.eqb_spec k' k) as [->|Hne].
    + split; [intros [= ->]; by left|].
      intros [[= ->]|Hin]; [done|]. destruct Hk'.
      apply list_elem_of_fmap. by exists (k, v).
    + rewrite (IH Hnd). split; [by right|]. by intros [[= -> ->]|?].
Qed.

Lemma dict_set_fresh d k v : k ∉ d.*1 → dict_set d k v = d ++ [(k, v)].
Proof.
  induction d as [|[k' v'] d IH]; simpl; [done|].
  rewrite not_elem_of_cons. intros [Hne Hk].
  destruct (String.eqb_spec k' k) as [->|_]; [done|]. by rewrite IH.
Qed.

Lemma dict_set_keys_in d k v : k ∈ d.*1 → (dict_set d k v).*1 = d.*1.
Proof.
  induction d as [|[k' v'] d IH]; simpl; [by intros ?%elem_of_nil|].
  intros Hin. destruct (String.eqb_spec k' k) as [->|Hne]; simpl; [done|].
  f_equal. apply IH. by apply elem_of_cons in Hin as [->|?].
Qed.

Lemma dict_set_NoDup d k v : NoDup d.*1 → NoDup (dict_set d k v).*1.
Proof.
  intros Hnd. destruct (decide (k ∈ d.*1)) as [Hin|Hin].
  - by rewrite dict_set_keys_in.
  - rewrite dict_set_fresh, fmap_app by done.
    apply NoDup_app. split_and!; [done | | apply NoDup_singleton].
    by intros x Hx ->%list_elem_of_singleton.
Qed.

Lemma dict_set_elem_of_keys d k v k' :
  k' ∈ (dict_set d k v).*1 ↔ k' = k ∨ k' ∈ d.*1.
Proof.
  destruct (decide (k ∈ d.*1)) as [Hin|Hin].
  - rewrite dict_set_keys_in by done. split; [by right|]. by intros [->|?].
  - rewrite dict_set_fresh, fmap_app, elem_of_app by done. simpl.
    rewrite list_elem_of_singleton. tauto.
Qed.

Lemma dict_get_set_eq d k v : dict_get (dict_set d k v) k = Some v.
Proof.
  induction d as [|[k0 v0] d IH]; simpl.
  - by rewrite String.eqb_refl.
  - destruct (String.eqb_spec k0 k) as [->|Hne]; simpl.
    + by rewrite String.eqb_refl.
    + destruct (String.eqb_spec k0 k); [done | apply IH].
Qed.

Lemma dict_get_set_ne d k v k' :
  k ≠ k' → dict_get (dict_set d k v) k' = dict_get d k'.
Proof.
  intros Hkk. induction d as [|[k0 v0] d IH]; simpl.
  - by destruct (String.eqb_spec k k').
  - destruct (String.eqb_spec k0 k) as [->|Hne]; simpl.
    + by destruct (String.eqb_spec k k').
    + by rewrite IH.
Qed.

Lemma dict_get_perm d d' k : NoDup d.*1 → d ≡ₚ d' → dict_get d k = dict_get d' k.
Proof.
  intros Hnd Hp. assert (NoDup d'.*1) as Hnd' by by rewrite <-Hp.
  destruct (dict_get d k) as [v|] eqn:E.
  - symmetry. apply dict_get_Some; [done|]. rewrite <-Hp.
    by apply dict_get_Some.
  - symmetry. apply dict_get_None. rewrite <-Hp. by apply dict_get_None.
Qed.

End dicts.

Section dict_maps.
Import Py.
Context {V W : Type} (f : V → W).

Lemma dict_get_fmap (d : dict V) k :
  dict_get (prod_map id f <$> d) k = f <$> dict_get d k.
Proof.
  induction d as [|[k' v'] d IH]; simpl; [done|].
  by destruct (String.eqb k' k).
Qed.

Lemma dict_comprehension_fold (items : list (string * V)) (d : dict W) :
  NoDup (d.*1 ++ items.*1) →
  fold_left (fun d kv => dict_set d kv.1 (f kv.2)) items d
  = d ++ (prod_map id f <$> items).
Proof.
  revert d. induction items as [|[k v] items IH]; intros d Hnd; simpl.
  - by rewrite app_nil_r.
  - simpl in Hnd. rewrite dict_set_fresh.
    + rewrite IH; [by rewrite <-app_assoc|].
      rewrite fmap_app. simpl. by rewrite <-app_assoc.
    + apply NoDup_app in Hnd as (_ & Hd & _). intros Hk.
      apply (Hd k Hk). by left.
Qed.

Lemma dict_comprehension_NoDup (items : list (string * V)) :
  NoDup items.*1 → dict_comprehension f items = prod_map id f <$> items.
Proof. intros Hnd. unfold dict_comprehension. by rewrite dict_comprehension_fold. Qed.

End dict_maps.

(** ** The output parser *)

Section parser.
Import Py Bazel.

Lemma prefix_empty s : String.prefix EmptyString s = true.
Proof. by destruct s. Qed.

Lemma prefix_char c x r :
  String.prefix (String c EmptyString) (String x r) = bool_decide (c = x).
Proof.
  simpl. destruct (ascii_dec c x) as [->|Hne].
  - by rewrite prefix_empty, bool_decide_true.
  - by rewrite bool_decide_false.
Qed.

Lemma rpartition_None c s :
  rpartition c s = None ↔ contains (String c EmptyString) s = false.
Proof.
  induction s as [|x r IH]; [done|].
  cbn [rpartition contains]. rewrite prefix_char, orb_false_iff, <-IH.
  destruct (rpartition c r) as [[a b]|].
  - split; [done | by intros [_ ?]].
  - destruct (Ascii.eqb_spec x c) as [->|Hne].
    + rewrite bool_decide_true by done. split; [done | by intros [? _]].
    + rewrite bool_decide_false by done. done.
Qed.

Lemma rpartition_Some c s : ∀ a b,
  rpartition c s = Some (a, b) →
  s = a +:+ String c b ∧ contains (String c EmptyString) b = false.
Proof.
  induction s as [|x r IH]; intros a b; [done|]. cbn [rpartition].
  destruct (rpartition c r) as [[a' b']|] eqn:E.
  - intros [= <- <-]. destruct (IH _ _ eq_refl) as [-> Hb]. done.
  - destruct (Ascii.eqb_spec x c) as [->|Hne]; [|done].
    intros [= <- <-]. split; [done|]. by apply rpartition_None.
Qed.

Lemma significant_cut line :
  significant line = true →
  rpartition ":" line = Some (cut line)
  ∧ cut_at_last_colon line (cut line).1 (cut line).2.
Proof.
  unfold significant, cut. rewrite !andb_true_iff. intros [_ Hc].
  destruct (rpartition ":" line) as [[a b]|] eqn:E.
  - split; [done|]. by apply rpartition_Some.
  - apply rpartition_None in E. congruence.
Qed.

Lemma parse_line_eq d line :
  parse_line d line =
  Returns (if significant (strip line)
           then dict_append d (cut (strip line)).1 (cut (strip line)).2
           else d).
Proof.
  unfold parse_line. destruct (significant (strip line)) eqn:Hs.
  - destruct (significant_cut _ Hs) as [Hr _].
    unfold significant in Hs. rewrite !andb_true_iff, negb_true_iff in Hs.
    destruct Hs as [[-> ->] ->]. simpl. unfold rsplit1. rewrite Hr.
    by destruct (cut (strip line)).
  - unfold significant in Hs.
    destruct (String.eqb (strip line) EmptyString); [done|].
    destruct (startswith "//" (strip line)); [|done].
    simpl in *. by rewrite Hs.
Qed.

Lemma for_each_parse_line lines : ∀ d,
  for_each parse_line lines d =
  Returns (accumulate
             (cut <$> filter (fun l => significant l = true) (strip <$> lines)) d).
Proof.
  induction lines as [|l lines IH]; intros d; [done|].
  cbn [for_each]. rewrite parse_line_eq, IH. rewrite fmap_cons, filter_cons.
  destruct (significant (strip l)) eqn:E.
  - by rewrite decide_True.
  - by rewrite decide_False by done.
Qed.

Lemma dict_append_NoDup (d : dict (list string)) k v :
  NoDup d.*1 → NoDup (dict_append d k v).*1.
Proof. unfold dict_append. destruct (dict_get d k); apply dict_set_NoDup. Qed.

Lemma dict_append_keys (d : dict (list string)) k v k' :
  k' ∈ (dict_append d k v).*1 ↔ k' = k ∨ k' ∈ d.*1.
Proof. unfold dict_append. destruct (dict_get d k); apply dict_set_elem_of_keys. Qed.

Lemma items_of_dict_append (d : dict (list string)) k v k' :
  items_of (dict_append d k v) k' =
  items_of d k' ++ (if decide (k = k') then [v] else []).
Proof.
  unfold items_of, dict_append. case_decide as Hk.
  - subst k'. destruct (dict_get d k) eqn:E; by rewrite dict_get_set_eq.
  - rewrite app_nil_r.
    destruct (dict_get d k); by rewrite dict_get_set_ne.
Qed.

Lemma accumulate_NoDup pairs : ∀ d, NoDup d.*1 → NoDup (accumulate pairs d).*1.
Proof.
  induction pairs as [|p pairs IH]; intros d Hd; [done|].
  apply IH. by apply dict_append_NoDup.
Qed.

Lemma accumulate_keys pairs : ∀ d k,
  k ∈ (accumulate pairs d).*1 ↔ k ∈ d.*1 ∨ k ∈ pairs.*1.
Proof.
  induction pairs as [|p pairs IH]; intros d k; simpl.
  - split; [by left | by intros [?|?%elem_of_nil]].
  - unfold accumulate in *. simpl. rewrite IH, dict_append_keys, elem_of_cons.
    tauto.
Qed.

Lemma accumulate_items pairs : ∀ d k,
  items_of (accumulate pairs d) k = items_of d k ++ items_in k pairs.
Proof.
  induction pairs as [|p pairs IH]; intros d k.
  - by rewrite app_nil_r.
  - unfold accumulate in *. cbn [fold_left]. rewrite IH, items_of_dict_append.
    rewrite <-app_assoc. f_equal. unfold items_in. rewrite filter_cons.
    by case_decide.
Qed.

(** The parser never raises, and its result is the sorted accumulation. *)
Lemma parse_query_output_eq text :
  parse_query_output text =
  Returns (prod_map id (sorted str_lt)
             <$> sorted item_lt (accumulate (cut <$> kept_lines text) [])).
Proof.
  unfold parse_query_output. rewrite for_each_parse_line. cbn [bind_outcome].
  rewrite dict_comprehension_NoDup; [done|].
  rewrite (sorted_perm item_lt). apply accumulate_NoDup. constructor.
Qed.

End parser.

Section index.
Import Py Bazel.

Lemma str_le_trans a b c : lexical_le a b → lexical_le b c → lexical_le a c.
Proof.
  unfold lexical_le. intros Hab Hbc.
  destruct (str_lt c a) eqn:Hca; [|done].
  destruct (decide (a = b)) as [->|Hne]; [congruence|].
  pose proof (str_lt_total _ _ Hne Hab) as Hlt.
  pose proof (str_lt_trans _ _ _ Hca Hlt) as Hcb.
  unfold lexical_lt in Hcb. congruence.
Qed.

Lemma sorted_str_StronglySorted l : StronglySorted lexical_le (sorted str_lt l).
Proof.
  apply Sorted_StronglySorted; [intros a b c; apply str_le_trans|].
  apply (sorted_Sorted str_lt str_lt_asym).
Qed.

Lemma keys_Sorted (l : dict (list string)) :
  NoDup l.*1 → Sorted (fun a b => item_lt b a = false) l →
  Sorted lexical_lt l.*1.
Proof.
  intros Hnd Hs. induction Hs as [|a l Hl IH Hhd]; [constructor|].
  rewrite fmap_cons in Hnd. apply NoDup_cons in Hnd as [Ha Hnd].
  rewrite fmap_cons. constructor; [by apply IH|].
  destruct Hhd as [|b l Hba]; constructor.
  assert (a.1 ≠ b.1) as Hne by (intros Heq; apply Ha; rewrite Heq; by left).
  apply str_lt_total; [done|]. unfold item_lt in Hba.
  by destruct (String.eqb_spec b.1 a.1) as [Heq|_].
Qed.

Lemma sorted_items_keys (d : dict (list string)) :
  NoDup d.*1 → StronglySorted lexical_lt (sorted item_lt d).*1.
Proof.
  intros Hnd. apply Sorted_StronglySorted; [intros a b c; apply str_lt_trans|].
  apply keys_Sorted; [by rewrite (sorted_perm item_lt)|].
  apply (sorted_Sorted item_lt item_lt_asym).
Qed.

(** The index that [parse_query_output] returns for [text]. *)
Lemma index_keys text :
  (prod_map id (sorted str_lt)
     <$> sorted item_lt (accumulate (cut <$> kept_lines text) [])).*1
  = (sorted item_lt (accumulate (cut <$> kept_lines text) [])).*1.
Proof. rewrite <-list_fmap_compose. by apply list_fmap_ext; intros ? []. Qed.

Lemma index_items text ns :
  items_of (prod_map id (sorted str_lt)
              <$> sorted item_lt (accumulate (cut <$> kept_lines text) [])) ns
  = sorted str_lt (items_in ns (cut <$> kept_lines text)).
Proof.
  unfold items_of. rewrite dict_get_fmap.
  rewrite <-(dict_get_perm (accumulate (cut <$> kept_lines text) []));
    [|apply accumulate_NoDup; constructor | by rewrite (sorted_perm item_lt)].
  pose proof (accumulate_items (cut <$> kept_lines text) [] ns) as Hit.
  unfold items_of in Hit. simpl in Hit.
  destruct (dict_get _ ns); simpl in *; by rewrite <-Hit.
Qed.

Lemma index_NoDup text :
  NoDup (prod_map id (sorted str_lt)
           <$> sorted item_lt (accumulate (cut <$> kept_lines text) [])).*1.
Proof.
  rewrite index_keys, (sorted_perm item_lt). apply accumulate_NoDup. constructor.
Qed.

Lemma index_elem_of_keys text ns :
  ns ∈ (prod_map id (sorted str_lt)
          <$> sorted item_lt (accumulate (cut <$> kept_lines text) [])).*1
  ↔ ∃ line, line ∈ kept_lines text ∧ (cut line).1 = ns.
Proof.
  rewrite index_keys, (sorted_perm item_lt), accumulate_keys.
  rewrite <-list_fmap_compose. split.
  - intros [?%elem_of_nil|(line & -> & Hin)%list_elem_of_fmap]; [done|].
    by exists line.
  - intros (line & Hin & <-). right. apply list_elem_of_fmap. by exists line.
Qed.

Lemma kept_lines_significant text line :
  line ∈ kept_lines text → significant line = true.
Proof. unfold kept_lines. by intros [? _]%list_elem_of_filter. Qed.

Lemma elem_of_items_in ns it pairs : it ∈ items_in ns pairs ↔ (ns, it) ∈ pairs.
Proof.
  unfold items_in. rewrite list_elem_of_fmap. split.
  - intros ([ns' it'] & -> & [Hns Hin]%list_elem_of_filter). simpl in *. by subst.
  - intros Hin. exists (ns, it). split; [done|]. by apply list_elem_of_filter.
Qed.

End index.

(** ** C1 *)

(** C1. For every raw text the parser returns without raising. The lines it
    keeps are exactly the trimmed lines that are non-empty, begin with [//]
    and contain [:]; each is cut at its last [:] into namespace and item; the
    namespaces of the result are those of the kept lines, in strictly
    ascending lexical order, and the items of a namespace are those of its
    kept lines, in ascending lexical order. The scenario text parses to
    [//a/b -> x, y] and [//c -> z]. *)
Theorem parse_query_output_correct :
  (∀ text, ∃ idx,
      Bazel.parse_query_output text = Returns idx
      ∧ (∀ line, line ∈ kept_lines text →
                 cut_at_last_colon line (cut line).1 (cut line).2)
      ∧ (∀ ns, ns ∈ idx.*1 ↔ ∃ line, line ∈ kept_lines text ∧ (cut line).1 = ns)
      ∧ (∀ ns, items_of idx ns ≡ₚ items_in ns (cut <$> kept_lines text))
      ∧ StronglySorted lexical_lt idx.*1
      ∧ Forall (fun kv => StronglySorted lexical_le kv.2) idx)
  ∧ Bazel.parse_query_output sample_output
    = Returns [("//a/b", ["x"; "y"]); ("//c", ["z"])].
Proof.
  split; [|by vm_compute].
  intros text. eexists. split; [apply parse_query_output_eq|]. split_and!.
  - intros line Hin. by apply significant_cut, kept_lines_significant with text.
  - apply index_elem_of_keys.
  - intros ns. rewrite index_items. apply sorted_perm.
  - rewrite index_keys. apply sorted_items_keys, accumulate_NoDup. constructor.
  - apply Forall_fmap, Forall_forall. intros [ns its] _. simpl.
    apply sorted_str_StronglySorted.
Qed.

(** ** C6 and C7 *)

Section index_entries.
Import Py Bazel.

Lemma prefix_cons a s1 b s2 :
  String.prefix (String a s1) (String b s2)
  = bool_decide (a = b) && String.prefix s1 s2.
Proof.
  simpl. destruct (ascii_dec a b) as [->|Hne].
  - by rewrite bool_decide_true.
  - by rewrite bool_decide_false.
Qed.

Lemma append_String c a b : String c a +:+ b = String c (a +:+ b).
Proof. done. Qed.

Lemma append_Empty b : EmptyString +:+ b = b.
Proof. done. Qed.

Lemma append_cancel_l a : ∀ b c, a +:+ b = a +:+ c → b = c.
Proof. induction a as [|x a IH]; intros b c; simpl; [done|]. intros [= ?]. by apply IH. Qed.

Lemma significant_namespace line :
  significant line = true → startswith "//" (cut line).1 = true.
Proof.
  intros Hs. destruct (significant_cut _ Hs) as [_ [Hline _]].
  unfold significant in Hs. rewrite !andb_true_iff in Hs.
  destruct Hs as [[_ Hp] _]. revert Hp. rewrite Hline at 1.
  unfold startswith. generalize (cut line).2. intros it.
  destruct (cut line).1 as [|c1 [|c2 r]]; rewrite ?append_String, ?append_Empty.
  - rewrite prefix_cons, bool_decide_false; done.
  - rewrite !prefix_cons, (bool_decide_false ("/"%char = ":"%char)) by done.
    by rewrite andb_false_r.
  - rewrite !prefix_cons, !prefix_empty. done.
Qed.

Lemma items_in_occurrences ns it (lines : list string) :
  length (filter (fun x => x = it) (items_in ns (cut <$> lines)))
  = length (filter (fun line => cut line = (ns, it)) lines).
Proof.
  unfold items_in. induction lines as [|l lines IH]; [done|].
  rewrite fmap_cons, !filter_cons. destruct (cut l) as [ns' it'] eqn:E. simpl.
  destruct (decide (ns' = ns)) as [->|Hns].
  - rewrite fmap_cons, filter_cons. simpl.
    destruct (decide (it' = it)) as [->|Hit].
    + rewrite decide_True by done. simpl. by rewrite IH.
    + rewrite decide_False by congruence. done.
  - rewrite decide_False by congruence. done.
Qed.

(** What an entry of the index of [text] is made of. *)
Lemma index_entry text ns its :
  (ns, its) ∈ prod_map id (sorted str_lt)
                <$> sorted item_lt (accumulate (cut <$> kept_lines text) []) →
  its = sorted str_lt (items_in ns (cut <$> kept_lines text))
  ∧ ∃ line, line ∈ kept_lines text ∧ (cut line).1 = ns.
Proof.
  intros Hin. split.
  - apply dict_get_Some in Hin; [|apply index_NoDup].
    rewrite <-index_items. unfold items_of. by rewrite Hin.
  - apply index_elem_of_keys, list_elem_of_fmap. by exists (ns, its).
Qed.

End index_entries.

(** C6, as the design document states it, fails: a kept line that ends at
    its [:] contributes the empty item. *)
Lemma empty_item_counterexample :
  ¬ (∀ text idx, Bazel.parse_query_output text = Returns idx → no_empty_strings idx).
Proof.
  intros H.
  specialize (H bare_output [("//a", [EmptyString])] ltac:(by vm_compute)).
  apply Forall_cons in H as [(_ & _ & Hitems) _].
  by apply Forall_cons in Hitems as [? _].
Qed.

(** C6, amended. For every raw text, no namespace of the index maps to an
    empty sequence and every namespace begins with [//], so is non-empty;
    every item is the text after the last [:] of a kept line of that
    namespace, and it is empty exactly when that line ends at its [:]. *)
Theorem index_entries_nonempty text :
  ∃ idx,
    Bazel.parse_query_output text = Returns idx
    ∧ Forall (fun kv =>
                kv.2 ≠ []
                ∧ Py.startswith "//" kv.1 = true
                ∧ kv.1 ≠ EmptyString
                ∧ Forall (fun it =>
                            ∃ line, line ∈ kept_lines text
                                    ∧ cut_at_last_colon line kv.1 it
                                    ∧ (it = EmptyString ↔ line = kv.1 +:+ ":"))
                         kv.2) idx.
Proof.
  eexists. split; [apply parse_query_output_eq|].
  apply Forall_forall. intros [ns its] Hin. simpl.
  destruct (index_entry _ _ _ Hin) as [-> (line & Hline & Hns)].
  pose proof (kept_lines_significant _ _ Hline) as Hsig.
  pose proof (significant_namespace _ Hsig) as Hpre. rewrite Hns in Hpre.
  split_and!.
  - intros Hnil. assert ((cut line).2 ∈ @nil string) as Habs; [|by inversion Habs].
    rewrite <-Hnil, (sorted_perm Py.str_lt). apply elem_of_items_in.
    apply list_elem_of_fmap. exists line. by rewrite <-Hns, <-surjective_pairing.
  - done.
  - by intros ->.
  - apply Forall_forall. intros it Hit.
    rewrite (sorted_perm Py.str_lt) in Hit.
    apply elem_of_items_in, list_elem_of_fmap in Hit as (l & Hcut & Hl).
    destruct (significant_cut l (kept_lines_significant _ _ Hl)) as [_ Hlast].
    rewrite <-Hcut in Hlast. simpl in Hlast.
    exists l. split_and!; [done..|]. destruct Hlast as [Heq _]. split.
    + intros ->. done.
    + intros Hl'. rewrite Hl' in Heq at 1. apply append_cancel_l in Heq.
      by injection Heq.
Qed.

(** C7, as stated, fails: a target that the output names twice is listed
    twice. *)
Lemma repeated_item_counterexample :
  ¬ (∀ text idx, Bazel.parse_query_output text = Returns idx
                 → sorted_without_duplicates idx).
Proof.
  intros H.
  specialize (H repeated_output [("//a", ["x"; "x"])] ltac:(by vm_compute)).
  apply Forall_cons in H as [[_ Hnd] _]. simpl in Hnd.
  apply NoDup_cons in Hnd as [Hx _]. apply Hx. by left.
Qed.

(** C7, amended. For every raw text, each namespace's item list is in
    ascending lexical order and keeps repetitions: an item occurs in it as
    many times as there are kept lines of that namespace and item. *)
Theorem index_items_sorted_with_repetitions text :
  ∃ idx,
    Bazel.parse_query_output text = Returns idx
    ∧ Forall (fun kv =>
                StronglySorted lexical_le kv.2
                ∧ ∀ it, length (filter (fun x => x = it) kv.2)
                        = length (filter (fun line => cut line = (kv.1, it))
                                         (kept_lines text))) idx.
Proof.
  eexists. split; [apply parse_query_output_eq|].
  apply Forall_forall. intros [ns its] Hin. simpl.
  destruct (index_entry _ _ _ Hin) as [-> _]. split.
  - apply sorted_str_StronglySorted.
  - intros it. rewrite (sorted_perm Py.str_lt). apply items_in_occurrences.
Qed.

(** ** The fuzzy filter: C2 *)

Section fuzzy_filter.
Import Py FuzzyList.

Lemma isspace_lower_char c : isspace (lower_char c) = isspace c.
Proof. by destruct c as [[] [] [] [] [] [] [] []]. Qed.

Lemma split_String c r :
  split (String c r) =
  if isspace c then split r
  else match r with
       | EmptyString => [String c EmptyString]
       | String c' _ =>
           if isspace c' then String c EmptyString :: split r
           else match split r with
                | t :: ts => String c t :: ts
                | [] => [String c EmptyString]
                end
       end.
Proof. done. Qed.

Lemma split_lower s : split (lower s) = lower <$> split s.
Proof.
  induction s as [|c r IH]; [done|].
  change (lower (String c r)) with (String (lower_char c) (lower r)).
  rewrite !split_String, isspace_lower_char, IH.
  generalize (split r). intros ts.
  destruct (isspace c); [done|]. destruct r as [|c' r']; [done|].
  cbn [lower]. rewrite isspace_lower_char.
  destruct (isspace c'); [done|]. by destruct ts.
Qed.

Lemma blank_lstrip s : blank (lstrip s) = blank s.
Proof.
  induction s as [|c r IH]; [done|]. simpl.
  destruct (isspace c) eqn:E; [done|]. simpl. by rewrite E.
Qed.

Lemma rstrip_empty s : rstrip s = EmptyString ↔ blank s = true.
Proof.
  induction s as [|c r IH]; [done|]. simpl.
  destruct (rstrip r) as [|x y].
  - destruct (isspace c); simpl; [by rewrite <-IH | done].
  - rewrite andb_true_iff, <-IH. split; [done | by intros [_ ?]].
Qed.

Lemma strip_empty s : strip s = EmptyString ↔ blank s = true.
Proof. unfold strip. by rewrite rstrip_empty, blank_lstrip. Qed.

Lemma split_blank s : blank s = true → split s = [].
Proof.
  induction s as [|c r IH]; [done|]. simpl.
  intros [-> Hr]%andb_true_iff. by apply IH.
Qed.

Lemma forallb_fmap {A B} (f : B → bool) (g : A → B) (l : list A) :
  forallb f (g <$> l) = forallb (f ∘ g) l.
Proof. induction l as [|x l IH]; csimpl; [done | by rewrite IH]. Qed.

Lemma filter_all {A} (P : A → Prop) `{!∀ x, Decision (P x)} (l : list A) :
  (∀ x, P x) → filter P l = l.
Proof.
  intros HP. induction l as [|x l IH]; [done|].
  by rewrite filter_cons_True, IH.
Qed.

Lemma fuzzy_filter_eq query items :
  fuzzy_filter query items
  = filter (fun item => forallb (ci_contains item) (split query)) items.
Proof.
  unfold fuzzy_filter. destruct (String.eqb_spec (strip query) EmptyString) as [He|_].
  - apply strip_empty, split_blank in He. rewrite He. simpl.
    symmetry. by apply filter_all.
  - rewrite split_lower. apply list_filter_iff. intros item. cbv beta.
    by rewrite forallb_fmap.
Qed.

End fuzzy_filter.

(** C2. For every source list and every filter text, [set_filter] makes the
    filtered view the items of the source, in source order, that contain
    every whitespace-separated token of the text when case is ignored; for
    an empty or all-whitespace text the view is the whole source. *)
Theorem set_filter_correct (self : FuzzyList.FuzzyList) (text : string) :
  let view := FuzzyList._filtered (FuzzyList.set_filter self text) in
  view = filter (fun item => forallb (ci_contains item) (Py.split text))
                (FuzzyList._all_items self)
  ∧ view `sublist_of` FuzzyList._all_items self
  ∧ (blank text = true → view = FuzzyList._all_items self).
Proof.
  simpl. rewrite fuzzy_filter_eq. split_and!; [done | apply sublist_filter |].
  intros Hb. rewrite (split_blank _ Hb). simpl. by apply filter_all.
Qed.

(** ** The cursor: C4 *)

Section cursor.
Import FuzzyList.
Local Open Scope Z_scope.

Lemma cursor_in_view_init items fmt : cursor_in_view (__init__ items fmt).
Proof. unfold cursor_in_view. simpl. lia. Qed.

Lemma cursor_in_view_step self op :
  cursor_in_view self → cursor_in_view (apply_op self op).
Proof.
  unfold cursor_in_view. intros [H0 Hn]. destruct op; simpl; try lia.
  - unfold move_up. destruct (0 <? _cursor self) eqn:E; simpl; lia.
  - unfold move_down.
    destruct (_cursor self <? Z.of_nat (length (_filtered self)) - 1) eqn:E;
      simpl; lia.
Qed.

Lemma cursor_in_view_ops ops : ∀ self,
  cursor_in_view self → cursor_in_view (apply_ops self ops).
Proof.
  induction ops as [|op ops IH]; intros self Hinv; [done|].
  apply IH. by apply cursor_in_view_step.
Qed.

End cursor.

(** C4. After any sequence of [set_filter], [move_up], [move_down] and
    [update_items] on a new widget, the cursor is within the filtered view
    whenever the view is non-empty. Changing the filter text or the source
    puts the cursor at 0. [move_up] and [move_down] leave the view alone and
    move the cursor by one, clamped to the view: they change nothing at the
    first and at the last position, and never wrap around. *)
Theorem cursor_invariant (items : list string) (fmt : option (string → string))
    (ops : list selector_op) :
  let self := apply_ops (FuzzyList.__init__ items fmt) ops in
  let n := Z.of_nat (length (FuzzyList._filtered self)) in
  let c := FuzzyList._cursor self in
  (FuzzyList._filtered self ≠ [] → 0 ≤ c < n)%Z
  ∧ (∀ text, FuzzyList._cursor (FuzzyList.set_filter self text) = 0%Z)
  ∧ (∀ items', FuzzyList._cursor (FuzzyList.update_items self items') = 0%Z)
  ∧ FuzzyList._cursor (FuzzyList.move_up self) = Z.max 0 (c - 1)
  ∧ FuzzyList._cursor (FuzzyList.move_down self) = Z.max 0 (Z.min (n - 1) (c + 1))
  ∧ FuzzyList._filtered (FuzzyList.move_up self) = FuzzyList._filtered self
  ∧ FuzzyList._filtered (FuzzyList.move_down self) = FuzzyList._filtered self
  ∧ (c = 0%Z → FuzzyList.move_up self = self)
  ∧ (c = (n - 1)%Z → FuzzyList.move_down self = self).
Proof.
  intros self n c.
  destruct (cursor_in_view_ops ops _ (cursor_in_view_init items fmt)) as [H0 Hn].
  fold self in H0, Hn. fold c in H0, Hn. fold n in Hn.
  unfold FuzzyList.move_up, FuzzyList.move_down. fold c n.
  split_and!; try done.
  - intros Hne. assert (0 < n)%Z; [|lia].
    subst n. destruct (FuzzyList._filtered self); [done | simpl; lia].
  - destruct (0 <? c)%Z eqn:E; simpl; lia.
  - destruct (c <? n - 1)%Z eqn:E; simpl; lia.
  - by destruct (0 <? c)%Z.
  - by destruct (c <? n - 1)%Z.
  - intros ->. done.
  - intros ->. by rewrite Z.ltb_irrefl.
Qed.

(** ** The viewport: C5 *)

Section viewport.
Import Py FuzzyList.
Local Open Scope Z_scope.

Lemma window_bounds h c n :
  1 ≤ h → 0 ≤ n →
  0 ≤ (window h c n).1 ≤ (window h c n).2
  ∧ (window h c n).2 ≤ n
  ∧ (window h c n).2 - (window h c n).1 = Z.min h n
  ∧ (window h c n).1 = Z.max 0 (Z.min (c - h / 2) (n - h))
  ∧ (0 ≤ c < n → (window h c n).1 ≤ c < (window h c n).2).
Proof.
  intros Hh Hn. unfold window.
  assert (0 ≤ h / 2) as Hhalf0 by (apply Z.div_pos; lia).
  assert (h / 2 < h) as Hhalf by (apply Z.div_lt; lia).
  revert Hhalf0 Hhalf. generalize (h / 2). intros half ??.
  cbn [fst snd].
  destruct (Z.min n (Z.max 0 (c - half) + h) - Z.max 0 (c - half) <? h) eqn:E;
    lia.
Qed.

Lemma elem_of_range i a b : i ∈ range a b ↔ a ≤ i < b.
Proof.
  unfold range. rewrite list_elem_of_fmap. split.
  - intros (k & -> & Hk%elem_of_seq). lia.
  - intros Hi. exists (Z.to_nat (i - a)). split; [lia|].
    apply elem_of_seq. lia.
Qed.

Lemma getitem_in_range {A} (xs : list A) i :
  0 ≤ i < Z.of_nat (length xs) →
  ∃ x, xs !! Z.to_nat i = Some x ∧ getitem xs i = Returns x.
Proof.
  intros Hi. destruct (lookup_lt_is_Some_2 xs (Z.to_nat i)) as [x Hx]; [lia|].
  exists x. split; [done|]. unfold getitem.
  destruct (i <? 0) eqn:E1; [lia|].
  destruct ((0 <=? i) && (i <? Z.of_nat (length xs))) eqn:E2; [by rewrite Hx|].
  apply andb_false_iff in E2. lia.
Qed.

Lemma render_rows self idxs : ∀ acc,
  Forall (fun i => 0 ≤ i < Z.of_nat (length (_filtered self))) idxs →
  for_each
    (fun t i =>
       bind_outcome (getitem (_filtered self) i)
         (fun item => Returns (t ++ [Item i (i =? _cursor self) (_fmt self item)])))
    idxs acc
  = Returns (acc ++ (row_at self <$> idxs)).
Proof.
  induction idxs as [|i idxs IH]; intros acc Hall.
  - by rewrite app_nil_r.
  - apply Forall_cons in Hall as [Hi Hall]. cbn [for_each].
    destruct (getitem_in_range _ _ Hi) as (x & Hx & ->). cbn [bind_outcome].
    rewrite IH by done. rewrite fmap_cons, <-app_assoc.
    assert (row_at self i = Item i (i =? _cursor self) (_fmt self x)) as ->
      by (unfold row_at; by rewrite Hx).
    done.
Qed.

Lemma padding_rows k :
  map (fun _ : Z => Padding) (range 0 k) = replicate (Z.to_nat k) Padding.
Proof.
  unfold range. rewrite Z.sub_0_r, map_map.
  generalize 0%nat. induction (Z.to_nat k) as [|m IH]; intros a; [done|].
  simpl. by rewrite IH.
Qed.

Lemma render_nonempty self size_height :
  _filtered self ≠ [] →
  render self size_height
  = Returns
      ((row_at self
          <$> range (window (Z.max 1 size_height) (_cursor self)
                       (Z.of_nat (length (_filtered self)))).1
                    (window (Z.max 1 size_height) (_cursor self)
                       (Z.of_nat (length (_filtered self)))).2)
       ++ replicate
            (Z.to_nat
               (Z.max 1 size_height
                - ((window (Z.max 1 size_height) (_cursor self)
                      (Z.of_nat (length (_filtered self)))).2
                   - (window (Z.max 1 size_height) (_cursor self)
                        (Z.of_nat (length (_filtered self)))).1)))
            Padding).
Proof.
  intros Hne. unfold render.
  destruct (_filtered self) as [|x xs] eqn:E; [done|]. rewrite <-E. clear E.
  pose proof (window_bounds (Z.max 1 size_height) (_cursor self)
                (Z.of_nat (length (_filtered self))) ltac:(lia) ltac:(lia))
    as (Hse & Hen & _).
  destruct (window _ _ _) as [start end_]. cbn [fst snd] in *.
  rewrite (render_rows self (range start end_) []).
  - cbn [bind_outcome app]. by rewrite padding_rows.
  - apply Forall_forall. intros i Hi%elem_of_range. lia.
Qed.

End viewport.

(** C5. For every widget and every height of at least 1 (the widget takes
    the larger of 1 and its allotted height), the rows that [render] draws
    are those of the indices [start, end) of the filtered view, one after
    the other: [start] is [cursor - height/2] clamped into [0, len - height]
    (and to 0 when the view is shorter than the height), the window has
    [min(height, len)] rows and never leaves [0, len), it is the whole view
    when the view has at most [height] items, it holds the cursor whenever
    the cursor is within the view, [render] never indexes outside the view,
    and the rows depend on the view, the cursor, the formatter and the
    height only. *)
Theorem render_viewport (self : FuzzyList.FuzzyList) (size_height : Z) :
  let height := Z.max 1 size_height in
  let items := FuzzyList._filtered self in
  let n := Z.of_nat (length items) in
  let c := FuzzyList._cursor self in
  let start := (FuzzyList.window height c n).1 in
  let end_ := (FuzzyList.window height c n).2 in
  (0 ≤ start ≤ end_)%Z ∧ (end_ ≤ n)%Z
  ∧ (end_ - start = Z.min height n)%Z
  ∧ start = Z.max 0 (Z.min (c - height / 2) (n - height))
  ∧ (n ≤ height → start = 0 ∧ end_ = n)%Z
  ∧ (0 ≤ c < n → start ≤ c < end_)%Z
  ∧ Forall (fun i => (0 ≤ i < n)%Z ∧ is_Some (items !! Z.to_nat i))
           (Py.range start end_)
  ∧ (items ≠ [] →
     FuzzyList.render self size_height
     = Returns ((row_at self <$> Py.range start end_)
                ++ replicate (Z.to_nat (height - (end_ - start))) FuzzyList.Padding))
  ∧ (items = [] → FuzzyList.render self size_height = Returns [FuzzyList.NoMatches])
  ∧ (∀ other, FuzzyList._filtered other = items → FuzzyList._cursor other = c →
              FuzzyList._fmt other = FuzzyList._fmt self →
              FuzzyList.render other size_height = FuzzyList.render self size_height).
Proof.
  intros height items n c start end_.
  destruct (window_bounds height c n ltac:(lia) ltac:(lia))
    as (Hse & Hen & Hlen & Hstart & Hc).
  fold start end_ in Hse, Hen, Hlen, Hstart, Hc.
  assert (Forall (fun i => (0 ≤ i < n)%Z) (Py.range start end_)) as Hidx.
  { apply Forall_forall. intros i Hi%elem_of_range. lia. }
  refine (conj Hse (conj Hen (conj Hlen (conj Hstart
            (conj _ (conj Hc (conj _ (conj _ (conj _ _))))))))).
  - lia.
  - eapply Forall_impl; [exact Hidx|]. intros i Hi. cbv beta in Hi.
    split; [done|].
    apply lookup_lt_is_Some_2. subst n. lia.
  - apply render_nonempty.
  - intros Hnil. unfold FuzzyList.render. fold items. by rewrite Hnil.
  - intros other Hf Hcur Hfmt. unfold FuzzyList.render. by rewrite Hf, Hcur, Hfmt.
Qed.

(** ** The command builders: C9 *)

Section commands.
Import Py.

Lemma append_assoc a : ∀ b c, (a +:+ b) +:+ c = a +:+ (b +:+ c).
Proof.
  induction a as [|x a IH]; intros b c; [done|].
  by rewrite !append_String, IH.
Qed.

(** The kind expression of both builders is the [|]-join of the kinds. *)
Lemma kind_expr_join kinds :
  kinds ≠ [] →
  (if (1 <? length kinds)%nat then Returns (join "|" kinds) else getitem kinds 0)
  = Returns (join "|" kinds).
Proof.
  intros Hne. destruct kinds as [|k [|k' ks]]; [done | done | done].
Qed.

End commands.

(** C9. For every scope and every non-empty list of kinds, the query
    expression is [kind('<kinds>', <scope>)], in which a single kind stands
    bare and several kinds are joined by [|]; the local argument vector is
    [bazel query <expression>] and the remote one is [ssh <host>] followed by
    [cd <quoted dir> && bazel query "<expression>"], the directory quoted as
    [shlex.quote] does. *)
Theorem query_commands (cfg : Ssh.SSHConfig) (scope : string)
    (kinds : list string) :
  kinds ≠ [] →
  let expr := "kind('" +:+ Py.join "|" kinds +:+ "', " +:+ scope +:+ ")" in
  Bazel.query_local_cmd scope kinds = Returns ["bazel"; "query"; expr]
  ∧ Ssh.build_query_cmd cfg scope kinds
    = Returns ["ssh"; Ssh.host cfg;
               "cd " +:+ Shlex.quote (Ssh.remote_dir cfg)
               +:+ " && bazel query " +:+ Py.DQUOTE +:+ expr +:+ Py.DQUOTE]
  ∧ (∀ k, kinds = [k] → Py.join "|" kinds = k)
  ∧ (∀ k1 k2 ks, kinds = k1 :: k2 :: ks →
                 Py.join "|" kinds = k1 +:+ "|" +:+ Py.join "|" (k2 :: ks)).
Proof.
  intros Hne expr. split_and!.
  - unfold Bazel.query_local_cmd. by rewrite kind_expr_join.
  - unfold Ssh.build_query_cmd. rewrite kind_expr_join by done.
    cbn [bind_outcome]. subst expr. do 3 f_equal.
    by rewrite !append_assoc.
  - by intros k ->.
  - by intros k1 k2 ks ->.
Qed.

(** C9 at two kinds. *)
Lemma query_commands_witness :
  ["genrule"; "sh_test"] ≠ []
  ∧ Bazel.query_local_cmd "//..." ["genrule"; "sh_test"]
  = Returns ["bazel"; "query"; "kind('genrule|sh_test', //...)"]
  ∧ Ssh.build_query_cmd {| Ssh.host := "user@build-host";
                           Ssh.remote_dir := "/home/user/my repo" |}
      "//..." ["genrule"; "sh_test"]
    = Returns ["ssh"; "user@build-host";
               "cd '/home/user/my repo' && bazel query " +:+ Py.DQUOTE
               +:+ "kind('genrule|sh_test', //...)" +:+ Py.DQUOTE].
Proof.
  destruct (query_commands
              {| Ssh.host := "user@build-host";
                 Ssh.remote_dir := "/home/user/my repo" |}
              "//..." ["genrule"; "sh_test"] ltac:(discriminate))
    as (H1 & H2 & _).
  split; [discriminate | split; [exact H1 | exact H2]].
Defined.

(** ** The disk cache *)

Section cache.
Import Py Json Pathlib Bazel.

Lemma os_mkdir_frame (p : path) (t t' : tree) (r : outcome unit) (q : path) :
  os_mkdir p t = (t', r) → q ≠ p → t' !! q = t !! q.
Proof.
  unfold os_mkdir. intros H Hq.
  repeat case_match; simplify_eq; try done; by rewrite lookup_insert_ne.
Qed.

Lemma mkdir_exist_ok_frame (p : path) (t t' : tree) (r : outcome unit)
    (q : path) :
  mkdir_exist_ok p t = (t', r) → q ≠ p → t' !! q = t !! q.
Proof.
  unfold mkdir_exist_ok. intros H Hq.
  destruct (os_mkdir p t) as [t1 r1] eqn:E.
  pose proof (os_mkdir_frame _ _ _ _ _ E Hq).
  repeat case_match; by simplify_eq.
Qed.

Lemma mkdir_parents_frame (p : path) : ∀ (t t' : tree) (r : outcome unit) (q : path),
  mkdir_parents p t = (t', r) → (length p < length q)%nat → t' !! q = t !! q.
Proof.
  induction p as [|c parent IH]; intros t t' r q H Hlen.
  - simpl in H. destruct (os_mkdir [] t) as [t1 r1] eqn:E.
    assert (q ≠ []) as Hq by (intros ->; simpl in Hlen; lia).
    pose proof (os_mkdir_frame _ _ _ _ _ E Hq).
    repeat case_match; by simplify_eq.
  - simpl in H. destruct (os_mkdir (c :: parent) t) as [t1 r1] eqn:E.
    assert (q ≠ c :: parent) as Hq by (intros ->; lia).
    pose proof (os_mkdir_frame _ _ _ _ _ E Hq) as H1.
    destruct r1 as [[]|e]; [by simplify_eq|].
    destruct (mkdir_parents parent t1) as [t2 r2] eqn:E2.
    assert (t2 !! q = t1 !! q) as H2
      by (eapply IH; [done | simpl in Hlen; lia]).
    destruct (mkdir_exist_ok (c :: parent) t2) as [t3 r3] eqn:E3.
    pose proof (mkdir_exist_ok_frame _ _ _ _ _ E3 Hq) as H3.
    repeat case_match; simplify_eq; congruence.
Qed.

End cache.

Section cache_api.
Import Py Json Pathlib Bazel.

Lemma mkdir_parents_is_dir (p : path) (t t' : tree) :
  mkdir_parents p t = (t', Returns tt) → is_dir t' p = true.
Proof.
  destruct p as [|c parent]; simpl.
  - unfold os_mkdir, is_dir. simpl. by intros [= <-].
  - destruct (os_mkdir (c :: parent) t) as [t1 r1] eqn:E1.
    assert (∀ (u u' : tree) r, os_mkdir (c :: parent) u = (u', r) →
              (r = Returns tt → is_dir u' (c :: parent) = true)
              ∧ (r ≠ Returns tt → u' = u)) as Hos.
    { intros u u' r. unfold os_mkdir, is_dir, stat.
      intros H; repeat case_match; simplify_eq; split; intros Hr; try done.
      all: by match goal with
              | Hl : <[_:=_]> _ !! _ = _ |- _ => rewrite lookup_insert_eq in Hl
              end. }
    destruct (Hos _ _ _ E1) as [Hok Hfail].
    destruct r1 as [[]|e].
    + intros [= <-]. by apply Hok.
    + assert (t1 = t) as -> by by apply Hfail.
      destruct e;
        try (destruct (is_dir t (c :: parent)) eqn:Hd; by intros [= <-]).
      destruct (mkdir_parents parent t) as [t2 r2].
      destruct r2 as [[]|e2]; [|done].
      unfold mkdir_exist_ok.
      destruct (os_mkdir (c :: parent) t2) as [t3 r3] eqn:E3.
      destruct (Hos _ _ _ E3) as [Hok3 Hfail3].
      destruct r3 as [[]|e3].
      * intros [= <-]. by apply Hok3.
      * assert (t3 = t2) as -> by by apply Hfail3.
        destruct e3; destruct (is_dir t2 (c :: parent)) eqn:Hd;
          by intros [= <-].
Qed.

Lemma mkdir_parents_idem (p : path) (t : tree) :
  is_dir t p = true → mkdir_parents p t = (t, Returns tt).
Proof.
  intros Hd. destruct p as [|c parent]; [done|]. simpl.
  - unfold os_mkdir. unfold is_dir in Hd.
    destruct (stat t (c :: parent)) as [[]|] eqn:E; try done.
    unfold is_dir. by rewrite E.
Qed.

Lemma root_usable_eq (t : tree) :
  root_usable t → mkdir_parents _CACHE_DIR t = (with_root t, Returns tt).
Proof.
  unfold root_usable, with_root. intros H.
  by rewrite (surjective_pairing (mkdir_parents _ _)), H.
Qed.

Lemma with_root_is_dir (t : tree) :
  root_usable t → is_dir (with_root t) _CACHE_DIR = true.
Proof. intros H. eapply mkdir_parents_is_dir. by apply root_usable_eq. Qed.

Lemma with_root_file (t : tree) (host : option string) (scope : string)
    (kinds : list string) :
  stat (with_root t) (cache_file host scope kinds)
  = stat t (cache_file host scope kinds).
Proof.
  unfold with_root, cache_file. cbn [stat].
  eapply mkdir_parents_frame; [apply surjective_pairing|].
  unfold _CACHE_DIR. simpl. lia.
Qed.

Lemma _cache_path_eq (t : tree) (host : option string) (scope : string)
    (kinds : list string) :
  root_usable t →
  _cache_path host scope kinds t
  = (with_root t, Returns (cache_file host scope kinds)).
Proof.
  intros H. unfold _cache_path, bind. by rewrite (root_usable_eq _ H).
Qed.

Lemma load_cache_skips (now : Q) (host : option string) (scope : string)
    (kinds : list string) (ttl : Z) (t : tree) :
  (ttl ≤ 0)%Z → load_cache now host scope kinds ttl t = (t, Returns None).
Proof.
  intros Hle. unfold load_cache.
  by rewrite (proj2 (Z.leb_le ttl 0) Hle).
Qed.

Lemma load_cache_eq (now : Q) (host : option string) (scope : string)
    (kinds : list string) (ttl : Z) (t : tree) :
  (0 < ttl)%Z → root_usable t →
  load_cache now host scope kinds ttl t
  = (with_root t,
     Returns (fresh_entry now ttl (stat t (cache_file host scope kinds)))).
Proof.
  intros Hpos Hroot. unfold load_cache.
  rewrite (proj2 (Z.leb_gt ttl 0) Hpos).
  unfold bind at 1. rewrite (_cache_path_eq _ _ _ _ Hroot).
  rewrite <-(with_root_file t). generalize (with_root t). intros u.
  unfold bind at 1. unfold exists_ at 1.
  unfold cache_file. cbn [stat]. unfold fresh_entry.
  destruct (u !! _) as [[|[v|]]|] eqn:E.
  - rewrite bool_decide_true by done. cbn [negb].
    unfold try_except, bind, read_text. cbn [stat]. by rewrite E.
  - rewrite bool_decide_true by done. cbn [negb].
    unfold try_except, bind, read_text. cbn [stat]. rewrite E.
    unfold lift, loads, get, ret.
    destruct v as [| | | | |d]; try done.
    cbn [deserialize subscript].
    destruct (ne_int (default PNone (dict_get d "version")) _CACHE_VERSION) eqn:Ev.
    + destruct (dict_get d "timestamp") as [ts|]; [|done].
      destruct (dict_get d "targets") as [tg|]; [|done].
      destruct (as_number ts); [|done]. cbn [format_version]. by rewrite Ev.
    + destruct (dict_get d "timestamp") as [ts|]; [|done].
      unfold rsub.
      destruct ts as [|b|q| | |]; cbn [as_number];
        try (by destruct (dict_get d "targets")).
      * destruct (dict_get d "targets");
          cbn [format_version captured_at payload stamp]; rewrite ?Ev;
          by destruct (Qle_bool _ _).
      * destruct (dict_get d "targets");
          cbn [format_version captured_at payload stamp]; rewrite ?Ev;
          by destruct (Qle_bool _ _).
  - rewrite bool_decide_true by done. cbn [negb].
    unfold try_except, bind, read_text. cbn [stat]. by rewrite E.
  - rewrite bool_decide_false by (by intros [? ?]). done.
Qed.

End cache_api.

Section cache_roundtrip.
Import Py Json Pathlib Bazel.

Lemma cache_file_not_root (host : option string) (scope : string)
    (kinds : list string) : cache_file host scope kinds ≠ _CACHE_DIR.
Proof. unfold cache_file, _CACHE_DIR. intros H. by apply (f_equal length) in H. Qed.

Lemma stat_cache_file (u : tree) (host : option string) (scope : string)
    (kinds : list string) :
  stat u (cache_file host scope kinds) = u !! cache_file host scope kinds.
Proof. done. Qed.

Lemma stat_root (u : tree) : stat u _CACHE_DIR = u !! _CACHE_DIR.
Proof. done. Qed.

(** What [save_cache] leaves behind when the cache root is usable. *)
Lemma save_cache_eq (now : Q) (host : option string) (scope : string)
    (kinds : list string) (tgts : value) (t : tree) :
  root_usable t →
  save_cache now host scope kinds tgts t
  = (match stat t (cache_file host scope kinds) with
     | Some Dir => with_root t
     | _ => <[cache_file host scope kinds
              := File (cache_text now host scope kinds tgts)]> (with_root t)
     end, Returns tt).
Proof.
  intros Hroot. unfold save_cache.
  unfold bind at 1. rewrite (_cache_path_eq _ _ _ _ Hroot).
  rewrite <-(with_root_file t). pose proof (with_root_is_dir _ Hroot) as Hd.
  revert Hd. generalize (with_root t). intros u Hd.
  unfold try_except, write_text. fold (cache_text now host scope kinds tgts).
  destruct (stat u (cache_file host scope kinds)) as [[|x]|] eqn:E; try done.
  change (tail (cache_file host scope kinds)) with _CACHE_DIR.
  unfold is_dir in Hd. by destruct (stat u _CACHE_DIR) as [[|?]|].
Qed.

Lemma bust_cache_eq (host : option string) (scope : string)
    (kinds : list string) (t : tree) :
  root_usable t →
  bust_cache host scope kinds t
  = match stat t (cache_file host scope kinds) with
    | Some (File _) => (delete (cache_file host scope kinds) (with_root t), Returns tt)
    | Some Dir => (with_root t, Raises IsADirectoryError)
    | None => (with_root t, Returns tt)
    end.
Proof.
  intros Hroot. unfold bust_cache.
  unfold bind at 1. rewrite (_cache_path_eq _ _ _ _ Hroot).
  rewrite <-(with_root_file t). unfold unlink_missing_ok.
  by destruct (stat (with_root t) _) as [[|x]|].
Qed.

Lemma is_dir_insert_file (u : tree) (p : path) x :
  p ≠ _CACHE_DIR → is_dir u _CACHE_DIR = true →
  is_dir (<[p := File x]> u) _CACHE_DIR = true.
Proof.
  intros Hp. unfold is_dir. rewrite !stat_root. by rewrite lookup_insert_ne.
Qed.

Lemma is_dir_delete (u : tree) (p : path) :
  p ≠ _CACHE_DIR → is_dir u _CACHE_DIR = true →
  is_dir (delete p u) _CACHE_DIR = true.
Proof.
  intros Hp. unfold is_dir. rewrite !stat_root. by rewrite lookup_delete_ne.
Qed.

Lemma is_dir_root_usable (u : tree) :
  is_dir u _CACHE_DIR = true → root_usable u ∧ with_root u = u.
Proof.
  intros Hd. unfold root_usable, with_root.
  by rewrite (mkdir_parents_idem _ _ Hd).
Qed.



End cache_roundtrip.

(** ** C3 *)

(** When the cache root can be neither found nor created, the error of
    [mkdir] leaves [load_cache]: [_cache_path] runs outside the [try]. *)
Lemma load_cache_root_error (now : Q) (host : option string) (scope : string)
    (kinds : list string) (ttl : Z) (t : Pathlib.tree) (e : exn) :
  (0 < ttl)%Z →
  (Pathlib.mkdir_parents Bazel._CACHE_DIR t).2 = Raises e →
  (Bazel.load_cache now host scope kinds ttl t).2 = Raises e.
Proof.
  intros Hpos He. unfold Bazel.load_cache.
  rewrite (proj2 (Z.leb_gt ttl 0) Hpos).
  unfold Pathlib.bind at 1. unfold Bazel._cache_path, Pathlib.bind.
  destruct (Pathlib.mkdir_parents Bazel._CACHE_DIR t) as [t1 r]. simpl in He.
  by subst r.
Qed.

(** A time on a grid is a whole number of grid steps below [2^53]. *)
Lemma on_grid_whole (k : Z) (q : Q) :
  on_grid k q = true →
  ∃ m : Z, (q * Qpower 2 k == inject_Z m)%Q ∧ (0 ≤ m < 2 ^ 53)%Z.
Proof.
  unfold on_grid. cbv zeta. rewrite !andb_true_iff.
  intros [[[[Hd%Z.eqb_eq H0%Z.leb_le] H1%Z.ltb_lt] _] _].
  exists (Qnum (Qred (q * Qpower 2 k))). split; [|lia].
  rewrite <-(Qred_correct (q * Qpower 2 k)) at 1.
  destruct (Qred (q * Qpower 2 k)) as [n d]. simpl in *.
  assert (d = 1%positive) as -> by lia. reflexivity.
Qed.

(** The difference of two times on one grid is a whole number of grid
    steps of magnitude below [2^53]: a double, so that the rounding of the
    subtraction changes nothing. *)
Lemma on_grid_difference (k : Z) (a b : Q) :
  on_grid k a = true → on_grid k b = true →
  ∃ m : Z, ((a - b) * Qpower 2 k == inject_Z m)%Q
           ∧ (- 2 ^ 53 < m < 2 ^ 53)%Z.
Proof.
  intros (ma & Ha & ?)%on_grid_whole (mb & Hb & ?)%on_grid_whole.
  exists (ma - mb)%Z. split; [|lia].
  unfold Z.sub. rewrite inject_Z_plus, inject_Z_opp, <-Ha, <-Hb. ring.
Qed.

(** The clock's value of a day in 2023 is on the grid of [2^-22] seconds. *)
Example on_grid_clock : on_grid 22 (7130316800517812 # 4194304) = true.
Proof. reflexivity. Qed.




(** ** C8 *)



(** ** C10 *)

(** C10, as stated, fails: a read under a positive ttl creates the cache
    root on a file tree that lacks it. *)
Lemma cache_root_counterexample : ¬ root_created_by_writes_only.
Proof.
  intros H.
  destruct (H 0%Q None "//..." ["genrule"] 60%Z (∅ : Pathlib.tree))
    as [Hload _]; [reflexivity|].
  vm_compute in Hload. discriminate.
Qed.

(** C10, amended. The cache root is created whenever a cache path is
    derived: on a file tree where the root is usable, a read under a
    positive ttl leaves exactly the tree with the root in place, and an
    invalidation and a write leave a tree with the root in place; only a
    read with [ttl <= 0] leaves the file tree as it was. *)
Theorem cache_root_created (now : Q) (host : option string) (scope : string)
    (kinds : list string) (ttl : Z) (tgts : Json.value) (t : Pathlib.tree) :
  root_usable t →
  Pathlib.is_dir (with_root t) Bazel._CACHE_DIR = true
  ∧ ((0 < ttl)%Z → (Bazel.load_cache now host scope kinds ttl t).1 = with_root t)
  ∧ ((ttl ≤ 0)%Z → (Bazel.load_cache now host scope kinds ttl t).1 = t)
  ∧ Pathlib.is_dir (Bazel.bust_cache host scope kinds t).1 Bazel._CACHE_DIR = true
  ∧ Pathlib.is_dir (Bazel.save_cache now host scope kinds tgts t).1
      Bazel._CACHE_DIR = true.
Proof.
  intros Hroot. pose proof (with_root_is_dir _ Hroot) as Hd. split_and!.
  - done.
  - intros Hpos. by rewrite (load_cache_eq _ _ _ _ _ _ Hpos Hroot).
  - intros Hle. by rewrite load_cache_skips.
  - rewrite (bust_cache_eq _ _ _ _ Hroot).
    destruct (Pathlib.stat t _) as [[|x]|]; cbn [fst]; try done.
    by apply is_dir_delete; [apply cache_file_not_root|].
  - rewrite (save_cache_eq _ _ _ _ _ _ Hroot). cbn [fst].
    destruct (Pathlib.stat t _) as [[|x]|]; try done;
      by apply is_dir_insert_file; [apply cache_file_not_root|].
Qed.

(** C10, amended, on the empty file tree. *)
Lemma cache_root_created_witness :
  root_usable ∅
  ∧ Pathlib.stat (∅ : Pathlib.tree) Bazel._CACHE_DIR = None
  ∧ Pathlib.is_dir (Bazel.load_cache 0 None "//..." ["genrule"] 60 ∅).1
      Bazel._CACHE_DIR = true
  ∧ Pathlib.is_dir (Bazel.bust_cache None "//..." ["genrule"] ∅).1
      Bazel._CACHE_DIR = true.
Proof.
  destruct (cache_root_created 0 None "//..." ["genrule"] 60 Json.PNone ∅)
    as (Hd & Hload & _ & Hbust & _); [reflexivity|].
  split; [reflexivity|]. split; [reflexivity|].
  split; [by rewrite Hload | exact Hbust].
Defined.


(** * Further properties *)

(** ** The selector *)

Section selector_more.
Import Py FuzzyList.

Lemma fuzzy_filter_blank items : fuzzy_filter EmptyString items = items.
Proof. done. Qed.

Lemma apply_ops_filter ops : ∀ self,
  _filter (apply_ops self ops) = last_filter (_filter self) ops.
Proof.
  induction ops as [|op ops IH]; intros self; [done|].
  unfold apply_ops, last_filter in *. cbn [fold_left]. rewrite IH.
  destruct op; try done.
  - unfold apply_op, move_up. by destruct (_ <? _)%Z.
  - unfold apply_op, move_down. by destruct (_ <? _)%Z.
Qed.

Lemma apply_ops_source ops : ∀ self,
  _all_items (apply_ops self ops) = last_source (_all_items self) ops.
Proof.
  induction ops as [|op ops IH]; intros self; [done|].
  unfold apply_ops, last_source in *. cbn [fold_left]. rewrite IH.
  destruct op; try done.
  - unfold apply_op, move_up. by destruct (_ <? _)%Z.
  - unfold apply_op, move_down. by destruct (_ <? _)%Z.
Qed.

Lemma apply_ops_view ops : ∀ self,
  _filtered self = fuzzy_filter (_filter self) (_all_items self) →
  _filtered (apply_ops self ops)
  = fuzzy_filter (_filter (apply_ops self ops)) (_all_items (apply_ops self ops)).
Proof.
  induction ops as [|op ops IH]; intros self Hself; [done|].
  unfold apply_ops in *. cbn [fold_left]. apply IH.
  destruct op; try done.
  - unfold apply_op, move_up. by destruct (_ <? _)%Z.
  - unfold apply_op, move_down. by destruct (_ <? _)%Z.
Qed.

End selector_more.

(** X1. After any sequence of operations on a new widget, the filtered
    view is the filter of the last source handed over by the last filter
    text set (the initial items and the empty text when there was none):
    earlier filters, sources and cursor moves leave no trace. The view is a
    part of the source, in order, so [count] never exceeds [total_count]. *)
Theorem view_is_filter_of_source (items : list string)
    (fmt : option (string → string)) (ops : list selector_op) :
  let self := apply_ops (FuzzyList.__init__ items fmt) ops in
  FuzzyList._filter self = last_filter EmptyString ops
  ∧ FuzzyList._all_items self = last_source items ops
  ∧ FuzzyList._filtered self
    = FuzzyList.fuzzy_filter (last_filter EmptyString ops) (last_source items ops)
  ∧ FuzzyList._filtered self `sublist_of` FuzzyList._all_items self
  ∧ (FuzzyList.count self ≤ FuzzyList.total_count self)%Z.
Proof.
  intros self.
  pose proof (apply_ops_filter ops (FuzzyList.__init__ items fmt)) as Hf.
  pose proof (apply_ops_source ops (FuzzyList.__init__ items fmt)) as Hs.
  pose proof (apply_ops_view ops (FuzzyList.__init__ items fmt) eq_refl) as Hv.
  fold self in Hf, Hs, Hv. simpl in Hf, Hs.
  assert (FuzzyList._filtered self `sublist_of` FuzzyList._all_items self) as Hsub.
  { rewrite Hv, fuzzy_filter_eq. apply sublist_filter. }
  split_and!; [done | done | by rewrite Hv, Hf, Hs | done |].
  unfold FuzzyList.count, FuzzyList.total_count.
  apply sublist_length in Hsub. lia.
Qed.

(** X2. After any sequence of operations on a new widget, [selected_item]
    and [confirm] do not raise and agree: both give nothing when the view
    is empty, and otherwise the item of the view under the cursor, which is
    an item of the source. *)
Theorem selection_is_safe (items : list string)
    (fmt : option (string → string)) (ops : list selector_op) :
  let self := apply_ops (FuzzyList.__init__ items fmt) ops in
  FuzzyList.confirm self = FuzzyList.selected_item self
  ∧ (FuzzyList._filtered self = [] →
     FuzzyList.selected_item self = Returns None)
  ∧ (FuzzyList._filtered self ≠ [] →
     ∃ item,
       FuzzyList._filtered self !! Z.to_nat (FuzzyList._cursor self) = Some item
       ∧ FuzzyList.selected_item self = Returns (Some item)
       ∧ item ∈ FuzzyList._all_items self).
Proof.
  intros self.
  destruct (cursor_in_view_ops ops _ (cursor_in_view_init items fmt)) as [H0 Hn].
  pose proof (apply_ops_view ops (FuzzyList.__init__ items fmt) eq_refl) as Hv.
  fold self in H0, Hn, Hv.
  assert (FuzzyList._filtered self `sublist_of` FuzzyList._all_items self) as Hsub.
  { rewrite Hv, fuzzy_filter_eq. apply sublist_filter. }
  clear Hv. unfold FuzzyList.confirm, FuzzyList.selected_item.
  destruct (FuzzyList._filtered self) as [|x xs] eqn:E; [done|].
  rewrite <-E in *.
  assert (0 ≤ FuzzyList._cursor self
          < Z.of_nat (length (FuzzyList._filtered self)))%Z as Hc.
  { rewrite E in *. simpl in *. lia. }
  destruct (getitem_in_range (FuzzyList._filtered self) _ Hc) as (item & Hitem & Hget).
  rewrite Hget. cbn [bind_outcome].
  rewrite (proj2 (Z.leb_le _ _) (proj1 Hc)), (proj2 (Z.ltb_lt _ _) (proj2 Hc)).
  split_and!; [done | by rewrite E |]. intros _. exists item.
  split_and!; [done | done |].
  apply (sublist_subseteq _ _ Hsub). by eapply list_elem_of_lookup_2.
Qed.

(** ** The fuzzy filter, continued *)

Section filter_more.
Import Py FuzzyList.

Lemma split_head c r : isspace c = false → split (String c r) ≠ [].
Proof.
  intros Hc. rewrite split_String, Hc. destruct r as [|c' r']; [done|].
  destruct (isspace c'); [done|]. by destruct (split (String c' r')).
Qed.

Lemma split_app_space a : ∀ b, split (a +:+ " " +:+ b) = split a ++ split b.
Proof.
  induction a as [|c r IH]; intros b; [done|].
  rewrite append_String, !split_String, IH.
  destruct (isspace c) eqn:Hc; [done|].
  destruct r as [|c' r']; [done|].
  rewrite append_String. destruct (isspace c') eqn:Hc'; [done|].
  pose proof (split_head c' r' Hc') as Hne.
  by destruct (split (String c' r')).
Qed.

Lemma forallb_app_True {A} (f : A → bool) l1 l2 :
  forallb f (l1 ++ l2) ↔ forallb f l1 ∧ forallb f l2.
Proof. by rewrite forallb_app, andb_True. Qed.

Lemma lower_char_idemp c : lower_char (lower_char c) = lower_char c.
Proof. by destruct c as [[] [] [] [] [] [] [] []]. Qed.

Lemma lower_idemp s : lower (lower s) = lower s.
Proof. induction s as [|c r IH]; simpl; [done|]. by rewrite lower_char_idemp, IH. Qed.

Lemma ci_contains_lower_token item t :
  ci_contains item (lower t) = ci_contains item t.
Proof. unfold ci_contains. by rewrite lower_idemp. Qed.

Lemma passes_lower query item : passes (lower query) item = passes query item.
Proof.
  unfold passes. rewrite split_lower, forallb_fmap.
  induction (split query) as [|t ts IH]; simpl; [done|].
  by rewrite ci_contains_lower_token, IH.
Qed.

Lemma elem_of_fuzzy_filter query items item :
  item ∈ fuzzy_filter query items ↔ item ∈ items ∧ passes query item.
Proof. rewrite fuzzy_filter_eq, list_elem_of_filter. unfold passes. tauto. Qed.

End filter_more.

(** X3. Filtering a filtered list by a second query gives the items that
    pass both: it is the filter by the two queries joined with a space.
    Hence the order of the two filters does not matter, and filtering
    twice by one query is filtering once. *)
Theorem fuzzy_filter_composes (q1 q2 : string) (items : list string) :
  FuzzyList.fuzzy_filter q1 (FuzzyList.fuzzy_filter q2 items)
  = FuzzyList.fuzzy_filter (q2 +:+ " " +:+ q1) items
  ∧ FuzzyList.fuzzy_filter q1 (FuzzyList.fuzzy_filter q2 items)
    = FuzzyList.fuzzy_filter q2 (FuzzyList.fuzzy_filter q1 items)
  ∧ FuzzyList.fuzzy_filter q1 (FuzzyList.fuzzy_filter q1 items)
    = FuzzyList.fuzzy_filter q1 items.
Proof.
  rewrite !fuzzy_filter_eq, !list_filter_filter. split_and!.
  - apply list_filter_iff. intros item. rewrite split_app_space.
    rewrite forallb_app_True. tauto.
  - apply list_filter_iff. intros item. tauto.
  - apply list_filter_iff. intros item. tauto.
Qed.

(** X4. The filter ignores case on both sides: a query and its lower-cased
    form select the same items, and whether an item is selected depends on
    its lower-cased form only. An item is selected exactly when it is in
    the list and contains every token of the query, case ignored. *)
Theorem fuzzy_filter_ignores_case (query : string) (items : list string) :
  FuzzyList.fuzzy_filter (Py.lower query) items
  = FuzzyList.fuzzy_filter query items
  ∧ (∀ a b, Py.lower a = Py.lower b → passes query a = passes query b)
  ∧ (∀ item, item ∈ FuzzyList.fuzzy_filter query items
             ↔ item ∈ items ∧ passes query item).
Proof.
  split_and!.
  - rewrite !fuzzy_filter_eq. apply list_filter_iff. intros item.
    fold (passes (Py.lower query) item). fold (passes query item).
    by rewrite passes_lower.
  - intros a b Hab. unfold passes, ci_contains. by rewrite Hab.
  - apply elem_of_fuzzy_filter.
Qed.

(** ** Typing narrows the view *)

Section narrowing.
Import Py FuzzyList.

Lemma prefix_refl s : String.prefix s s = true.
Proof.
  induction s as [|c r IH]; [done|].
  by rewrite prefix_cons, bool_decide_true, IH.
Qed.

Lemma prefix_trans a : ∀ b c,
  String.prefix a b = true → String.prefix b c = true → String.prefix a c = true.
Proof.
  induction a as [|x a IH]; intros b c; [intros; apply prefix_empty|].
  destruct b as [|y b]; [done|]. destruct c as [|z c]; [done|].
  rewrite !prefix_cons, !andb_true_iff, !bool_decide_eq_true.
  intros [-> Hab] [-> Hbc]. split; [done|]. by apply IH with b.
Qed.

Lemma contains_prefix_mono t t' h :
  String.prefix t t' = true → contains t' h = true → contains t h = true.
Proof.
  intros Hp. induction h as [|c r IH]; cbn [contains];
    rewrite !orb_true_iff.
  - intros [H|?]; [|done]. left. by apply prefix_trans with t'.
  - intros [H|H]; [left; by apply prefix_trans with t' | right; by apply IH].
Qed.

(** The tokens of a text with one more character: each old token is the
    beginning of the new token at its place. *)
Lemma split_snoc c q :
  ∃ l1 l2,
    split (q +:+ String c EmptyString) = l1 ++ l2
    ∧ Forall2 (fun t t' => String.prefix t t' = true) (split q) l1.
Proof.
  induction q as [|a r IH].
  - exists [], (split (String c EmptyString)). by split; [|constructor].
  - destruct IH as (l1 & l2 & Hsplit & Hl1).
    rewrite append_String, !split_String.
    destruct (isspace a) eqn:Ha; [by exists l1, l2|].
    destruct r as [|b r'].
    + rewrite append_Empty. destruct (isspace c) eqn:Hc.
      * exists [String a EmptyString], (split (String c EmptyString)).
        split; [done|]. constructor; [apply prefix_refl | constructor].
      * rewrite split_String, Hc.
        exists [String a (String c EmptyString)], []. split; [done|].
        constructor; [|constructor].
        by rewrite prefix_cons, bool_decide_true, prefix_empty.
    + rewrite append_String. rewrite append_String in Hsplit.
      destruct (isspace b) eqn:Hb.
      * rewrite Hsplit. exists (String a EmptyString :: l1), l2.
        split; [done|]. constructor; [apply prefix_refl | done].
      * pose proof (split_head b r' Hb) as Hne. rewrite Hsplit.
        destruct (split (String b r')) as [|t ts]; [done|].
        inversion Hl1 as [|? t' ? l1' Ht Hts]; subst.
        exists (String a t' :: l1'), l2. split; [done|].
        constructor; [|done]. by rewrite prefix_cons, bool_decide_true, Ht.
Qed.

Lemma drop_last_snoc q c : drop_last (q +:+ String c EmptyString) = q.
Proof.
  induction q as [|x q IH]; [done|]. rewrite append_String. cbn [drop_last].
  rewrite IH. destruct q; by rewrite ?append_String, ?append_Empty.
Qed.

End narrowing.

(** ** The screen and its filter text *)

Section screen.
Import Py FuzzyList BaseScreen.

Lemma in_sync_step self ev : in_sync self → in_sync (screen_step self ev).
Proof.
  unfold in_sync, view. intros [Hf Hv]. destruct ev as [e| | |items]; simpl.
  - unfold on_key. destruct (String.eqb (key e) "backspace"); [done|].
    destruct (character e) as [ch|]; [|done].
    by destruct (negb (String.eqb ch EmptyString) && isprintable ch).
  - unfold move_up. by destruct (_ <? _)%Z.
  - unfold move_down. by destruct (_ <? _)%Z.
  - done.
Qed.

Lemma in_sync_after items fmt evs : in_sync (screen_after items fmt evs).
Proof.
  unfold screen_after.
  assert (in_sync (new_screen items fmt)) as H0 by done.
  revert H0. generalize (new_screen items fmt).
  induction evs as [|ev evs IH]; intros s Hs; [done|].
  apply IH. by apply in_sync_step.
Qed.

Lemma on_key_backspace self e :
  key e = "backspace" →
  on_key self e
  = {| BaseScreen._filter := drop_last (BaseScreen._filter self);
       fuzzy_list := set_filter (fuzzy_list self)
                       (drop_last (BaseScreen._filter self)) |}.
Proof. intros He. unfold on_key. by rewrite He. Qed.

Lemma on_key_typed self e c :
  key e ≠ "backspace" → character e = Some (String c EmptyString) →
  isprintable_char c = true →
  on_key self e
  = {| BaseScreen._filter := BaseScreen._filter self +:+ String c EmptyString;
       fuzzy_list := set_filter (fuzzy_list self)
                       (BaseScreen._filter self +:+ String c EmptyString) |}.
Proof.
  intros He Hch Hc. unfold on_key.
  destruct (String.eqb_spec (key e) "backspace") as [?|_]; [done|].
  rewrite Hch. cbn [String.eqb isprintable negb]. by rewrite Hc.
Qed.

(** A key that is not backspace leaves the text or appends to it. *)
Lemma on_key_other self e :
  key e ≠ "backspace" →
  on_key self e = self
  ∨ ∃ ch, on_key self e
          = {| BaseScreen._filter := BaseScreen._filter self +:+ ch;
               fuzzy_list := set_filter (fuzzy_list self)
                               (BaseScreen._filter self +:+ ch) |}.
Proof.
  intros He. unfold on_key.
  destruct (String.eqb_spec (key e) "backspace") as [?|_]; [done|].
  destruct (character e) as [ch|]; [|by left].
  destruct (negb (String.eqb ch EmptyString) && isprintable ch); [|by left].
  right. by exists ch.
Qed.

End screen.

(** X5. After any sequence of keys, cursor moves and refreshes on a newly
    mounted screen, the widget's filter text is the screen's filter text,
    and the view is the filter of the widget's source by that text. *)
Theorem screen_filter_in_sync (items : list string)
    (fmt : option (string → string)) (evs : list screen_event) :
  let self := screen_after items fmt evs in
  FuzzyList._filter (BaseScreen.fuzzy_list self) = BaseScreen._filter self
  ∧ view self
    = FuzzyList.fuzzy_filter (BaseScreen._filter self)
        (FuzzyList._all_items (BaseScreen.fuzzy_list self)).
Proof. apply in_sync_after. Qed.

(** X6. On a screen reached by any sequence of events, typing a printable
    character and then pressing backspace restores the filter text and the
    view; the cursor is left at 0. *)
Theorem type_then_backspace (items : list string)
    (fmt : option (string → string)) (evs : list screen_event)
    (c : ascii) (typed erase : BaseScreen.key_event) :
  Py.isprintable_char c = true →
  BaseScreen.key typed ≠ "backspace" →
  BaseScreen.character typed = Some (String c EmptyString) →
  BaseScreen.key erase = "backspace" →
  let self := screen_after items fmt evs in
  let self' := BaseScreen.on_key (BaseScreen.on_key self typed) erase in
  BaseScreen._filter self' = BaseScreen._filter self
  ∧ view self' = view self
  ∧ FuzzyList._cursor (BaseScreen.fuzzy_list self') = 0%Z.
Proof.
  intros Hc Ht Hch He self self'. subst self'.
  destruct (in_sync_after items fmt evs) as [_ Hv]. fold self in Hv.
  rewrite (on_key_typed self typed c Ht Hch Hc).
  rewrite (on_key_backspace _ erase He). cbn [BaseScreen._filter].
  rewrite drop_last_snoc. unfold view in *.
  cbn [BaseScreen.fuzzy_list FuzzyList.set_filter FuzzyList._filtered
       FuzzyList._all_items FuzzyList._cursor].
  by rewrite Hv.
Qed.

(** X6 on an example: typing [a] and erasing it. *)
Lemma type_then_backspace_witness :
  let self := screen_after ["alpha"; "beta"] None [] in
  let self' :=
    BaseScreen.on_key
      (BaseScreen.on_key self
         {| BaseScreen.key := "a"; BaseScreen.character := Some "a" |})
      {| BaseScreen.key := "backspace"; BaseScreen.character := None |} in
  BaseScreen._filter self' = BaseScreen._filter self ∧ view self' = view self.
Proof.
  destruct (type_then_backspace ["alpha"; "beta"] None [] "a"%char
              {| BaseScreen.key := "a"; BaseScreen.character := Some "a" |}
              {| BaseScreen.key := "backspace"; BaseScreen.character := None |})
    as (H1 & H2 & _); [reflexivity | discriminate | reflexivity | reflexivity |].
  split; [exact H1 | exact H2].
Defined.

Section narrowing_by_prefix.
Import Py FuzzyList BaseScreen.

Lemma prefix_append a : ∀ b,
  String.prefix a b = true → ∃ s, b = a +:+ s.
Proof.
  induction a as [|x a IH]; intros b; [by exists b|].
  destruct b as [|y b]; [done|].
  rewrite prefix_cons, andb_true_iff, bool_decide_eq_true.
  intros [-> (s & ->)%IH]. by exists s.
Qed.

Lemma blank_lower s : blank (lower s) = blank s.
Proof.
  induction s as [|c r IH]; [done|]. cbn [lower blank].
  by rewrite isspace_lower_char, IH.
Qed.

Lemma blank_append a s : blank (a +:+ s) = true → blank a = true.
Proof.
  induction a as [|c r IH]; [done|]. rewrite append_String. cbn [blank].
  rewrite !andb_true_iff. intros [? ?%IH]. done.
Qed.

(** The tokens of a beginning of a text are beginnings of its tokens. *)
Lemma tokens_snoc c q (h : string) :
  forallb (fun t => contains t h) (split (q +:+ String c EmptyString)) = true →
  forallb (fun t => contains t h) (split q) = true.
Proof.
  destruct (split_snoc c q) as (l1 & l2 & -> & Hl1).
  rewrite forallb_app, andb_true_iff. intros [H1 _]. clear l2.
  induction Hl1 as [|t t' ts l1 Ht Hts IH]; [done|].
  simpl in *. apply andb_true_iff in H1 as [Ht' H1].
  rewrite (IH H1), andb_true_r.
  by eapply contains_prefix_mono.
Qed.

Lemma tokens_append s : ∀ q (h : string),
  forallb (fun t => contains t h) (split (q +:+ s)) = true →
  forallb (fun t => contains t h) (split q) = true.
Proof.
  induction s as [|c s IH]; intros q h.
  - assert (q +:+ EmptyString = q) as ->; [|done].
    induction q as [|x q IHq]; [done|]. by rewrite append_String, IHq.
  - assert (q +:+ String c s = (q +:+ String c EmptyString) +:+ s) as ->
      by by rewrite append_assoc.
    intros H. by apply tokens_snoc with c, IH.
Qed.

(** A text whose lower-cased form begins with the lower-cased form of
    another selects no more than the other. *)
Lemma fuzzy_filter_lower_prefix q q' items :
  String.prefix (lower q) (lower q') = true →
  fuzzy_filter q' items `sublist_of` fuzzy_filter q items.
Proof.
  intros (s & Hs)%prefix_append. unfold fuzzy_filter at 2.
  destruct (String.eqb_spec (strip q) EmptyString) as [Hq|Hq].
  { rewrite fuzzy_filter_eq. apply sublist_filter. }
  unfold fuzzy_filter.
  destruct (String.eqb_spec (strip q') EmptyString) as [Hq'|Hq'].
  { exfalso. apply Hq, strip_empty. rewrite <-blank_lower.
    apply (blank_append _ s). rewrite <-Hs, blank_lower.
    by apply strip_empty. }
  cbv zeta. rewrite Hs.
  rewrite <-(list_filter_filter_l
               (fun item => forallb (fun t => contains t (lower item))
                              (split (lower q +:+ s)))
               (fun item => forallb (fun t => contains t (lower item))
                              (split (lower q)))).
  - apply sublist_filter.
  - intros item H. apply Is_true_true. apply Is_true_true in H.
    by apply (tokens_append s).
Qed.

End narrowing_by_prefix.

(** X7. On a screen reached by any sequence of events, a key that is not
    backspace never widens the view (the new view is a part of the old one,
    in order) and backspace never narrows it, whenever the lower-cased
    shorter filter text is the beginning of the lower-cased longer one.
    That condition holds for all text of this model; [str.lower] breaks it
    only where an added character changes how the characters before it are
    lower-cased. *)
Theorem typing_narrows_the_view (items : list string)
    (fmt : option (string → string)) (evs : list screen_event)
    (e : BaseScreen.key_event) :
  let self := screen_after items fmt evs in
  let self' := BaseScreen.on_key self e in
  (BaseScreen.key e ≠ "backspace" →
   String.prefix (Py.lower (BaseScreen._filter self))
     (Py.lower (BaseScreen._filter self')) = true →
   view self' `sublist_of` view self)
  ∧ (BaseScreen.key e = "backspace" →
     String.prefix (Py.lower (BaseScreen._filter self'))
       (Py.lower (BaseScreen._filter self)) = true →
     view self `sublist_of` view self').
Proof.
  intros self self'. destruct (in_sync_after items fmt evs) as [_ Hv].
  fold self in Hv. subst self'. split.
  - intros He. destruct (on_key_other self e He) as [->|[ch ->]]; [done|].
    cbn [BaseScreen._filter]. intros Hp.
    unfold view at 1. cbn [BaseScreen.fuzzy_list FuzzyList.set_filter
                             FuzzyList._filtered].
    rewrite Hv. by apply fuzzy_filter_lower_prefix.
  - intros He. rewrite (on_key_backspace self e He).
    cbn [BaseScreen._filter]. intros Hp.
    unfold view at 2. cbn [BaseScreen.fuzzy_list FuzzyList.set_filter
                             FuzzyList._filtered].
    rewrite Hv. by apply fuzzy_filter_lower_prefix.
Qed.

(** X7 on a screen of two items and the key [A]. *)
Lemma typing_narrows_the_view_witness :
  view (BaseScreen.on_key (screen_after ["ab"; "b"] None [])
          {| BaseScreen.key := "A"; BaseScreen.character := Some "A" |})
  `sublist_of` view (screen_after ["ab"; "b"] None []).
Proof.
  destruct (typing_narrows_the_view ["ab"; "b"] None []
              {| BaseScreen.key := "A"; BaseScreen.character := Some "A" |})
    as [H _].
  apply H; [discriminate | reflexivity].
Defined.

(** X8. [action_toggle_verb] never raises and always yields one of
    [build], [run], [test]; it takes [build] to [run], [run] to [test] and
    [test] to [build], and any other verb to [build]. *)
Theorem toggle_verb_cycles (verb : string) :
  ∃ next,
    BaseScreen.action_toggle_verb verb = Returns next
    ∧ next ∈ ["build"; "run"; "test"]
    ∧ (verb = "build" → next = "run")
    ∧ (verb = "run" → next = "test")
    ∧ (verb = "test" → next = "build")
    ∧ (verb ∉ ["build"; "run"; "test"] → next = "build").
Proof.
  unfold BaseScreen.action_toggle_verb. cbn [Py.index].
  destruct (String.eqb_spec "build" verb) as [<-|H1].
  { exists "run". split_and!; try done; set_solver. }
  destruct (String.eqb_spec "run" verb) as [<-|H2].
  { exists "test". split_and!; try done; set_solver. }
  destruct (String.eqb_spec "test" verb) as [<-|H3].
  { exists "build". split_and!; try done; set_solver. }
  exists "build". split_and!; try done; set_solver.
Qed.

(** ** The output parser, continued *)

Section parser_more.
Import Py Bazel.

Lemma lexical_le_antisym : AntiSymm eq lexical_le.
Proof.
  intros a b Hab Hba. unfold lexical_le in *.
  destruct (decide (a = b)) as [|Hne]; [done|].
  pose proof (str_lt_total _ _ Hne Hab). congruence.
Qed.

Lemma sorted_str_perm l l' : l ≡ₚ l' → sorted str_lt l = sorted str_lt l'.
Proof.
  intros Hp.
  apply (@StronglySorted_unique _ lexical_le lexical_le_antisym).
  - apply sorted_str_StronglySorted.
  - apply sorted_str_StronglySorted.
  - by rewrite !(sorted_perm str_lt).
Qed.

Lemma sorted_str_strict l : NoDup l → StronglySorted lexical_lt (sorted str_lt l).
Proof.
  intros Hnd. apply Sorted_StronglySorted; [intros a b c; apply str_lt_trans|].
  assert (NoDup (sorted str_lt l)) as Hnd' by by rewrite (sorted_perm str_lt).
  pose proof (sorted_Sorted str_lt str_lt_asym l) as Hs.
  induction Hs as [|a l' Hl IH Hhd]; [constructor|].
  apply NoDup_cons in Hnd' as [Ha Hnd'].
  constructor; [by apply IH|].
  destruct Hhd as [|b l' Hba]; constructor.
  apply str_lt_total; [|done]. intros ->. apply Ha. by left.
Qed.

Lemma lt_not_elem_of k (ks : list string) :
  Forall (lexical_lt k) ks → k ∉ ks.
Proof.
  intros Hall Hin. rewrite Forall_forall in Hall. specialize (Hall k Hin).
  unfold lexical_lt in Hall. pose proof (str_lt_asym _ _ Hall). congruence.
Qed.

(** Two dictionaries with strictly ascending keys and the same lookups. *)
Lemma sorted_dict_ext {V} (d1 : dict V) : ∀ d2 : dict V,
  StronglySorted lexical_lt d1.*1 → StronglySorted lexical_lt d2.*1 →
  (∀ k, dict_get d1 k = dict_get d2 k) → d1 = d2.
Proof.
  induction d1 as [|[k1 v1] d1 IH]; intros [|[k2 v2] d2] Hs1 Hs2 Hget.
  - done.
  - specialize (Hget k2). simpl in Hget. by rewrite String.eqb_refl in Hget.
  - specialize (Hget k1). simpl in Hget. by rewrite String.eqb_refl in Hget.
  - rewrite fmap_cons in Hs1, Hs2.
    apply StronglySorted_inv in Hs1 as [Hs1 Hk1].
    apply StronglySorted_inv in Hs2 as [Hs2 Hk2]. simpl in Hk1, Hk2.
    assert (k1 = k2) as <-.
    { destruct (decide (k1 = k2)) as [|Hne]; [done|]. exfalso.
      pose proof (Hget k1) as G1. pose proof (Hget k2) as G2. simpl in G1, G2.
      rewrite String.eqb_refl in G1, G2.
      destruct (String.eqb_spec k2 k1) as [|_]; [done|].
      destruct (String.eqb_spec k1 k2) as [|_]; [done|].
      assert (k1 ∈ d2.*1) as H1.
      { destruct (decide (k1 ∈ d2.*1)) as [|Hn]; [done|].
        apply dict_get_None in Hn. congruence. }
      assert (k2 ∈ d1.*1) as H2.
      { destruct (decide (k2 ∈ d1.*1)) as [|Hn]; [done|].
        apply dict_get_None in Hn. congruence. }
      rewrite Forall_forall in Hk1, Hk2.
      pose proof (Hk1 _ H2) as L1. pose proof (Hk2 _ H1) as L2.
      unfold lexical_lt in *. pose proof (str_lt_asym _ _ L1). congruence. }
    pose proof (Hget k1) as G. simpl in G. rewrite String.eqb_refl in G.
    injection G as <-. f_equal. apply IH; [done..|].
    intros k. destruct (decide (k = k1)) as [->|Hne].
    + rewrite (proj2 (dict_get_None d1 k1)) by by apply lt_not_elem_of.
      by rewrite (proj2 (dict_get_None d2 k1)) by by apply lt_not_elem_of.
    + specialize (Hget k). simpl in Hget.
      by destruct (String.eqb_spec k1 k) as [->|_].
Qed.

Lemma index_get text ns :
  dict_get (prod_map id (sorted str_lt)
              <$> sorted item_lt (accumulate (cut <$> kept_lines text) [])) ns
  = if decide (ns ∈ (cut <$> kept_lines text).*1)
    then Some (sorted str_lt (items_in ns (cut <$> kept_lines text)))
    else None.
Proof.
  set (idx := prod_map id (sorted str_lt) <$> _).
  assert (ns ∈ idx.*1 ↔ ns ∈ (cut <$> kept_lines text).*1) as Hkeys.
  { subst idx. rewrite index_keys, (sorted_perm item_lt), accumulate_keys.
    split; [by intros [?%elem_of_nil|?] | by right]. }
  pose proof (index_items text ns) as Hitems. fold idx in Hitems.
  unfold items_of in Hitems.
  destruct (decide (ns ∈ (cut <$> kept_lines text).*1)) as [Hin|Hin].
  - destruct (dict_get idx ns) as [v|] eqn:E; [simpl in Hitems; by subst|].
    apply dict_get_None in E. tauto.
  - apply dict_get_None. tauto.
Qed.

End parser_more.

(** X9. The parser returns the empty index exactly when the text has no
    significant line: the condition under which [main] reports that no
    targets were found. *)
Theorem parse_empty_iff (text : string) :
  Bazel.parse_query_output text = Returns [] ↔ kept_lines text = [].
Proof.
  rewrite parse_query_output_eq. split.
  - intros [= H]. apply fmap_nil_inv in H.
    assert (accumulate (cut <$> kept_lines text) [] = []) as Hacc.
    { pose proof (sorted_perm Py.item_lt
                    (accumulate (cut <$> kept_lines text) [])) as Hsp.
      rewrite H in Hsp. by apply Permutation.Permutation_nil in Hsp. }
    destruct (kept_lines text) as [|line lines]; [done|]. exfalso.
    assert ((cut line).1 ∈ (accumulate (cut <$> line :: lines) []).*1) as Hin.
    { apply accumulate_keys. right. rewrite fmap_cons. simpl. by left. }
    rewrite Hacc in Hin. by apply elem_of_nil in Hin.
  - by intros ->.
Qed.

(** X10. The index does not depend on the order of the lines: two texts
    whose significant lines are the same up to order (each as often) parse
    to the same index. *)
Theorem parse_ignores_line_order (text1 text2 : string) :
  kept_lines text1 ≡ₚ kept_lines text2 →
  Bazel.parse_query_output text1 = Bazel.parse_query_output text2.
Proof.
  intros Hp. rewrite !parse_query_output_eq. f_equal.
  apply sorted_dict_ext.
  - rewrite index_keys. apply sorted_items_keys, accumulate_NoDup. constructor.
  - rewrite index_keys. apply sorted_items_keys, accumulate_NoDup. constructor.
  - intros k. rewrite !index_get.
    assert ((cut <$> kept_lines text1) ≡ₚ (cut <$> kept_lines text2)) as Hc
      by by rewrite Hp.
    destruct (decide (k ∈ (cut <$> kept_lines text1).*1)) as [H1|H1].
    + rewrite decide_True by by rewrite <-Hc.
      f_equal. apply sorted_str_perm. unfold items_in. by rewrite Hc.
    + by rewrite decide_False by by rewrite <-Hc.
Qed.

(** X10 on two lines in either order. *)
Lemma parse_ignores_line_order_witness :
  Bazel.parse_query_output ("//b:y" +:+ Py.LF +:+ "//a:x")
  = Bazel.parse_query_output ("//a:x" +:+ Py.LF +:+ "//b:y").
Proof.
  apply parse_ignores_line_order. vm_compute. apply Permutation_swap.
Defined.

(** ** Kind enumeration and the query runners *)

Section kinds.
Import Py Bazel.

Lemma split_on_head sep s :
  ∃ f fs,
    split_on sep s = f :: fs
    ∧ contains (String sep EmptyString) f = false
    ∧ (contains (String sep EmptyString) s = true →
       ∃ rest, s = f +:+ String sep rest).
Proof.
  induction s as [|c r IH].
  - by exists EmptyString, [].
  - destruct IH as (f & fs & Hsplit & Hf & Hrest). cbn [split_on].
    destruct (Ascii.eqb_spec c sep) as [->|Hne].
    + exists EmptyString, (split_on sep r). split_and!; [done..|].
      intros _. by exists r.
    + rewrite Hsplit. exists (String c f), fs. split_and!; [done| |].
      * cbn [contains]. rewrite prefix_char, Hf.
        by rewrite bool_decide_false by done.
      * cbn [contains]. rewrite prefix_char, bool_decide_false by done.
        intros Hr. destruct (Hrest Hr) as [rest ->]. by exists rest.
Qed.

Lemma kind_of_first_field line :
  contains " " line = true → first_field line (kind_of line).
Proof.
  intros Hc. unfold kind_of, first_field.
  destruct (split_on_head " " line) as (f & fs & -> & Hf & Hrest).
  simpl. split; [done|]. by apply Hrest.
Qed.

Lemma first_field_unique line k k2 :
  first_field line k → first_field line k2 → k = k2.
Proof.
  intros [Hk [r ->]] [Hk2 [r2 Heq]]. revert k2 Hk2 Heq.
  induction k as [|c k IH]; intros [|c2 k2] Hk2 Heq; try done.
  - rewrite append_Empty, append_String in Heq. injection Heq as <- _.
    cbn [contains] in Hk2. rewrite prefix_char, bool_decide_true in Hk2; done.
  - rewrite append_Empty, append_String in Heq. injection Heq as -> _.
    cbn [contains] in Hk. rewrite prefix_char, bool_decide_true in Hk; done.
  - rewrite !append_String in Heq. injection Heq as <- Heq.
    cbn [contains] in Hk, Hk2. apply orb_false_iff in Hk as [_ Hk].
    apply orb_false_iff in Hk2 as [_ Hk2]. f_equal. by apply IH.
Qed.

Lemma add_kind_eq kinds line :
  add_kind kinds line
  = Returns (if contains " " line then {[kind_of line]} ∪ kinds else kinds).
Proof.
  unfold add_kind, kind_of. destruct (contains " " line); [|done].
  by destruct (split_on_head " " line) as (f & fs & -> & _).
Qed.

Lemma for_each_add_kind lines : ∀ kinds : gset string,
  ∃ found, for_each add_kind lines kinds = Returns found
    ∧ ∀ k, k ∈ found ↔
           k ∈ kinds
           ∨ ∃ line, line ∈ lines ∧ contains " " line = true ∧ kind_of line = k.
Proof.
  induction lines as [|line lines IH]; intros kinds.
  - exists kinds. split; [done|]. intros k. split; [by left|].
    by intros [?|(? & ?%elem_of_nil & _)].
  - cbn [for_each]. rewrite add_kind_eq.
    destruct (IH (if contains " " line then {[kind_of line]} ∪ kinds else kinds))
      as (found & -> & Hk).
    exists found. split; [done|]. intros k. rewrite Hk. clear Hk.
    destruct (contains " " line) eqn:Hc.
    + rewrite elem_of_union, elem_of_singleton. split.
      * intros [[->|?]|(l & Hl & ? & ?)]; [right | by left | right].
        -- exists line. split_and!; [by left | done..].
        -- exists l. split_and!; [by right | done..].
      * intros [?|(l & [->|Hl]%elem_of_cons & ? & ?)];
          [by left; right | by left; left | right; by exists l].
    + split.
      * intros [?|(l & Hl & ? & ?)]; [by left|].
        right. exists l. split_and!; [by right | done..].
      * intros [?|(l & [->|Hl]%elem_of_cons & ? & ?)];
          [by left | congruence | right; by exists l].
Qed.

(** The kinds that both [query_all_kinds] functions make of an output. *)
Lemma kinds_of_output out :
  ∃ kinds,
    bind_outcome (for_each add_kind (splitlines out) ∅)
      (fun kinds => Returns (sorted_set kinds)) = Returns kinds
    ∧ (∀ k, k ∈ kinds ↔ ∃ line, line ∈ splitlines out ∧ first_field line k)
    ∧ StronglySorted lexical_lt kinds
    ∧ Forall (fun k => contains " " k = false) kinds.
Proof.
  destruct (for_each_add_kind (splitlines out) ∅) as (S & -> & HS).
  exists (sorted_set S). cbn [bind_outcome]. split; [done|].
  assert (∀ k, k ∈ sorted_set S ↔
               ∃ line, line ∈ splitlines out ∧ first_field line k) as Hmem.
  { intros k. unfold sorted_set.
    rewrite (sorted_perm str_lt), elem_of_elements, HS. split.
    - intros [?%not_elem_of_empty|(line & Hl & Hc & <-)]; [done|].
      exists line. split; [done|]. by apply kind_of_first_field.
    - intros (line & Hl & Hk). right. exists line.
      assert (contains " " line = true) as Hc.
      { destruct Hk as [_ [rest ->]]. clear.
        induction k as [|c k IH].
        - rewrite append_Empty, append_String, append_Empty. cbn [contains].
          by rewrite prefix_char, bool_decide_true.
        - rewrite append_String. cbn [contains]. by rewrite IH, orb_true_r. }
      split_and!; [done..|].
      by apply (first_field_unique line); [apply kind_of_first_field|]. }
  split_and!; [done | |].
  - apply sorted_str_strict, NoDup_elements.
  - apply Forall_forall. intros k (line & _ & Hk & _)%Hmem. done.
Qed.

End kinds.

(** X11. [query_all_kinds_local] and [query_all_kinds_ssh] raise exactly
    when [subprocess.run] raises, and then what it raises. When the process
    completes with a non-zero exit code they return no kinds. Otherwise they
    return, in strictly ascending order and so without repetition, exactly
    the texts before the first space of the output lines that contain a
    space; no kind contains a space. *)
Theorem query_all_kinds_correct (run : list string → outcome Bazel.completed)
    (cfg : Ssh.SSHConfig) (scope : string) :
  let characterised (ran : outcome Bazel.completed)
        (answer : outcome (list string)) :=
    match ran with
    | Raises e => answer = Raises e
    | Returns result =>
        ∃ kinds,
          answer = Returns kinds
          ∧ (Bazel.returncode result ≠ 0%Z → kinds = [])
          ∧ (Bazel.returncode result = 0%Z →
             ∀ k, k ∈ kinds ↔
                  ∃ line, line ∈ Py.splitlines (Bazel.stdout result)
                          ∧ first_field line k)
          ∧ StronglySorted lexical_lt kinds
          ∧ Forall (fun k => Py.contains " " k = false) kinds
    end in
  characterised (run ["bazel"; "query"; scope; "--output"; "label_kind"])
    (Bazel.query_all_kinds_local run scope)
  ∧ characterised (run (Ssh.build_all_kinds_query_cmd cfg scope))
      (Bazel.query_all_kinds_ssh run cfg scope).
Proof.
  assert (∀ result : Bazel.completed,
            ∃ kinds,
              (if negb (Bazel.returncode result =? 0)%Z then Returns []
               else bind_outcome
                      (for_each Bazel.add_kind
                         (Py.splitlines (Bazel.stdout result)) ∅)
                      (fun kinds => Returns (Bazel.sorted_set kinds)))
              = Returns kinds
              ∧ (Bazel.returncode result ≠ 0%Z → kinds = [])
              ∧ (Bazel.returncode result = 0%Z →
                 ∀ k, k ∈ kinds ↔
                      ∃ line, line ∈ Py.splitlines (Bazel.stdout result)
                              ∧ first_field line k)
              ∧ StronglySorted lexical_lt kinds
              ∧ Forall (fun k => Py.contains " " k = false) kinds) as H.
  { intros result. destruct (Z.eqb_spec (Bazel.returncode result) 0) as [Hz|Hz].
    - destruct (kinds_of_output (Bazel.stdout result)) as (kinds & -> & ? & ? & ?).
      exists kinds. by split_and!.
    - exists []. split_and!; [done | done | done | constructor | constructor]. }
  intros characterised. unfold characterised.
  unfold Bazel.query_all_kinds_local, Bazel.query_all_kinds_ssh. cbv zeta.
  split.
  - destruct (run ["bazel"; "query"; scope; "--output"; "label_kind"])
      as [result|e]; [apply H | done].
  - destruct (run (Ssh.build_all_kinds_query_cmd cfg scope))
      as [result|e]; [apply H | done].
Qed.

(** X12. With a non-empty list of kinds, [query_local] and [query_ssh]
    raise what [subprocess.run] raises when it raises; when the process
    completes they return its output on exit code 0 and otherwise raise a
    [RuntimeError] whose message is the trimmed [stderr], or the fixed
    fallback text when [stderr] is blank, so never empty. With an empty
    list of kinds they raise [IndexError] and run no process. *)
Theorem query_runners_correct (run : list string → outcome Bazel.completed)
    (cfg : Ssh.SSHConfig) (scope : string) (kinds : list string) :
  (kinds = [] →
   Bazel.query_local run scope kinds = Raises IndexError
   ∧ Bazel.query_ssh run cfg scope kinds = Raises IndexError)
  ∧ (kinds ≠ [] →
     ∃ local remote,
       Bazel.query_local_cmd scope kinds = Returns local
       ∧ Ssh.build_query_cmd cfg scope kinds = Returns remote
       ∧ Bazel.query_local run scope kinds
         = bind_outcome (run local)
             (fun result => query_result result "bazel query failed")
       ∧ Bazel.query_ssh run cfg scope kinds
         = bind_outcome (run remote)
             (fun result => query_result result "remote bazel query failed")
       ∧ ∀ result fallback msg,
           fallback ≠ EmptyString →
           query_result result fallback = Raises (RuntimeError msg) →
           msg ≠ EmptyString).
Proof.
  split; [by intros ->|]. intros Hne.
  assert (∀ result fallback,
            (if negb (Bazel.returncode result =? 0)%Z
             then Raises (RuntimeError
                            (Bazel.str_or (Py.strip (Bazel.stderr result)) fallback))
             else Returns (Bazel.stdout result))
            = query_result result fallback) as Hq.
  { intros result fallback. unfold query_result, Bazel.str_or.
    destruct (Z.eqb_spec (Bazel.returncode result) 0) as [Hz|Hz].
    - by rewrite decide_True.
    - rewrite decide_False by done. simpl. do 2 f_equal.
      destruct (String.eqb_spec (Py.strip (Bazel.stderr result)) EmptyString)
        as [He|He].
      + by rewrite (proj1 (strip_empty _) He).
      + destruct (blank (Bazel.stderr result)) eqn:Hb; [|done].
        by apply strip_empty in Hb. }
  unfold Bazel.query_local, Bazel.query_ssh, Bazel.query_local_cmd,
    Ssh.build_query_cmd.
  rewrite !kind_expr_join by done. cbn [bind_outcome].
  eexists _, _. split_and!; [done | done | | |].
  - destruct (run _) as [result|e]; [apply Hq | done].
  - destruct (run _) as [result|e]; [apply Hq | done].
  - intros result fallback msg Hf. unfold query_result.
    case_decide; [done|]. intros [= <-].
    destruct (blank (Bazel.stderr result)) eqn:Hb; [done|].
    intros He. apply strip_empty in He. congruence.
Qed.

(** X12 on a failed process whose error text has blanks around it. *)
Lemma query_runners_correct_witness :
  Bazel.query_local
    (fun _ => Returns {| Bazel.returncode := 1; Bazel.stdout := EmptyString;
                         Bazel.stderr := "  no such package  " |})
    "//..." ["genrule"]
  = Raises (RuntimeError "no such package").
Proof.
  destruct (query_runners_correct
              (fun _ => Returns {| Bazel.returncode := 1;
                                   Bazel.stdout := EmptyString;
                                   Bazel.stderr := "  no such package  " |})
              {| Ssh.host := "h"; Ssh.remote_dir := "/d" |} "//..." ["genrule"])
    as [_ H].
  destruct (H ltac:(discriminate)) as (local & remote & _ & _ & Hq & _).
  exact Hq.
Defined.

(** ** The cache key *)

Section cache_key.
Import Py Bazel Hashlib.

Lemma length_be_bytes n x : length (be_bytes n x) = n.
Proof. induction n as [|n IH]; simpl; [done | by rewrite IH]. Qed.

Lemma be_bytes_small n x : Forall (fun b => (b < 256)%N) (be_bytes n x).
Proof.
  induction n as [|n IH]; simpl; constructor; [|done].
  change 255%N with (N.ones 8). rewrite N.land_ones.
  apply N.mod_lt. done.
Qed.

Lemma length_sha1 msg : length (sha1 msg) = 20%nat.
Proof.
  unfold sha1. destruct (chunks _ _ _) as [[[[h0 h1] h2] h3] h4].
  by rewrite !length_app, !length_be_bytes.
Qed.

Lemma sha1_small msg : Forall (fun b => (b < 256)%N) (sha1 msg).
Proof.
  unfold sha1. destruct (chunks _ _ _) as [[[[h0 h1] h2] h3] h4].
  rewrite !Forall_app. split_and!; apply be_bytes_small.
Qed.

Lemma hex_digit_is_hex n : (n < 16)%N → is_hex_digit (hex_digit n) = true.
Proof.
  intros Hn.
  assert (n = 0 ∨ n = 1 ∨ n = 2 ∨ n = 3 ∨ n = 4 ∨ n = 5 ∨ n = 6 ∨ n = 7
          ∨ n = 8 ∨ n = 9 ∨ n = 10 ∨ n = 11 ∨ n = 12 ∨ n = 13 ∨ n = 14
          ∨ n = 15)%N as Hcases by lia.
  repeat (destruct Hcases as [->|Hcases]; [reflexivity|]).
  subst n. reflexivity.
Qed.

Lemma length_hex bs : String.length (hex bs) = (2 * length bs)%nat.
Proof. induction bs as [|b bs IH]; simpl; [done|]. rewrite IH. lia. Qed.

Lemma hex_is_hex bs :
  Forall (fun b => (b < 256)%N) bs → every is_hex_digit (hex bs) = true.
Proof.
  induction 1 as [|b bs Hb Hbs IH]; simpl; [done|].
  rewrite IH, andb_true_r, !hex_digit_is_hex; [done | |].
  - apply N.mod_lt. done.
  - apply N.Div0.div_lt_upper_bound. lia.
Qed.

Lemma length_substring_0 n : ∀ s,
  (n ≤ String.length s)%nat → String.length (String.substring 0 n s) = n.
Proof.
  induction n as [|n IH]; intros [|c s] Hn; simpl in *; try done; try lia.
  rewrite IH; [done | lia].
Qed.

Lemma every_substring_0 p n : ∀ s,
  every p s = true → every p (String.substring 0 n s) = true.
Proof.
  induction n as [|n IH]; intros [|c s]; simpl; try done.
  intros [-> Hs]%andb_true_iff. by rewrite IH.
Qed.

End cache_key.

(** X13. The cache key of any host, scope and kinds is 16 characters long
    and made of the digits [0-9a-f]: every record has a file name of the
    same fixed length. *)
Theorem cache_key_format (host : option string) (scope : string)
    (kinds : list string) :
  String.length (Bazel._cache_key host scope kinds) = 16%nat
  ∧ every is_hex_digit (Bazel._cache_key host scope kinds) = true.
Proof.
  unfold Bazel._cache_key, Hashlib.sha1_hexdigest. split.
  - apply length_substring_0. rewrite length_hex, length_sha1. lia.
  - apply every_substring_0, hex_is_hex, sha1_small.
Qed.

(** X14. The cache key does not depend on the order in which the kinds are
    given, and an absent host, an empty host and the host [local] have the
    same key: such reads and writes share one record. *)
Theorem cache_key_ignores_order (host : option string) (scope : string)
    (kinds kinds' : list string) :
  kinds ≡ₚ kinds' →
  Bazel._cache_key host scope kinds = Bazel._cache_key host scope kinds'
  ∧ cache_file host scope kinds = cache_file host scope kinds'
  ∧ Bazel._cache_key None scope kinds = Bazel._cache_key (Some EmptyString) scope kinds
  ∧ Bazel._cache_key None scope kinds = Bazel._cache_key (Some "local") scope kinds.
Proof.
  intros Hp. unfold cache_file, Bazel._cache_key.
  rewrite (sorted_str_perm _ _ Hp). unfold Bazel.or_local.
  cbn [String.eqb]. repeat split; reflexivity.
Qed.

(** X14 on two kinds in either order. *)
Lemma cache_key_ignores_order_witness :
  Bazel._cache_key None "//..." ["sh_test"; "genrule"]
  = Bazel._cache_key None "//..." ["genrule"; "sh_test"].
Proof.
  destruct (cache_key_ignores_order None "//..." ["sh_test"; "genrule"]
              ["genrule"; "sh_test"] (Permutation_swap "genrule" "sh_test" []))
    as [H _].
  exact H.
Defined.

(** ** What the cache operations change *)

Section cache_frame.
Import Py Json Pathlib Bazel.

Lemma only_adds_dirs_refl (p : path) (t : tree) : only_adds_dirs p t t.
Proof. intros q. by left. Qed.

Lemma only_adds_dirs_trans (p : path) (t1 t2 t3 : tree) :
  only_adds_dirs p t1 t2 → only_adds_dirs p t2 t3 → only_adds_dirs p t1 t3.
Proof.
  intros H12 H23 q. destruct (H12 q) as [E12|(N1 & D2 & Hs & Hq)];
    destruct (H23 q) as [E23|(N2 & D3 & Hs' & Hq')].
  - left. congruence.
  - right. split_and!; [congruence | done | done | done].
  - right. split_and!; [done | congruence | done | done].
  - congruence.
Qed.

Lemma only_adds_dirs_parent (c : string) (p : path) (t t' : tree) :
  only_adds_dirs p t t' → only_adds_dirs (c :: p) t t'.
Proof.
  intros H q. destruct (H q) as [?|(? & ? & ? & ?)]; [by left|].
  right. split_and!; [done..| |done]. by apply suffix_cons_r.
Qed.

Lemma os_mkdir_adds (p : path) (t t' : tree) (r : outcome unit) :
  os_mkdir p t = (t', r) → only_adds_dirs p t t'.
Proof.
  unfold os_mkdir. intros H q.
  destruct p as [|c p]; [simpl in H; simplify_eq; by left|].
  change (stat t (c :: p)) with (t !! (c :: p)) in H.
  destruct (t !! (c :: p)) eqn:E; [simplify_eq; by left|].
  destruct (stat t (tail (c :: p))) as [[|?]|]; simplify_eq; try by left.
  destruct (decide (q = c :: p)) as [->|Hq].
  - right. by rewrite lookup_insert_eq.
  - left. by rewrite lookup_insert_ne.
Qed.

Lemma mkdir_exist_ok_adds (p : path) (t t' : tree) (r : outcome unit) :
  mkdir_exist_ok p t = (t', r) → only_adds_dirs p t t'.
Proof.
  unfold mkdir_exist_ok. intros H.
  destruct (os_mkdir p t) as [t1 r1] eqn:E.
  apply os_mkdir_adds in E.
  repeat case_match; by simplify_eq.
Qed.

Lemma mkdir_parents_adds (p : path) : ∀ (t t' : tree) (r : outcome unit),
  mkdir_parents p t = (t', r) → only_adds_dirs p t t'.
Proof.
  induction p as [|c parent IH]; intros t t' r H.
  - simpl in H. simplify_eq. apply only_adds_dirs_refl.
  - cbn [mkdir_parents] in H.
    destruct (os_mkdir (c :: parent) t) as [t1 r1] eqn:E.
    apply os_mkdir_adds in E.
    destruct r1 as [[]|e]; [by simplify_eq|].
    destruct (mkdir_parents parent t1) as [t2 r2] eqn:E2.
    apply IH, (only_adds_dirs_parent c) in E2.
    destruct (mkdir_exist_ok (c :: parent) t2) as [t3 r3] eqn:E3.
    apply mkdir_exist_ok_adds in E3.
    pose proof (only_adds_dirs_trans _ _ _ _ E E2) as E12.
    pose proof (only_adds_dirs_trans _ _ _ _ E12 E3) as E13.
    destruct e; repeat case_match; by simplify_eq.
Qed.

(** The tree that a read leaves. *)
Lemma load_cache_tree (now : Q) (host : option string) (scope : string)
    (kinds : list string) (ttl : Z) (t : tree) :
  (load_cache now host scope kinds ttl t).1
  = if (ttl <=? 0)%Z then t else (mkdir_parents _CACHE_DIR t).1.
Proof.
  destruct (Z.leb_spec ttl 0) as [Hle|Hpos].
  - by rewrite load_cache_skips.
  - destruct (mkdir_parents _CACHE_DIR t) as [t1 [[]|e]] eqn:E.
    + rewrite load_cache_eq; [|done|]; unfold root_usable, with_root;
        by rewrite E.
    + unfold load_cache. rewrite (proj2 (Z.leb_gt ttl 0) Hpos).
      unfold bind at 1. unfold _cache_path, bind. by rewrite E.
Qed.

Lemma load_cache_usable (now : Q) (host : option string) (scope : string)
    (kinds : list string) (ttl : Z) (t : tree) (r : option CacheEntry) :
  (0 < ttl)%Z →
  (load_cache now host scope kinds ttl t).2 = Returns r → root_usable t.
Proof.
  intros Hpos Hr. unfold root_usable.
  destruct (mkdir_parents _CACHE_DIR t) as [t1 [[]|e]] eqn:E; [done|].
  rewrite (load_cache_root_error now host scope kinds ttl t e Hpos) in Hr;
    [done | by rewrite E].
Qed.

Lemma save_usable (now : Q) (host : option string) (scope : string)
    (kinds : list string) (tgts : value) (t : tree) :
  root_usable t →
  root_usable (save_cache now host scope kinds tgts t).1
  ∧ with_root (save_cache now host scope kinds tgts t).1
    = (save_cache now host scope kinds tgts t).1.
Proof.
  intros Hroot. apply is_dir_root_usable.
  rewrite (save_cache_eq _ _ _ _ _ _ Hroot). cbn [fst].
  pose proof (with_root_is_dir _ Hroot).
  destruct (stat t _) as [[|x]|]; try done;
    by apply is_dir_insert_file; [apply cache_file_not_root|].
Qed.

Lemma fresh_entry_mono (now now' : Q) (ttl ttl' : Z) n e :
  (ttl ≤ ttl')%Z → (now' <= now)%Q →
  fresh_entry now ttl n = Some e → fresh_entry now' ttl' n = Some e.
Proof.
  intros Httl Hnow. unfold fresh_entry.
  destruct n as [n|]; [|done]. destruct (deserialize n) as [rec|]; [|done].
  destruct (ne_int _ _); [done|].
  destruct (Qle_bool (now - captured_at rec) (inject_Z ttl)) eqn:E; [|done].
  cbn [negb]. intros [= <-].
  assert (Qle_bool (now' - captured_at rec) (inject_Z ttl') = true) as ->; [|done].
  apply Qle_bool_iff. apply Qle_bool_iff in E.
  assert (inject_Z ttl <= inject_Z ttl')%Q by by rewrite <-Zle_Qle.
  lra.
Qed.

End cache_frame.

(** X15. A read changes no node of the file tree and removes none: the
    only nodes that the tree after a read has more are the cache root and
    its parent, as directories. No record is ever changed by a read. *)
Theorem load_cache_only_adds_root (now : Q) (host : option string)
    (scope : string) (kinds : list string) (ttl : Z) (t : Pathlib.tree)
    (q : Pathlib.path) :
  (Bazel.load_cache now host scope kinds ttl t).1 !! q = t !! q
  ∨ (t !! q = None
     ∧ (Bazel.load_cache now host scope kinds ttl t).1 !! q = Some Pathlib.Dir
     ∧ (q = Bazel._CACHE_DIR ∨ q = [".cache"])).
Proof.
  rewrite load_cache_tree. destruct (ttl <=? 0)%Z; [by left|].
  destruct (mkdir_parents_adds Bazel._CACHE_DIR t _ _
              (surjective_pairing _) q) as [?|(? & ? & Hs & Hq)]; [by left|].
  right. split_and!; [done..|].
  destruct q as [|c q]; [done|].
  apply suffix_cons_inv in Hs as [?|Hs]; [by left|].
  apply suffix_cons_inv in Hs as [?|Hs]; [by right|].
  by apply suffix_nil_inv in Hs.
Qed.






Lemma length_append (a b : string) :
  String.length (a +:+ b) = String.length a + String.length b.
Proof.
  induction a as [|x a IH]; [done|].
  rewrite append_String. simpl. by rewrite IH.
Qed.

Lemma append_cancel_r (c : string) :
  ∀ a b : string, a +:+ c = b +:+ c → a = b.
Proof.
  induction a as [|x a IH]; intros [|y b] H; [done | | |].
  - apply (f_equal String.length) in H.
    rewrite !length_append in H. simpl in H. lia.
  - apply (f_equal String.length) in H.
    rewrite !length_append in H. simpl in H. lia.
  - rewrite !append_String in H. injection H as -> H.
    f_equal. by apply IH.
Qed.

(** X18. Records of different keys do not interfere: a write for one key
    leaves what a read for a key with another cache key returns. *)
Theorem save_cache_other_key (now now' : Q) (host host' : option string)
    (scope scope' : string) (kinds kinds' : list string) (tgts : Json.value)
    (ttl : Z) (t : Pathlib.tree) :
  root_usable t →
  Bazel._cache_key host scope kinds ≠ Bazel._cache_key host' scope' kinds' →
  (Bazel.load_cache now' host' scope' kinds' ttl
     (Bazel.save_cache now host scope kinds tgts t).1).2
  = (Bazel.load_cache now' host' scope' kinds' ttl t).2.
Proof.
  intros Hroot Hkeys. destruct (Z.leb_spec ttl 0) as [Hle|Hpos].
  - by rewrite !load_cache_skips.
  - destruct (save_usable now host scope kinds tgts t Hroot) as [Hroot1 _].
    rewrite !load_cache_eq by done. cbn [snd]. do 2 f_equal.
    rewrite (save_cache_eq _ _ _ _ _ _ Hroot). cbn [fst].
    rewrite <-(with_root_file t host' scope' kinds').
    assert (cache_file host scope kinds ≠ cache_file host' scope' kinds') as Hp.
    { unfold cache_file. intros [= H]. apply Hkeys.
      by apply append_cancel_r in H. }
    destruct (Pathlib.stat t (cache_file host scope kinds)) as [[|x]|];
      rewrite ?stat_cache_file, ?lookup_insert_ne; done.
Qed.

(** X18 on the keys of two scopes. *)
Lemma save_cache_other_key_witness :
  (Bazel.load_cache 0 None "//b/..." ["genrule"] 60
     (Bazel.save_cache 0 None "//a/..." ["genrule"] (Json.PStr "a") ∅).1).2
  = (Bazel.load_cache 0 None "//b/..." ["genrule"] 60 ∅).2.
Proof.
  apply (save_cache_other_key 0 0 None None "//a/..." "//b/..." ["genrule"]
           ["genrule"] (Json.PStr "a") 60 ∅); [reflexivity|].
  vm_compute. discriminate.
Defined.

(** X19. A hit stays a hit under a larger ttl and at an earlier time: if a
    read returns an entry, the read with any ttl at least as large, at any
    time not later, returns the same entry. *)
Theorem load_cache_monotone (now now' : Q) (host : option string)
    (scope : string) (kinds : list string) (ttl ttl' : Z) (t : Pathlib.tree)
    (e : Bazel.CacheEntry) :
  (Bazel.load_cache now host scope kinds ttl t).2 = Returns (Some e) →
  (ttl ≤ ttl')%Z → (now' <= now)%Q →
  (Bazel.load_cache now' host scope kinds ttl' t).2 = Returns (Some e).
Proof.
  intros Hhit Httl Hnow.
  assert (0 < ttl)%Z as Hpos.
  { destruct (Z.leb_spec ttl 0) as [Hle|?]; [|done].
    by rewrite load_cache_skips in Hhit. }
  pose proof (load_cache_usable _ _ _ _ _ _ _ Hpos Hhit) as Hroot.
  rewrite load_cache_eq in Hhit by done.
  rewrite load_cache_eq by (done || lia). cbn [snd] in *.
  injection Hhit as Hhit. f_equal.
  by apply (fresh_entry_mono now now' ttl ttl').
Qed.

(** X19 on a record written at time 0. *)
Lemma load_cache_monotone_witness :
  (Bazel.load_cache 30 None "//..." ["genrule"] 120
     (Bazel.save_cache 0 None "//..." ["genrule"] (Json.PStr "x") ∅).1).2
  = Returns (Some {| Bazel.targets := Json.PStr "x";
                     Bazel.timestamp := Json.PNum 0 |}).
Proof.
  apply (load_cache_monotone 59 30 None "//..." ["genrule"] 60 120);
    [by vm_compute | lia | discriminate].
Defined.

(** ** The kinds of the configuration *)

Section kinds_text.
Import Py.

Lemma contains_char_nil (c : ascii) :
  contains (String c EmptyString) EmptyString = false.
Proof. done. Qed.

Lemma contains_char_cons (c x : ascii) (r : string) :
  contains (String c EmptyString) (String x r)
  = bool_decide (c = x) || contains (String c EmptyString) r.
Proof.
  change (contains (String c EmptyString) (String x r))
    with (String.prefix (String c EmptyString) (String x r)
          || contains (String c EmptyString) r).
  by rewrite prefix_char.
Qed.

Lemma contains_char_lstrip (c : ascii) (s : string) :
  contains (String c EmptyString) (lstrip s) = true →
  contains (String c EmptyString) s = true.
Proof.
  induction s as [|x r IH]; [done|]. simpl lstrip.
  destruct (isspace x); [|done].
  intros H. rewrite contains_char_cons, (IH H). apply orb_true_r.
Qed.

Lemma rstrip_cons (x : ascii) (r : string) :
  rstrip (String x r)
  = if String.eqb (rstrip r) EmptyString
    then (if isspace x then EmptyString else String x EmptyString)
    else String x (rstrip r).
Proof. simpl. by destruct (rstrip r). Qed.

Lemma contains_char_rstrip (c : ascii) (s : string) :
  contains (String c EmptyString) (rstrip s) = true →
  contains (String c EmptyString) s = true.
Proof.
  induction s as [|x r IH]; [done|]. rewrite rstrip_cons.
  rewrite (contains_char_cons c x r).
  destruct (String.eqb (rstrip r) EmptyString).
  - destruct (isspace x); [done|].
    rewrite contains_char_cons, contains_char_nil, orb_false_r.
    intros ->. done.
  - rewrite contains_char_cons. intros [->|H]%orb_true_iff; [done|].
    rewrite (IH H). apply orb_true_r.
Qed.

Lemma contains_char_strip (c : ascii) (s : string) :
  contains (String c EmptyString) s = false →
  contains (String c EmptyString) (strip s) = false.
Proof.
  intros Hs. destruct (contains _ (strip s)) eqn:E; [|done].
  apply contains_char_rstrip, contains_char_lstrip in E. congruence.
Qed.

Lemma rstrip_idemp (s : string) : rstrip (rstrip s) = rstrip s.
Proof.
  induction s as [|x r IH]; [done|]. rewrite rstrip_cons.
  destruct (String.eqb_spec (rstrip r) EmptyString) as [E|E].
  - destruct (isspace x) eqn:Hx; [done|]. simpl. by rewrite Hx.
  - rewrite rstrip_cons, IH. by destruct (String.eqb_spec (rstrip r) EmptyString).
Qed.

Lemma lstrip_head (s : string) :
  lstrip s = EmptyString
  ∨ ∃ c r, lstrip s = String c r ∧ isspace c = false.
Proof.
  induction s as [|x r IH]; [by left|]. simpl.
  destruct (isspace x) eqn:Hx; [done|]. right. by exists x, r.
Qed.

Lemma strip_idemp (s : string) : strip (strip s) = strip s.
Proof.
  unfold strip. destruct (lstrip_head s) as [->|(c & r & -> & Hc)]; [done|].
  assert (lstrip (rstrip (String c r)) = rstrip (String c r)) as ->;
    [|apply rstrip_idemp].
  rewrite rstrip_cons. destruct (String.eqb _ _).
  - rewrite Hc. simpl. by rewrite Hc.
  - simpl. by rewrite Hc.
Qed.

Lemma split_on_nonempty (sep : ascii) (s : string) : split_on sep s ≠ [].
Proof.
  destruct s as [|c r]; [done|]. simpl.
  destruct (Ascii.eqb c sep); [done|]. by destruct (split_on sep r).
Qed.

Lemma split_on_fields (sep : ascii) (s : string) :
  Forall (fun f => contains (String sep EmptyString) f = false)
         (split_on sep s).
Proof.
  induction s as [|c r IH]; [by repeat constructor|]. simpl.
  destruct (Ascii.eqb_spec c sep) as [->|Hne]; [by constructor|].
  destruct (split_on sep r) as [|f fs].
  - repeat constructor.
    rewrite contains_char_cons, contains_char_nil.
    by rewrite bool_decide_false.
  - inversion IH as [|? ? Hf Hfs]; subst. constructor; [|done].
    rewrite contains_char_cons, Hf. by rewrite bool_decide_false.
Qed.

Lemma split_on_field (sep : ascii) (f : string) :
  contains (String sep EmptyString) f = false → split_on sep f = [f].
Proof.
  induction f as [|c r IH]; [done|]. rewrite contains_char_cons.
  intros [Hc Hr]%orb_false_iff. simpl.
  destruct (Ascii.eqb_spec c sep) as [->|_]; [by rewrite bool_decide_true in Hc|].
  by rewrite (IH Hr).
Qed.

Lemma split_on_app (sep : ascii) (f rest : string) :
  contains (String sep EmptyString) f = false →
  split_on sep (f +:+ String sep rest) = f :: split_on sep rest.
Proof.
  induction f as [|c r IH].
  - intros _. rewrite append_Empty. simpl. by rewrite Ascii.eqb_refl.
  - rewrite contains_char_cons. intros [Hc Hr]%orb_false_iff.
    rewrite append_String. simpl.
    destruct (Ascii.eqb_spec c sep) as [->|_]; [by rewrite bool_decide_true in Hc|].
    by rewrite (IH Hr).
Qed.

Lemma split_on_join (sep : ascii) (ks : list string) :
  ks ≠ [] →
  Forall (fun f => contains (String sep EmptyString) f = false) ks →
  split_on sep (join (String sep EmptyString) ks) = ks.
Proof.
  intros Hne Hks. induction Hks as [|k ks Hk Hks IH]; [done|].
  destruct ks as [|k2 ks].
  - simpl. by apply split_on_field.
  - change (join (String sep EmptyString) (k :: k2 :: ks))
      with (k +:+ String sep (join (String sep EmptyString) (k2 :: ks))).
    rewrite split_on_app by done. f_equal. by apply IH.
Qed.

Lemma parse_kinds_names (rc_kinds : string) :
  Forall kind_name (Main.parse_kinds rc_kinds).
Proof.
  unfold Main.parse_kinds. apply Forall_fmap, Forall_forall.
  intros f [Hf Hin]%list_elem_of_filter. simpl. split_and!.
  - intros E. rewrite E in Hf. done.
  - apply strip_idemp.
  - apply contains_char_strip.
    pose proof (split_on_fields "," rc_kinds) as Hall.
    rewrite Forall_forall in Hall. by apply Hall.
Qed.

Lemma parse_kinds_join (ks : list string) :
  Forall kind_name ks → Main.parse_kinds (join "," ks) = ks.
Proof.
  intros Hks. unfold Main.parse_kinds.
  assert (strip <$> filter (fun k => negb (String.eqb (strip k) EmptyString)) ks
          = ks) as Hfix.
  { induction Hks as [|k ks (Hne & Hs & _) _ IH]; [done|].
    rewrite filter_cons, Hs.
    destruct (String.eqb_spec k EmptyString) as [?|_]; [done|].
    rewrite decide_True by done. csimpl. by rewrite Hs, IH. }
  destruct ks as [|k ks]; [done|].
  rewrite split_on_join; [done | done |].
  eapply Forall_impl; [exact Hks|]. by intros ? (_ & _ & ?).
Qed.

End kinds_text.

(** X20. Every kind that [main] reads from the configuration text is not
    empty, has no blank at either end and holds no comma, whatever the
    text is. *)
Theorem parse_kinds_well_formed (rc_kinds : string) :
  Forall kind_name (Main.parse_kinds rc_kinds).
Proof. apply parse_kinds_names. Qed.

(** X21. The kinds round trip through the configuration text: the text
    that [save_kinds_to_bzlrc] joins from a list of kinds is read back by
    [main] as that list, when each kind is not empty, has no blank around it
    and holds no comma. *)
Theorem parse_kinds_of_joined (ks : list string) :
  Forall kind_name ks → Main.parse_kinds (Py.join "," ks) = ks.
Proof. apply parse_kinds_join. Qed.

(** X21 on two kinds. *)
Lemma parse_kinds_of_joined_witness :
  Main.parse_kinds (Py.join "," ["genrule"; "sh_test"]) = ["genrule"; "sh_test"].
Proof.
  apply (parse_kinds_of_joined ["genrule"; "sh_test"]).
  repeat constructor; (discriminate || reflexivity).
Defined.

(** ** The age of an entry *)

Section age.
Import Py Json Pathlib Bazel.


Lemma age_text_cases (s : Z) :
  ((s < 60)%Z ∧ age_text s = str_of_int s +:+ "s ago")
  ∨ (∃ m : Z, (1 ≤ m < 60 ∧ 60 * m ≤ s < 60 * (m + 1))%Z
       ∧ age_text s = str_of_int m +:+ "m ago")
  ∨ (∃ h m : Z,
       (1 ≤ h < 24 ∧ 0 ≤ m < 60
        ∧ 3600 * h + 60 * m ≤ s < 3600 * h + 60 * (m + 1))%Z
       ∧ age_text s = str_of_int h +:+ "h " +:+ str_of_int m +:+ "m ago")
  ∨ (∃ d : Z, (1 ≤ d < 7 ∧ 86400 * d ≤ s < 86400 * (d + 1))%Z
       ∧ age_text s = str_of_int d +:+ "d ago")
  ∨ (∃ w d : Z,
       (1 ≤ w ∧ 0 ≤ d < 7
        ∧ 86400 * (7 * w + d) ≤ s < 86400 * (7 * w + d + 1))%Z
       ∧ age_text s = str_of_int w +:+ "w " +:+ str_of_int d +:+ "d ago").
Proof.
  unfold age_text.
  destruct (Z.ltb_spec s 60); [by left|]. right.
  destruct (Z.ltb_spec s 3600).
  { left. exists (s / 60)%Z. split; [|done].
    Z.to_euclidean_division_equations. lia. }
  right. destruct (Z.ltb_spec s 86400).
  { left. exists (s / 3600)%Z, ((s mod 3600) / 60)%Z. split; [|done].
    Z.to_euclidean_division_equations. lia. }
  right. cbv zeta. destruct (Z.ltb_spec (s / 86400) 7).
  { left. exists (s / 86400)%Z. split; [|done].
    Z.to_euclidean_division_equations. lia. }
  right. exists (s / 86400 / 7)%Z, ((s / 86400) mod 7)%Z. split; [|done].
  Z.to_euclidean_division_equations. lia.
Qed.


End age.

(** X22. The age text names the largest unit that fits and understates
    the age by less than one of its smallest displayed unit: seconds below
    a minute (negative ages included), whole minutes below an hour, hours
    and minutes below a day, whole days below a week, weeks and days from
    there on, with minutes below 60, hours below 24 and days below 7. *)
Theorem age_text_units (s : Z) :
  ((s < 60)%Z ∧ Bazel.age_text s = Py.str_of_int s +:+ "s ago")
  ∨ (∃ m : Z, (1 ≤ m < 60 ∧ 60 * m ≤ s < 60 * (m + 1))%Z
       ∧ Bazel.age_text s = Py.str_of_int m +:+ "m ago")
  ∨ (∃ h m : Z,
       (1 ≤ h < 24 ∧ 0 ≤ m < 60
        ∧ 3600 * h + 60 * m ≤ s < 3600 * h + 60 * (m + 1))%Z
       ∧ Bazel.age_text s
         = Py.str_of_int h +:+ "h " +:+ Py.str_of_int m +:+ "m ago")
  ∨ (∃ d : Z, (1 ≤ d < 7 ∧ 86400 * d ≤ s < 86400 * (d + 1))%Z
       ∧ Bazel.age_text s = Py.str_of_int d +:+ "d ago")
  ∨ (∃ w d : Z,
       (1 ≤ w ∧ 0 ≤ d < 7
        ∧ 86400 * (7 * w + d) ≤ s < 86400 * (7 * w + d + 1))%Z
       ∧ Bazel.age_text s
         = Py.str_of_int w +:+ "w " +:+ Py.str_of_int d +:+ "d ago").
Proof. apply age_text_cases. Qed.



(** ** Discovery and refresh *)

Section discovery.
Import Py Json Pathlib Bazel.


Lemma save_cache_usable (now : Q) (host : option string) (scope : string)
    (kinds : list string) (tgts : value) (t : tree) (u : unit) :
  (save_cache now host scope kinds tgts t).2 = Returns u → root_usable t.
Proof.
  unfold save_cache, root_usable. unfold bind at 1. unfold _cache_path, bind.
  by destruct (mkdir_parents _CACHE_DIR t) as [t1 [[]|e]].
Qed.

Lemma save_cache_unusable (now : Q) (host : option string) (scope : string)
    (kinds : list string) (tgts : value) (t : tree) (e : exn) :
  (save_cache now host scope kinds tgts t).2 = Raises e →
  (save_cache now host scope kinds tgts t).1 = (mkdir_parents _CACHE_DIR t).1.
Proof.
  destruct (mkdir_parents _CACHE_DIR t) as [t1 [[]|e1]] eqn:E.
  - rewrite save_cache_eq; [done|]. unfold root_usable. by rewrite E.
  - intros _. unfold save_cache. unfold bind at 1. unfold _cache_path, bind.
    by rewrite E.
Qed.

Lemma load_cache_adds (now : Q) (host : option string) (scope : string)
    (kinds : list string) (ttl : Z) (t : tree) :
  only_adds_dirs _CACHE_DIR t (load_cache now host scope kinds ttl t).1.
Proof.
  rewrite load_cache_tree. destruct (_ <=? _)%Z.
  - apply only_adds_dirs_refl.
  - eapply mkdir_parents_adds, surjective_pairing.
Qed.

(** The age of an entry with a numeric time never fails. *)
Lemma age_str_number (later q : Q) (e : CacheEntry) :
  as_number (timestamp e) = Some q →
  age_str later e = Returns (age_text (int_of_float (later - q))).
Proof.
  unfold age_str, age_seconds, rsub, as_number.
  destruct (timestamp e) as [|[]|x| | |]; intros [= <-]; done.
Qed.

(** The time of an entry that a read returns is a number. *)
Lemma load_cache_entry_time (now : Q) (host : option string)
    (scope : string) (kinds : list string) (ttl : Z) (t : tree)
    (e : CacheEntry) :
  (load_cache now host scope kinds ttl t).2 = Returns (Some e) →
  ∃ q, as_number (timestamp e) = Some q.
Proof.
  intros Hload.
  assert (0 < ttl)%Z as Hpos.
  { destruct (Z.leb_spec ttl 0) as [Hle|?]; [|done].
    by rewrite load_cache_skips in Hload. }
  pose proof (load_cache_usable _ _ _ _ _ _ _ Hpos Hload) as Hroot.
  rewrite load_cache_eq in Hload by done. cbn [snd] in Hload.
  injection Hload as Hload. unfold fresh_entry in Hload.
  destruct (t !! cache_file host scope kinds) as [n|]; [|done].
  destruct (deserialize n) as [r|] eqn:Hr; [|done].
  destruct (ne_int _ _); [done|]. destruct (negb _); [done|].
  injection Hload as <-. cbn [timestamp].
  exists (captured_at r). unfold deserialize in Hr.
  repeat case_match; by simplify_eq.
Qed.


(** [main] after a read that returned an entry. *)
Lemma discover_hit (run : list string → outcome completed) (now later : Q)
    (cwd rc_kinds : string) (args : Main.arguments) (t t' : tree)
    (e : CacheEntry) :
  load_cache now (host_key cwd args) (Main.scope args)
    (Main.parse_kinds rc_kinds) (Main.ttl_seconds_of args) t
  = (t', Returns (Some e)) →
  ∃ q, as_number (timestamp e) = Some q
    ∧ Main.discover run now later cwd rc_kinds args t
      = (t', Returns (Main.FromCache (targets e)
                        (age_text (int_of_float (later - q))))).
Proof.
  intros Hload.
  destruct (load_cache_entry_time now (host_key cwd args) (Main.scope args)
              (Main.parse_kinds rc_kinds) (Main.ttl_seconds_of args) t e)
    as [q Hq]; [by rewrite Hload|].
  exists q. split; [done|].
  unfold Main.discover. cbv zeta. unfold bind at 1.
  fold (host_key cwd args). rewrite Hload.
  unfold bind, lift. by rewrite (age_str_number later q e Hq).
Qed.

(** [main] after a read that returned no entry. *)
Lemma discover_miss (run : list string → outcome completed) (now later : Q)
    (cwd rc_kinds : string) (args : Main.arguments) (t t' : tree) :
  load_cache now (host_key cwd args) (Main.scope args)
    (Main.parse_kinds rc_kinds) (Main.ttl_seconds_of args) t
  = (t', Returns None) →
  Main.discover run now later cwd rc_kinds args t
  = match run_query run (Main.ssh_config_of cwd args) (Main.scope args)
            (Main.parse_kinds rc_kinds) with
    | Raises e => (t', Returns (Main.QueryFailed e))
    | Returns output =>
        match parse_query_output output with
        | Raises e => (t', Raises e)
        | Returns [] => (t', Returns Main.NoTargets)
        | Returns tgts =>
            match save_cache later (host_key cwd args) (Main.scope args)
                    (Main.parse_kinds rc_kinds) (of_index tgts) t' with
            | (t1, Returns _) => (t1, Returns (Main.FromQuery tgts))
            | (t1, Raises e) => (t1, Raises e)
            end
        end
    end.
Proof.
  intros Hload. unfold Main.discover. cbv zeta. unfold bind at 1.
  fold (host_key cwd args). rewrite Hload. unfold run_query.
  destruct (Main.ssh_config_of cwd args) as [c|];
    (match goal with |- context [match ?q with Returns _ => _ | Raises _ => _ end] =>
       destruct q as [output|e] end; [|done]);
    (destruct (parse_query_output output) as [[|kv idx]|e]; [done| |done]);
    unfold bind; by destruct (save_cache _ _ _ _ _ _) as [t1 [[]|e]].
Qed.

(** [main] after a read that failed. *)
Lemma discover_error (run : list string → outcome completed) (now later : Q)
    (cwd rc_kinds : string) (args : Main.arguments) (t t' : tree) (e : exn) :
  load_cache now (host_key cwd args) (Main.scope args)
    (Main.parse_kinds rc_kinds) (Main.ttl_seconds_of args) t
  = (t', Raises e) →
  Main.discover run now later cwd rc_kinds args t = (t', Raises e).
Proof.
  intros Hload. unfold Main.discover. cbv zeta. unfold bind at 1.
  fold (host_key cwd args). by rewrite Hload.
Qed.

(** A run that ends with the result of a query wrote its record on a
    tree with a usable root. *)
Lemma discover_from_query (run : list string → outcome completed) (now later : Q)
    (cwd rc_kinds : string) (args : Main.arguments) (t t1 : tree)
    (tgts : dict (list string)) :
  Main.discover run now later cwd rc_kinds args t
  = (t1, Returns (Main.FromQuery tgts)) →
  ∃ t0 output,
    root_usable t0
    ∧ stat t0 (record_of cwd rc_kinds args) = stat t (record_of cwd rc_kinds args)
    ∧ run_query run (Main.ssh_config_of cwd args) (Main.scope args)
        (Main.parse_kinds rc_kinds) = Returns output
    ∧ parse_query_output output = Returns tgts
    ∧ tgts ≠ []
    ∧ t1 = (save_cache later (host_key cwd args) (Main.scope args)
              (Main.parse_kinds rc_kinds) (of_index tgts) t0).1.
Proof.
  intros Hd.
  destruct (load_cache now (host_key cwd args) (Main.scope args)
              (Main.parse_kinds rc_kinds) (Main.ttl_seconds_of args) t)
    as [t0 [[e|]|e]] eqn:Hload.
  - destruct (discover_hit run now later _ _ _ _ _ _ Hload) as (q & _ & Hh).
    by rewrite Hh in Hd.
  - rewrite (discover_miss _ _ _ _ _ _ _ _ Hload) in Hd.
    destruct (run_query _ _ _ _) as [output|e]; [|done].
    destruct (parse_query_output output) as [[|kv idx]|e] eqn:Hp; [done| |done].
    destruct (save_cache _ _ _ _ _ t0) as [t2 [[]|e]] eqn:Hs; [|done].
    injection Hd as -> <-.
    assert (t0 = (load_cache now (host_key cwd args) (Main.scope args)
                    (Main.parse_kinds rc_kinds) (Main.ttl_seconds_of args) t).1)
      as Ht0 by by rewrite Hload.
    exists t0, output. split_and!; try done.
    + eapply save_cache_usable. by rewrite Hs.
    + rewrite Ht0, load_cache_tree. destruct (_ <=? _)%Z; [done|].
      apply with_root_file.
    + by rewrite Hs.
  - by rewrite (discover_error _ _ _ _ _ _ _ _ _ Hload) in Hd.
Qed.

Lemma discover_frame (run : list string → outcome completed) (now later : Q)
    (cwd rc_kinds : string) (args : Main.arguments) (t : tree) :
  (∀ tgts, (Main.discover run now later cwd rc_kinds args t).2
           ≠ Returns (Main.FromQuery tgts)) →
  only_adds_dirs _CACHE_DIR t
    (Main.discover run now later cwd rc_kinds args t).1.
Proof.
  intros Hnot.
  pose proof (load_cache_adds now (host_key cwd args) (Main.scope args)
                (Main.parse_kinds rc_kinds) (Main.ttl_seconds_of args) t) as Hl.
  destruct (load_cache now (host_key cwd args) (Main.scope args)
              (Main.parse_kinds rc_kinds) (Main.ttl_seconds_of args) t)
    as [t0 [[e|]|e]] eqn:Hload; cbn [fst] in Hl.
  - destruct (discover_hit run now later _ _ _ _ _ _ Hload) as (q & _ & Hh).
    by rewrite Hh.
  - rewrite (discover_miss _ _ _ _ _ _ _ _ Hload) in Hnot |- *.
    destruct (run_query _ _ _ _) as [output|e]; [|done].
    destruct (parse_query_output output) as [[|kv idx]|e]; [done| |done].
    destruct (save_cache later (host_key cwd args) (Main.scope args)
                (Main.parse_kinds rc_kinds) (of_index (kv :: idx)) t0)
      as [t2 [[]|e]] eqn:Hs.
    + by destruct (Hnot (kv :: idx)).
    + cbn [fst]. eapply only_adds_dirs_trans; [exact Hl|].
      assert (t2 = (mkdir_parents _CACHE_DIR t0).1) as ->.
      { rewrite <-(save_cache_unusable later (host_key cwd args) (Main.scope args)
                     (Main.parse_kinds rc_kinds) (of_index (kv :: idx)) t0 e);
          by rewrite Hs. }
      eapply mkdir_parents_adds, surjective_pairing.
  - by rewrite (discover_error _ _ _ _ _ _ _ _ _ Hload).
Qed.

Lemma run_query_no_kinds (run : list string → outcome completed)
    (cfg : option Ssh.SSHConfig) (scope : string) :
  run_query run cfg scope [] = Raises IndexError.
Proof. by destruct cfg. Qed.

End discovery.



(** X25. [main] writes a record only for a non-empty result: when a run
    ends with the result of a query, the query returned an output whose
    index is that result and is not empty; when it ends in any other way
    (a cache hit, a failed query, no targets, an error), no file is written,
    changed or removed, and the only nodes added are the cache root and its
    parent, as directories. *)
Theorem discover_writes_results_only (run : list string → outcome Bazel.completed)
    (now later : Q) (cwd rc_kinds : string) (args : Main.arguments)
    (t : Pathlib.tree) :
  (∀ tgts,
     (Main.discover run now later cwd rc_kinds args t).2
     = Returns (Main.FromQuery tgts) →
     tgts ≠ []
     ∧ ∃ output,
         run_query run (Main.ssh_config_of cwd args) (Main.scope args)
           (Main.parse_kinds rc_kinds) = Returns output
         ∧ Bazel.parse_query_output output = Returns tgts)
  ∧ ((∀ tgts, (Main.discover run now later cwd rc_kinds args t).2
              ≠ Returns (Main.FromQuery tgts)) →
     only_adds_dirs Bazel._CACHE_DIR t
       (Main.discover run now later cwd rc_kinds args t).1).
Proof.
  split; [|apply discover_frame].
  intros tgts Hd.
  destruct (discover_from_query run now later cwd rc_kinds args t
              (Main.discover run now later cwd rc_kinds args t).1 tgts)
    as (t0 & output & _ & _ & Hq & Hp & Hne & _).
  { by rewrite <-Hd, <-surjective_pairing. }
  split; [done|]. by exists output.
Qed.

(** X25 on a run whose query fails. *)
Lemma discover_writes_results_only_witness :
  only_adds_dirs Bazel._CACHE_DIR ∅
    (Main.discover
       (fun _ => Returns {| Bazel.returncode := 1; Bazel.stdout := EmptyString;
                    Bazel.stderr := "boom" |})
       0 1 "/w" "genrule"
       {| Main.ssh := None; Main.ssh_dir := None; Main.scope := "//...";
          Main.cache_ttl := 10; Main.no_cache := false |} ∅).1.
Proof.
  destruct (discover_writes_results_only
              (fun _ => Returns {| Bazel.returncode := 1; Bazel.stdout := EmptyString;
                           Bazel.stderr := "boom" |})
              0 1 "/w" "genrule"
              {| Main.ssh := None; Main.ssh_dir := None; Main.scope := "//...";
                 Main.cache_ttl := 10; Main.no_cache := false |} ∅)
    as [_ H].
  apply H. intros tgts. vm_compute. discriminate.
Defined.

(** X26. Without a kind there is no query: when the configuration text
    names no kind (it is blank, or commas and blanks only) and the cache
    gives nothing, [main] ends with the failure [IndexError] whatever the
    process would answer, since no command can be built. *)
Theorem discover_without_kinds (run : list string → outcome Bazel.completed)
    (now later : Q) (cwd rc_kinds : string) (args : Main.arguments)
    (t t' : Pathlib.tree) :
  Main.parse_kinds rc_kinds = [] →
  Bazel.load_cache now (host_key cwd args) (Main.scope args) []
    (Main.ttl_seconds_of args) t = (t', Returns None) →
  Main.discover run now later cwd rc_kinds args t
  = (t', Returns (Main.QueryFailed IndexError)).
Proof.
  intros Hk Hload.
  rewrite (discover_miss run now later cwd rc_kinds args t t') by by rewrite Hk.
  by rewrite Hk, run_query_no_kinds.
Qed.

(** X26 on a text of commas and blanks. *)
Lemma discover_without_kinds_witness :
  Main.discover
    (fun _ => Returns {| Bazel.returncode := 0; Bazel.stdout := "//a:b";
                 Bazel.stderr := EmptyString |})
    0 1 "/w" " , ,"
    {| Main.ssh := None; Main.ssh_dir := None; Main.scope := "//...";
       Main.cache_ttl := 10; Main.no_cache := true |} ∅
  = (∅, Returns (Main.QueryFailed IndexError)).
Proof.
  apply discover_without_kinds; reflexivity.
Defined.

Section refresh.
Import Py Json Pathlib Bazel.


End refresh.





(** ** From the query output to the command *)

Section selection.
Import Py Bazel.

Lemma selected_item_in_view (fl : FuzzyList.FuzzyList) (item : string) :
  FuzzyList.selected_item fl = Returns (Some item) →
  item ∈ FuzzyList._filtered fl.
Proof.
  unfold FuzzyList.selected_item.
  destruct (FuzzyList._filtered fl) as [|x xs] eqn:E; [done|]. rewrite <-E.
  destruct ((0 <=? _) && _)%Z eqn:Hc; [|done].
  apply andb_true_iff in Hc as [H0 Hn].
  destruct (getitem_in_range (FuzzyList._filtered fl) (FuzzyList._cursor fl))
    as (y & Hy & ->); [lia|].
  cbn [bind_outcome]. intros [= <-]. by eapply list_elem_of_lookup_2.
Qed.

Lemma selected_item_returns (fl : FuzzyList.FuzzyList) :
  ∃ r, FuzzyList.selected_item fl = Returns r.
Proof.
  unfold FuzzyList.selected_item.
  destruct (FuzzyList._filtered fl) as [|x xs] eqn:E; [by eexists|].
  rewrite <-E. destruct ((0 <=? _) && _)%Z eqn:Hc; [|by eexists].
  apply andb_true_iff in Hc as [H0 Hn].
  destruct (getitem_in_range (FuzzyList._filtered fl) (FuzzyList._cursor fl))
    as (y & Hy & ->); [lia|].
  by eexists.
Qed.

Lemma selected_item_in_source (items : list string)
    (fmt : option (string → string)) (evs : list screen_event) (item : string) :
  FuzzyList.selected_item (BaseScreen.fuzzy_list (screen_after items fmt evs))
  = Returns (Some item) →
  item ∈ FuzzyList._all_items (BaseScreen.fuzzy_list (screen_after items fmt evs)).
Proof.
  intros Hs%selected_item_in_view.
  destruct (in_sync_after items fmt evs) as [_ Hv]. unfold view in Hv.
  rewrite Hv in Hs. by apply elem_of_fuzzy_filter in Hs as [? _].
Qed.

Lemma kept_lines_reported (text line : string) :
  line ∈ kept_lines text →
  ∃ reported, reported ∈ splitlines text ∧ strip reported = line.
Proof.
  unfold kept_lines. intros [_ Hin]%list_elem_of_filter.
  apply list_elem_of_fmap in Hin as (reported & -> & Hin). by exists reported.
Qed.

Lemma rules_of_index (text module rule : string) (idx : dict (list string)) :
  parse_query_output text = Returns idx →
  rule ∈ GenruleScreen.rules idx module →
  ∃ line, line ∈ kept_lines text ∧ line = module +:+ ":" +:+ rule.
Proof.
  rewrite parse_query_output_eq. intros [= <-] Hin.
  change (GenruleScreen.rules ?i ?m) with (items_of i m) in Hin.
  rewrite index_items, (sorted_perm str_lt) in Hin.
  apply elem_of_items_in, list_elem_of_fmap in Hin as (line & Hcut & Hin).
  exists line. split; [done|].
  destruct (significant_cut line (kept_lines_significant _ _ Hin)) as [_ [Hl _]].
  by rewrite <-Hcut in Hl.
Qed.

Lemma modules_of_index (text module : string) (idx : dict (list string)) :
  parse_query_output text = Returns idx →
  module ∈ ModuleScreen.items idx →
  startswith "//" module = true
  ∧ GenruleScreen.rules idx module ≠ []
  ∧ ∃ line, line ∈ kept_lines text ∧ (cut line).1 = module.
Proof.
  rewrite parse_query_output_eq. intros [= <-] Hin.
  unfold ModuleScreen.items in Hin.
  pose proof Hin as (line & Hline & Hcut)%index_elem_of_keys.
  split_and!.
  - rewrite <-Hcut. by apply significant_namespace, (kept_lines_significant text).
  - change (GenruleScreen.rules ?i ?m) with (items_of i m).
    rewrite index_items. intros Hnil.
    assert ((cut line).2 ∈ sorted str_lt (items_in module (cut <$> kept_lines text)))
      as Hel; [|by rewrite Hnil in Hel; apply elem_of_nil in Hel].
    rewrite (sorted_perm str_lt). apply elem_of_items_in, list_elem_of_fmap.
    exists line. split; [|done]. rewrite <-Hcut. by destruct (cut line).
  - by exists line.
Qed.

End selection.

(** X29. What the rule screen confirms is a label that the query reported:
    on a screen reached by any sequence of events whose list holds the
    rules of a module in the index of an output, [action_confirm] does not
    raise, and when it gives a target, the target is [module:rule] for a
    non-empty rule, it is a line of the output with the blanks around it
    removed, the verb is the application's, and the local command that
    [main] builds from the two is [bazel verb target]. *)
Theorem confirm_gives_reported_label (output : string)
    (idx : Py.dict (list string)) (module verb : string)
    (items : list string) (fmt : option (string → string))
    (evs : list screen_event) :
  Bazel.parse_query_output output = Returns idx →
  FuzzyList._all_items (BaseScreen.fuzzy_list (screen_after items fmt evs))
  = GenruleScreen.rules idx module →
  ∃ r, GenruleScreen.action_confirm module verb (screen_after items fmt evs)
       = Returns r
    ∧ ∀ target verb', r = Some (target, verb') →
        verb' = verb
        ∧ (∃ rule, rule ≠ EmptyString ∧ target = module +:+ ":" +:+ rule)
        ∧ (∃ line, line ∈ Py.splitlines output ∧ Py.strip line = target)
        ∧ Main.exec_args None (Some target) verb' = ["bazel"; verb; target].
Proof.
  intros Hidx Hsrc. unfold GenruleScreen.action_confirm.
  pose proof (selected_item_in_source items fmt evs) as Hsel.
  destruct (selected_item_returns
              (BaseScreen.fuzzy_list (screen_after items fmt evs))) as [sel Hr].
  rewrite Hr in Hsel |- *. cbn [bind_outcome].
  destruct sel as [rule|]; [|by eexists; split; [done|]].
  destruct (String.eqb_spec rule EmptyString) as [->|Hrule];
    [by eexists; split; [done|]|].
  eexists; split; [done|]. intros target verb' [= <- <-].
  specialize (Hsel rule eq_refl). rewrite Hsrc in Hsel.
  destruct (rules_of_index output module rule idx Hidx Hsel) as (line & Hin & ->).
  split_and!; [done | by exists rule | by apply kept_lines_reported |].
  unfold Main.exec_args. by destruct module.
Qed.

(** X29 on the first rule of a module. *)
Lemma confirm_gives_reported_label_witness :
  GenruleScreen.action_confirm "//pkg" "test"
    (screen_after ["gen"; "lint"] None [CursorDown])
  = Returns (Some ("//pkg:lint", "test")).
Proof.
  destruct (confirm_gives_reported_label
              ("//pkg:lint" +:+ Py.LF +:+ "  //pkg:gen  ")
              [("//pkg", ["gen"; "lint"])] "//pkg" "test"
              ["gen"; "lint"] None [CursorDown])
    as (r & Hr & _); [reflexivity | reflexivity |].
  rewrite Hr. revert Hr. vm_compute. by intros [= <-].
Defined.

(** X30. What the module screen confirms is a package of the output with
    rules to show: on a screen reached by any sequence of events whose list
    holds the modules of the index of an output, [action_confirm] does not
    raise, and when it gives a module, the module starts with [//], a line
    of the output is that module followed by [:] and a rule, and the rule
    screen that it opens is not empty. *)
Theorem module_confirm_opens_rules (output : string)
    (idx : Py.dict (list string)) (items : list string)
    (fmt : option (string → string)) (evs : list screen_event) :
  Bazel.parse_query_output output = Returns idx →
  FuzzyList._all_items (BaseScreen.fuzzy_list (screen_after items fmt evs))
  = ModuleScreen.items idx →
  ∃ r, ModuleScreen.action_confirm (screen_after items fmt evs) = Returns r
    ∧ ∀ module, r = Some module →
        Py.startswith "//" module = true
        ∧ GenruleScreen.rules idx module ≠ []
        ∧ ∃ line rule, line ∈ Py.splitlines output
                       ∧ Py.strip line = module +:+ ":" +:+ rule.
Proof.
  intros Hidx Hsrc. unfold ModuleScreen.action_confirm.
  pose proof (selected_item_in_source items fmt evs) as Hsel.
  destruct (selected_item_returns
              (BaseScreen.fuzzy_list (screen_after items fmt evs))) as [sel Hr].
  rewrite Hr in Hsel |- *. cbn [bind_outcome].
  destruct sel as [m|]; [|by eexists; split; [done|]].
  destruct (String.eqb_spec m EmptyString) as [->|Hm];
    [by eexists; split; [done|]|].
  eexists; split; [done|]. intros module [= <-].
  specialize (Hsel m eq_refl). rewrite Hsrc in Hsel.
  destruct (modules_of_index output m idx Hidx Hsel) as (Hstart & Hrules & line & Hin & Hcut).
  split_and!; [done..|].
  destruct (kept_lines_reported _ _ Hin) as (reported & Hrep & Hstrip).
  exists reported, (cut line).2. split; [done|].
  destruct (significant_cut line (kept_lines_significant _ _ Hin)) as [_ [Hl _]].
  by rewrite Hstrip, <-Hcut.
Qed.

(** X30 on an output of two packages. *)
Lemma module_confirm_opens_rules_witness :
  ModuleScreen.action_confirm (screen_after ["//a"; "//b"] None [CursorDown])
  = Returns (Some "//b").
Proof.
  destruct (module_confirm_opens_rules
              ("//b:y" +:+ Py.LF +:+ "//a:x")
              [("//a", ["x"]); ("//b", ["y"])]
              ["//a"; "//b"] None [CursorDown])
    as (r & Hr & _); [reflexivity | reflexivity |].
  rewrite Hr. revert Hr. vm_compute. by intros [= <-].
Defined.
